(** * A shallow embedding of the ivy dispatch and wrapping layer

    The development follows [ivy/data_classes/array/array.py] (the [Array]
    wrapper), [ivy/functional/ivy/searching.py] (the decorator chain of a
    primitive) and [ivy/data_classes/container/experimental/manipulation.py]
    (a container method built on the multi-map).

    Python objects are mutable: a method is a computation over the state
    made of its receiver and of the process-wide interpreter state, it may
    raise, and what it wrote before raising stays written.  Calls into the
    backend layer are recorded as events, so that statements such as
    "performs no recomputation" or "attempts the native assignment" can be
    phrased on the events a call emits. *)

From Stdlib Require Import ZArith List String Ascii Bool Lia.
Import ListNotations.
Open Scope string_scope.
Open Scope list_scope.
Open Scope Z_scope.

(* ================================================================== *)
(** ** Python values *)
(* ================================================================== *)

(** Exceptions raised by the modelled code. *)
Inductive Exc : Type :=
| IvyException (msg : string)
| AttributeError (attr : string)
| IndexError
| TypeError
| ValueError
| BackendNotFoundError (name : string)
| ShapeMismatchError
| KeyError (key : string)
| RecursionError.

(** Element types of a tensor; only their width matters here. *)
Inductive Dtype : Type := int8 | int16 | int32 | int64.

Definition dtype_bits (d : Dtype) : Z :=
  match d with int8 => 8 | int16 => 16 | int32 => 32 | int64 => 64 end.

Definition Dtype_eqb (a b : Dtype) : bool := dtype_bits a =? dtype_bits b.

(** A native tensor handle.  The wrapper never interprets it; the fields
    are what the backend primitives used below can observe of it: the
    library whose tensor class it is an instance of, its [.shape], its
    element type and device, its row-major payload (numeric values are
    integers; a store casts what it writes to the width of [t_dtype])
    and whether it is attached to a gradient graph. *)
Record NativeArray : Type := mkNative {
  t_lib : string;
  t_shape : list Z;
  t_dtype : Dtype;
  t_device : string;
  t_elems : list Z;
  t_grad : bool
}.

(** A loaded backend module: the string its [current_backend_str()]
    returns (backends/paddle/general.py returns ["paddle"]) and the
    capability flags "native in-place support" and "native out-argument
    support" of its registry entry. *)
Record Backend : Type := mkBackend {
  backend_str : string;
  native_inplace : bool;
  native_out : bool
}.

(** An attribute slot of an instance [__dict__]: never assigned, or bound. *)
Inductive Attr (A : Type) : Type :=
| Unset
| Bound (a : A).
Arguments Unset {A}.
Arguments Bound {A} a.

(** The instance attributes of [ivy.Array].  [_init] assigns the first
    twelve, [_view_attributes] the view bookkeeping, and [_backend] is
    assigned by the [dynamic_backend] setter only. *)
Record Array : Type := mkArray {
  _data : NativeArray;
  _size : option Z;
  _strides : option (list Z);
  _itemsize : option Z;
  _dtype : option Dtype;
  _device : option string;
  _dev_str : option string;
  _pre_repr : option string;
  _post_repr : option string;
  backend : string;
  _dynamic_backend : bool;
  weak_type : bool;
  _backend : Attr (option Backend);
  _base : option NativeArray;
  _view_refs : list NativeArray;
  _manipulation_stack : list string
}.

(** The values that reach the modelled functions.  A Container is an
    ordered mapping from string keys to values, listed in insertion
    order. *)
Inductive PyVal : Type :=
| PNone
| PScalar (z : Z)
| PArr (a : Array)
| PTensor (t : NativeArray)
| PCont (c : Container)
with Container : Type :=
| CEmpty
| CItem (key : string) (value : PyVal) (rest : Container).

Scheme PyVal_mutind := Induction for PyVal Sort Prop
  with Container_mutind := Induction for Container Sort Prop.

(** Index expressions on the leading axis: an integer (negative values
    count from the end), a slice [start:stop] with step one, or [...]. *)
Inductive Query : Type :=
| QInt (i : Z)
| QSlice (start stop : Z)
| QEllipsis.

(** The derived metadata fields of an Array. *)
Inductive Field : Type :=
| FDtype | FDevice | FShape | FSize | FItemsize | FStrides.

(** What a call lets the backend layer do. *)
Inductive Event : Type :=
| Introspect (f : Field) (t : NativeArray)
| NativeSetitem (t : NativeArray) (q : Query) (v : PyVal)
| ScatterNd (q : Query) (v : PyVal) (target : NativeArray)
| BackendCall (fn : string) (args : list PyVal).

(* ================================================================== *)
(** ** State, exceptions and events *)
(* ================================================================== *)

Section StateExc.
Context {S : Type}.

(** A computation over a state [S]: its outcome (an exception or a
    value), the state it leaves, and the events it emitted. *)
Definition ST (A : Type) : Type := S -> (Exc + A) * S * list Event.

Definition ret {A} (a : A) : ST A := fun s => (inr a, s, []).

Definition raise {A} (e : Exc) : ST A := fun s => (inl e, s, []).

Definition bind {A B} (m : ST A) (k : A -> ST B) : ST B :=
  fun s =>
    match m s with
    | (inl e, s1, ev1) => (inl e, s1, ev1)
    | (inr a, s1, ev1) =>
        match k a s1 with
        | (r, s2, ev2) => (r, s2, ev1 ++ ev2)
        end
    end.

Definition emit (e : Event) : ST unit := fun s => (inr tt, s, [e]).

Definition get : ST S := fun s => (inr s, s, []).

Definition put (s : S) : ST unit := fun _ => (inr tt, s, []).

(** [try: m except: h] with a bare [except]: every exception is caught,
    and the handler runs in the state the body left. *)
Definition try_except {A} (m : ST A) (h : Exc -> ST A) : ST A :=
  fun s =>
    match m s with
    | (inr a, s1, ev1) => (inr a, s1, ev1)
    | (inl e, s1, ev1) =>
        match h e s1 with
        | (r, s2, ev2) => (r, s2, ev1 ++ ev2)
        end
    end.
End StateExc.

Notation "x <- m ;; k" := (bind m (fun x => k))
  (at level 61, m at next level, right associativity).
Notation "m ;;; k" := (bind m (fun _ => k))
  (at level 61, right associativity).

(** Outcome, final state and events of a run. *)
Definition outcome {S A} (r : (Exc + A) * S * list Event) : Exc + A := fst (fst r).
Definition final {S A} (r : (Exc + A) * S * list Event) : S := snd (fst r).
Definition events {S A} (r : (Exc + A) * S * list Event) : list Event := snd r.
Arguments outcome {S A} r /.
Arguments final {S A} r /.
Arguments events {S A} r /.

(* ================================================================== *)
(** ** The backend registry *)
(* ================================================================== *)

(** Process-wide state: the current-backend stack (top first), the
    loadable backend modules, the name of the process default, and the
    global flag [ivy.dynamic_backend]. *)
Record World : Type := mkWorld {
  backend_stack : list Backend;
  registry : list Backend;
  implicit_backend : string;
  ivy_dynamic_backend : bool
}.

Definition M : Type -> Type := @ST World.

Definition with_stack (w : World) (st : list Backend) : World :=
  {| backend_stack := st;
     registry := registry w;
     implicit_backend := implicit_backend w;
     ivy_dynamic_backend := ivy_dynamic_backend w |}.

Definition lookup_backend (name : string) (reg : list Backend) : option Backend :=
  find (fun b => String.eqb (backend_str b) name) reg.

(** Modelled from the spec: [ivy.set_backend] of ivy/utils/backend/handler.py
    is missing from the sources.  "set_backend/previous_backend push/pop a
    global stack"; resolution "fails with BackendNotFoundError if the
    resolved name has no corresponding loadable module". *)
Definition set_backend (name : string) : M unit :=
  w <- get ;;
  match lookup_backend name (registry w) with
  | Some b => put (with_stack w (b :: backend_stack w))
  | None => raise (BackendNotFoundError name)
  end.

(** Modelled from the spec: [ivy.previous_backend] is missing from the
    sources; it pops the stack.  On an empty stack there is nothing to
    pop and the stack stays empty. *)
Definition previous_backend : M unit :=
  w <- get ;;
  put (with_stack w (tl (backend_stack w))).

(** Modelled from the spec: [_determine_backend_from_args] is missing from
    the sources.  "inspect args left-to-right for the first value carrying
    backend identity (an Array or a recognizable NativeTensor) and return
    the registry entry for that identity". *)
Fixpoint _determine_backend_from_args (reg : list Backend) (args : list PyVal)
  : option Backend :=
  match args with
  | [] => None
  | PArr a :: rest =>
      match lookup_backend (t_lib (_data a)) reg with
      | Some b => Some b
      | None => _determine_backend_from_args reg rest
      end
  | PTensor t :: rest =>
      match lookup_backend (t_lib t) reg with
      | Some b => Some b
      | None => _determine_backend_from_args reg rest
      end
  | _ :: rest => _determine_backend_from_args reg rest
  end.

(** Modelled from the spec: [ivy.current_backend] is missing from the
    sources.  "if a backend has been explicitly pushed onto the stack,
    return it; otherwise inspect args ...; if none found, return the
    process default".  It reads the stack and never changes it. *)
Definition current_backend (args : list PyVal) : M Backend :=
  w <- get ;;
  match backend_stack w with
  | b :: _ => ret b
  | [] =>
      match _determine_backend_from_args (registry w) args with
      | Some b => ret b
      | None =>
          match lookup_backend (implicit_backend w) (registry w) with
          | Some b => ret b
          | None => raise (BackendNotFoundError (implicit_backend w))
          end
      end
  end.

(** The string of the backend on top of the stack, empty when nothing
    was pushed. *)
Definition active_backend_str (w : World) : string :=
  match backend_stack w with
  | b :: _ => backend_str b
  | [] => ""
  end.

(** Modelled from the spec: the ivy-level [current_backend_str] is missing
    from the sources.  It is the string of the backend on top of the stack;
    [Array.__repr__] reads [self.backend == ""] as "the array was
    constructed using implicit backend", i.e. with nothing on the stack. *)
Definition current_backend_str : M string :=
  w <- get ;; ret (active_backend_str w).

(** [ivy.is_native_array(x)]: the test of the resolved backend, which is
    an [isinstance] against its tensor class (backends/paddle/general.py,
    [is_native_array] with [exclusive=False]). *)
Definition is_native_array (x : PyVal) : M bool :=
  match x with
  | PTensor t =>
      b <- current_backend [x] ;;
      ret (String.eqb (t_lib t) (backend_str b))
  | _ => ret false
  end.

(** [isinstance(data, np.ndarray)]. *)
Definition is_ndarray (x : PyVal) : bool :=
  match x with
  | PTensor t => String.eqb (t_lib t) "numpy"
  | _ => false
  end.

(* ================================================================== *)
(** ** The Array wrapper (ivy/data_classes/array/array.py) *)
(* ================================================================== *)

(** The state of a method call: the receiver and the process state. *)
Record Frame : Type := mkFrame {
  self : Array;
  world : World
}.

Definition Meth : Type -> Type := @ST Frame.

(** A process-level call made from inside a method. *)
Definition liftW {A} (m : M A) : Meth A :=
  fun s =>
    match m (world s) with
    | (r, w1, ev) => (r, {| self := self s; world := w1 |}, ev)
    end.

(** A method called on another object [obj]: the caller gets the value
    and the object as the method left it. *)
Definition call_on {A} (obj : Array) (m : Meth A) : M (A * Array) :=
  fun w =>
    match m {| self := obj; world := w |} with
    | (inr a, s1, ev) => (inr (a, self s1), world s1, ev)
    | (inl e, s1, ev) => (inl e, world s1, ev)
    end.

(** Reading the receiver, and an attribute assignment [self.x = v]. *)
Definition this : Meth Array := s <- get ;; ret (self s).

Definition assign (f : Array -> Array) : Meth unit :=
  s <- get ;; put {| self := f (self s); world := world s |}.

Definition set__data (v : NativeArray) (a : Array) : Array :=
  mkArray v (_size a) (_strides a) (_itemsize a) (_dtype a) (_device a)
    (_dev_str a) (_pre_repr a) (_post_repr a) (backend a)
    (_dynamic_backend a) (weak_type a) (_backend a) (_base a) (_view_refs a)
    (_manipulation_stack a).

Definition set__size (v : option Z) (a : Array) : Array :=
  mkArray (_data a) v (_strides a) (_itemsize a) (_dtype a) (_device a)
    (_dev_str a) (_pre_repr a) (_post_repr a) (backend a)
    (_dynamic_backend a) (weak_type a) (_backend a) (_base a) (_view_refs a)
    (_manipulation_stack a).

Definition set__strides (v : option (list Z)) (a : Array) : Array :=
  mkArray (_data a) (_size a) v (_itemsize a) (_dtype a) (_device a)
    (_dev_str a) (_pre_repr a) (_post_repr a) (backend a)
    (_dynamic_backend a) (weak_type a) (_backend a) (_base a) (_view_refs a)
    (_manipulation_stack a).

Definition set__itemsize (v : option Z) (a : Array) : Array :=
  mkArray (_data a) (_size a) (_strides a) v (_dtype a) (_device a)
    (_dev_str a) (_pre_repr a) (_post_repr a) (backend a)
    (_dynamic_backend a) (weak_type a) (_backend a) (_base a) (_view_refs a)
    (_manipulation_stack a).

Definition set__dtype (v : option Dtype) (a : Array) : Array :=
  mkArray (_data a) (_size a) (_strides a) (_itemsize a) v (_device a)
    (_dev_str a) (_pre_repr a) (_post_repr a) (backend a)
    (_dynamic_backend a) (weak_type a) (_backend a) (_base a) (_view_refs a)
    (_manipulation_stack a).

Definition set__device (v : option string) (a : Array) : Array :=
  mkArray (_data a) (_size a) (_strides a) (_itemsize a) (_dtype a) v
    (_dev_str a) (_pre_repr a) (_post_repr a) (backend a)
    (_dynamic_backend a) (weak_type a) (_backend a) (_base a) (_view_refs a)
    (_manipulation_stack a).

Definition set__repr (dev pre post : option string) (a : Array) : Array :=
  mkArray (_data a) (_size a) (_strides a) (_itemsize a) (_dtype a) (_device a)
    dev pre post (backend a)
    (_dynamic_backend a) (weak_type a) (_backend a) (_base a) (_view_refs a)
    (_manipulation_stack a).

Definition set_backend_attr (v : string) (a : Array) : Array :=
  mkArray (_data a) (_size a) (_strides a) (_itemsize a) (_dtype a) (_device a)
    (_dev_str a) (_pre_repr a) (_post_repr a) v
    (_dynamic_backend a) (weak_type a) (_backend a) (_base a) (_view_refs a)
    (_manipulation_stack a).

Definition set__dynamic_backend (v : bool) (a : Array) : Array :=
  mkArray (_data a) (_size a) (_strides a) (_itemsize a) (_dtype a) (_device a)
    (_dev_str a) (_pre_repr a) (_post_repr a) (backend a)
    v (weak_type a) (_backend a) (_base a) (_view_refs a)
    (_manipulation_stack a).

Definition set_weak_type (v : bool) (a : Array) : Array :=
  mkArray (_data a) (_size a) (_strides a) (_itemsize a) (_dtype a) (_device a)
    (_dev_str a) (_pre_repr a) (_post_repr a) (backend a)
    (_dynamic_backend a) v (_backend a) (_base a) (_view_refs a)
    (_manipulation_stack a).

Definition set__backend (v : Attr (option Backend)) (a : Array) : Array :=
  mkArray (_data a) (_size a) (_strides a) (_itemsize a) (_dtype a) (_device a)
    (_dev_str a) (_pre_repr a) (_post_repr a) (backend a)
    (_dynamic_backend a) (weak_type a) v (_base a) (_view_refs a)
    (_manipulation_stack a).

Definition set_view (b : option NativeArray) (refs : list NativeArray)
    (stack : list string) (a : Array) : Array :=
  mkArray (_data a) (_size a) (_strides a) (_itemsize a) (_dtype a) (_device a)
    (_dev_str a) (_pre_repr a) (_post_repr a) (backend a)
    (_dynamic_backend a) (weak_type a) (_backend a) b refs stack.

(** Modelled from the spec: [ivy.asarray] is missing from the sources;
    each backend exposes "tensor construction from host data".  This is
    the [_data] of [ivy.asarray(data)]: the payload under the resolved
    backend's tensor class. *)
Definition asarray_data (t : NativeArray) : M NativeArray :=
  b <- current_backend [PTensor t] ;;
  ret (mkNative (backend_str b) (t_shape t) (t_dtype t) (t_device t)
         (t_elems t) false).

(** [Array._init], lines 140-164.  The three tests on [data] are
    [ivy.is_ivy_array] (an [Array] instance), [ivy.is_native_array] and
    [isinstance(data, np.ndarray)], in that order. *)
Definition _init (data : PyVal) (dynamic_backend : option bool) : Meth unit :=
  match data with
  | PArr a => assign (set__data (_data a))
  | PTensor t =>
      native <- liftW (is_native_array data) ;;
      if native then assign (set__data t)
      else if is_ndarray data then
        d <- liftW (asarray_data t) ;; assign (set__data d)
      else raise (IvyException "data must be ivy array, native array or ndarray")
  | _ => raise (IvyException "data must be ivy array, native array or ndarray")
  end ;;;
  assign (set__size None) ;;;
  assign (set__strides None) ;;;
  assign (set__itemsize None) ;;;
  assign (set__dtype None) ;;;
  assign (set__device None) ;;;
  assign (set__repr None None None) ;;;
  bs <- liftW current_backend_str ;;
  assign (set_backend_attr bs) ;;;
  match dynamic_backend with
  | Some v => assign (set__dynamic_backend v)
  | None =>
      s <- get ;;
      assign (set__dynamic_backend (ivy_dynamic_backend (world s)))
  end ;;;
  assign (set_weak_type false).

(** [Array._view_attributes], lines 166-172 (the three [_torch_*]
    attributes are assigned alike and are read by nothing below). *)
Definition _view_attributes (data : PyVal) : Meth unit :=
  assign (set_view None [] []).

(** The object [__init__] starts from: no instance attribute is assigned
    yet, and none of the placeholders below is read before [_init] and
    [_view_attributes] overwrite it; [_backend] is not assigned by
    either. *)
Definition blank : Array :=
  mkArray (mkNative "" [] int8 "" [] false) None None None None None None None
    None "" false false Unset None [] [].

(** [Array.__init__], lines 97-138. *)
Definition __init__ (data : PyVal) (dynamic_backend : option bool) : Meth unit :=
  _init data dynamic_backend ;;;
  _view_attributes data.

(** The constructor call [ivy.Array(data, dynamic_backend)]. *)
Definition Array_new (data : PyVal) (dynamic_backend : option bool) : M Array :=
  r <- call_on blank (__init__ data dynamic_backend) ;;
  ret (snd r).

(** *** Derived metadata *)

(** Modelled from the spec: [ivy.dtype] is missing from the sources; like
    the other introspection primitives it delegates to the backend's
    introspection of the native tensor.  Each delegation is recorded. *)
Definition ivy_dtype (t : NativeArray) : M Dtype :=
  emit (Introspect FDtype t) ;;; ret (t_dtype t).

(** Modelled from the spec: [ivy.dev] is missing from the sources; the
    device the backend reports for the tensor. *)
Definition ivy_dev (t : NativeArray) : M string :=
  emit (Introspect FDevice t) ;;; ret (t_device t).

(** Modelled from the spec: [ivy.itemsize] is missing from the sources;
    the width of the element type in bytes. *)
Definition ivy_itemsize (t : NativeArray) : M Z :=
  emit (Introspect FItemsize t) ;;; ret (dtype_bits (t_dtype t) / 8).

(** Row-major strides, in bytes, of a tensor of the given shape. *)
Fixpoint contiguous_strides (item : Z) (shape : list Z) : list Z :=
  match shape with
  | [] => []
  | _ :: rest => fold_right Z.mul item rest :: contiguous_strides item rest
  end.

(** Modelled from the spec: [ivy.strides] is missing from the sources;
    the byte strides of a contiguous row-major tensor. *)
Definition ivy_strides (t : NativeArray) : M (list Z) :=
  emit (Introspect FStrides t) ;;;
  ret (contiguous_strides (dtype_bits (t_dtype t) / 8) (t_shape t)).

(** [functools.reduce(function, iterable)] without initial value. *)
Definition functools_reduce {S} (f : Z -> Z -> Z) (l : list Z) : @ST S Z :=
  match l with
  | [] => raise TypeError
  | x :: rest => ret (fold_left f rest x)
  end.

(** The [data] property, lines 209-212. *)
Definition data : Meth NativeArray := a <- this ;; ret (_data a).

(** The [dtype] property, lines 214-219. *)
Definition dtype : Meth (option Dtype) :=
  a <- this ;;
  match _dtype a with
  | None => d <- liftW (ivy_dtype (_data a)) ;; assign (set__dtype (Some d))
  | Some _ => ret tt
  end ;;;
  a <- this ;; ret (_dtype a).

(** The [device] property, lines 221-226. *)
Definition device : Meth (option string) :=
  a <- this ;;
  match _device a with
  | None => d <- liftW (ivy_dev (_data a)) ;; assign (set__device (Some d))
  | Some _ => ret tt
  end ;;;
  a <- this ;; ret (_device a).

(** The [shape] property, lines 251-254: [ivy.Shape(self._data.shape)],
    with no cache attribute. *)
Definition shape : Meth (list Z) :=
  a <- this ;;
  liftW (emit (Introspect FShape (_data a))) ;;;
  ret (t_shape (_data a)).

(** The [size] property, lines 256-265. *)
Definition size : Meth (option Z) :=
  a <- this ;;
  match _size a with
  | None =>
      liftW (emit (Introspect FSize (_data a))) ;;;
      n <- (if 0 <? Z.of_nat (List.length (t_shape (_data a)))
            then functools_reduce Z.mul (t_shape (_data a))
            else ret 0) ;;
      assign (set__size (Some n))
  | Some _ => ret tt
  end ;;;
  a <- this ;; ret (_size a).

(** The [itemsize] property, lines 267-272. *)
Definition itemsize : Meth (option Z) :=
  a <- this ;;
  match _itemsize a with
  | None => n <- liftW (ivy_itemsize (_data a)) ;; assign (set__itemsize (Some n))
  | Some _ => ret tt
  end ;;;
  a <- this ;; ret (_itemsize a).

(** The [strides] property, lines 274-279. *)
Definition strides : Meth (option (list Z)) :=
  a <- this ;;
  match _strides a with
  | None => l <- liftW (ivy_strides (_data a)) ;; assign (set__strides (Some l))
  | Some _ => ret tt
  end ;;;
  a <- this ;; ret (_strides a).

(** What a metadata property returns, by field. *)
Inductive MetaVal : Type :=
| MDtype (v : option Dtype)
| MDevice (v : option string)
| MShape (v : list Z)
| MSize (v : option Z)
| MItemsize (v : option Z)
| MStrides (v : option (list Z)).

Definition read_field (f : Field) : Meth MetaVal :=
  match f with
  | FDtype => v <- dtype ;; ret (MDtype v)
  | FDevice => v <- device ;; ret (MDevice v)
  | FShape => v <- shape ;; ret (MShape v)
  | FSize => v <- size ;; ret (MSize v)
  | FItemsize => v <- itemsize ;; ret (MItemsize v)
  | FStrides => v <- strides ;; ret (MStrides v)
  end.

(** Modelled from the spec: [ivy.utils.assertions.check_true] is missing
    from the sources; a failed check is an [IvyException] with the given
    message. *)
Definition check_true {S} (b : bool) (msg : string) : @ST S unit :=
  if b then ret tt else raise (IvyException msg).

(** The [data] setter, lines 303-308. *)
Definition data_setter (v : PyVal) : Meth unit :=
  ok <- liftW (is_native_array v) ;;
  check_true ok "data must be native array" ;;;
  _init v None.

(** *** Conversions and construction *)

(** Modelled from the spec: [to_ivy] of data_classes/array/conversions.py is
    missing from the sources.  Output wrapping: "wrap every native result
    back into an Array"; a value that is not a native tensor of the
    resolved backend is returned as it is. *)
Definition to_ivy (x : PyVal) : M PyVal :=
  native <- is_native_array x ;;
  if native then a <- Array_new x None ;; ret (PArr a) else ret x.

(** Modelled from the spec: [ivy.array] is missing from the sources;
    "tensor construction from host data": the payload is materialised as
    a tensor of the resolved backend and wrapped. *)
Definition ivy_array (x : PyVal) : M Array :=
  match x with
  | PTensor t =>
      d <- asarray_data t ;; Array_new (PTensor d) None
  | PArr a =>
      d <- asarray_data (_data a) ;; Array_new (PTensor d) None
  | PScalar z =>
      d <- asarray_data (mkNative "" [] int32 "cpu" [z] false) ;;
      Array_new (PTensor d) None
  | _ => raise TypeError
  end.

(** *** Dynamic backend *)

(** Modelled from the spec: [is_variable] of a backend module is missing
    from the sources; whether the tensor is a "backend-tracked
    variable/gradient-enabled tensor". *)
Definition is_variable (b : Backend) (t : NativeArray) : bool := t_grad t.

(** Modelled from the spec: [variable_data] of a backend module is missing
    from the sources; "the plain numeric buffer" behind a tracked value. *)
Definition variable_data (b : Backend) (t : NativeArray) : NativeArray :=
  mkNative (t_lib t) (t_shape t) (t_dtype t) (t_device t) (t_elems t) false.

(** Modelled from the spec: [to_numpy] of a backend module (only paddle's
    is among the sources); the "detach to host representation" step,
    which keeps shape, element type and values. *)
Definition to_numpy (b : Backend) (t : NativeArray) : NativeArray :=
  mkNative "numpy" (t_shape t) (t_dtype t) (t_device t) (t_elems t) false.

(** Whether a backend has tracked variables: the [dynamic_backend]
    setter, lines 194-197, treats jax and numpy as having none. *)
Definition has_variables (b : Backend) : bool :=
  negb (String.eqb (backend_str b) "jax" || String.eqb (backend_str b) "numpy").

(** Modelled from the spec: [_variable] of ivy/functional/ivy/gradients.py
    is missing from the sources; it makes the array a tracked variable of
    the current backend, when that backend has tracked variables. *)
Definition _variable (x : Array) : M Array :=
  let t := _data x in
  b <- current_backend [PArr x] ;;
  Array_new
    (PTensor (mkNative (t_lib t) (t_shape t) (t_dtype t) (t_device t) (t_elems t)
                (has_variables b)))
    None.

(** [str(module)] of a backend module. *)
Definition module_str (b : Backend) : string :=
  "<module 'ivy.functional.backends." ++ backend_str b ++ "'>".

(** [hay.__contains__(needle)] on strings. *)
Fixpoint contains (needle hay : string) : bool :=
  String.prefix needle hay ||
  match hay with
  | EmptyString => false
  | String _ rest => contains needle rest
  end.

(** The attributes a native tensor answers to.  No tensor class of the
    supported libraries has an attribute [_backend]. *)
Definition native_getattribute (t : NativeArray) (item : string) : option PyVal :=
  if String.eqb item "ndim" then Some (PScalar (Z.of_nat (List.length (t_shape t))))
  else None.

(** [Array.__getattr__], lines 391-396: called when the instance has no
    attribute [item]; both lookups on the native tensor raise
    [AttributeError] when it has none either. *)
Definition __getattr__ (item : string) : Meth PyVal :=
  a <- this ;;
  match native_getattribute (_data a) item with
  | Some attr => liftW (to_ivy attr)
  | None => raise (AttributeError item)
  end.

(** The expression [self._backend.<name>]: the instance attribute when
    it is bound, [__getattr__] otherwise; [None] and the values
    [__getattr__] can return have no attribute [name]. *)
Definition self__backend_attr (name : string) : Meth Backend :=
  a <- this ;;
  match _backend a with
  | Bound (Some b) => ret b
  | Bound None => raise (AttributeError name)
  | Unset => __getattr__ "_backend" ;;; raise (AttributeError name)
  end.

(** The [dynamic_backend] property and its setter, lines 177-207. *)
Definition dynamic_backend : Meth bool := a <- this ;; ret (_dynamic_backend a).

Definition dynamic_backend_setter (value : bool) : Meth unit :=
  (if negb value then
     s <- get ;;
     assign (set__backend
               (Bound (_determine_backend_from_args (registry (world s)) [PArr (self s)])))
   else
     b_is_variable <- self__backend_attr "is_variable" ;;
     b_to_numpy <- self__backend_attr "to_numpy" ;;
     b_variable_data <- self__backend_attr "variable_data" ;;
     d <- data ;;
     let str_backend := module_str b_is_variable in
     if is_variable b_is_variable d
        && negb (contains "jax" str_backend || contains "numpy" str_backend)
     then
       d <- data ;;
       let native_data := variable_data b_variable_data d in
       let np_data := to_numpy b_to_numpy native_data in
       new_arr <- liftW (ivy_array (PTensor np_data)) ;;
       v <- liftW (_variable new_arr) ;;
       assign (set__data (_data v))
     else
       d <- data ;;
       let np_data := to_numpy b_to_numpy d in
       r <- liftW (ivy_array (PTensor np_data)) ;;
       assign (set__data (_data r))) ;;;
  assign (set__dynamic_backend value).

(** *** Indexing *)

Definition prod (l : list Z) : Z := fold_right Z.mul 1 l.

(** Python's normalisation of a slice bound against a length [n]. *)
Definition clamp (n i : Z) : Z :=
  let j := if i <? 0 then i + n else i in
  Z.max 0 (Z.min n j).

(** The rows of the leading axis (of length [n]) a query selects, and
    whether the axis remains in the result. *)
Definition select_rows (n : Z) (q : Query) : Exc + (list Z * bool) :=
  match q with
  | QInt i =>
      if (- n <=? i) && (i <? n)
      then inr ([if i <? 0 then i + n else i], false)
      else inl IndexError
  | QSlice a b =>
      let lo := clamp n a in
      let hi := clamp n b in
      inr (map Z.of_nat (seq (Z.to_nat lo) (Z.to_nat (hi - lo))), true)
  | QEllipsis => inr (map Z.of_nat (seq 0 (Z.to_nat n)), true)
  end.

(** The row-major positions a query selects in a tensor of the given
    shape, and the shape of the selected region. *)
Definition positions (shp : list Z) (q : Query) : Exc + (list nat * list Z) :=
  match shp with
  | [] =>
      match q with
      | QEllipsis => inr ([0%nat], [])
      | _ => inl IndexError
      end
  | n :: rest =>
      match select_rows n q with
      | inl e => inl e
      | inr (rows, keep) =>
          let row := Z.to_nat (prod rest) in
          inr (flat_map (fun r => seq (Z.to_nat r * row) row) rows,
               if keep then Z.of_nat (List.length rows) :: rest else rest)
      end
  end.

(** Modelled from the spec: the backend's "indexed get" (the ivy-level
    [ivy.get_item] is missing from the sources): the selected region as a
    tensor of the same library. *)
Definition get_item (t : NativeArray) (q : Query) : M PyVal :=
  match positions (t_shape t) q with
  | inl e => raise e
  | inr (ps, shp) =>
      to_ivy (PTensor (mkNative (t_lib t) shp (t_dtype t) (t_device t)
                         (map (fun p => nth p (t_elems t) 0) ps) (t_grad t)))
  end.

(** Modelled from the spec: [handle_view_indexing] of ivy/func_wrapper.py
    is missing from the sources.  View semantics: "tag the result Array's
    base as the operand, append a description of the transform to the
    result's manipulation_stack, and append the result to the operand's
    view_refs". *)
Definition handle_view_indexing (fn : Query -> Meth PyVal) (query : Query)
  : Meth PyVal :=
  r <- fn query ;;
  match r with
  | PArr v =>
      a <- this ;;
      assign (set_view (_base a) (_view_refs a ++ [_data v]) (_manipulation_stack a)) ;;;
      ret (PArr (set_view (Some (_data a)) (_view_refs v)
                   (_manipulation_stack v ++ ["get_item"]) v))
  | _ => ret r
  end.

(** [Array.__getitem__], lines 398-400. *)
Definition __getitem__ : Query -> Meth PyVal :=
  handle_view_indexing
    (fun query => a <- this ;; liftW (get_item (_data a) query)).

(** Modelled from the spec: [ivy.isscalar] is missing from the sources; a
    "scalar val" is a plain Python number, never a tensor or an Array. *)
Definition isscalar (x : PyVal) : bool :=
  match x with PScalar _ => true | _ => false end.

(** Modelled from the spec: [ivy.ones_like(target) * val] for a Python
    number [val]: a tensor of the shape of [target] whose every element is
    [1 * val], wrapped like any primitive's output. *)
Definition ones_like_times (target : PyVal) (val : PyVal) : M PyVal :=
  match target, val with
  | PArr a, PScalar z =>
      let t := _data a in
      to_ivy (PTensor (mkNative (t_lib t) (t_shape t) (t_dtype t) (t_device t)
                         (map (fun _ => 1 * z) (t_elems t)) false))
  | PTensor t, PScalar z =>
      to_ivy (PTensor (mkNative (t_lib t) (t_shape t) (t_dtype t) (t_device t)
                         (map (fun _ => 1 * z) (t_elems t)) false))
  | _, _ => raise TypeError
  end.

(** The numeric payload of an update value, and its broadcast to a
    region of [n] elements. *)
Definition payload (v : PyVal) : Exc + list Z :=
  match v with
  | PScalar z => inr [z]
  | PArr a => inr (t_elems (_data a))
  | PTensor t => inr (t_elems t)
  | _ => inl TypeError
  end.

Definition broadcast_to (n : nat) (vs : list Z) : Exc + list Z :=
  if Nat.eqb (List.length vs) n then inr vs
  else match vs with
       | [z] => inr (repeat z n)
       | _ => inl ValueError
       end.

Definition update_dtype (v : PyVal) : option Dtype :=
  match v with
  | PArr a => Some (t_dtype (_data a))
  | PTensor t => Some (t_dtype t)
  | _ => None
  end.

(** One in-place store [l[i] = v]. *)
Fixpoint store (i : nat) (v : Z) (l : list Z) : list Z :=
  match l, i with
  | [], _ => []
  | _ :: rest, O => v :: rest
  | x :: rest, S j => x :: store j v rest
  end.

(** In-place stores, one selected position after the other. *)
Definition write_all (ps : list nat) (vs : list Z) (l : list Z) : list Z :=
  fold_left (fun acc pv => store (fst pv) (snd pv) acc) (combine ps vs) l.

(** The update of position [i] in a scatter: the last update aimed at it. *)
Fixpoint last_update (i : nat) (pvs : list (nat * Z)) : option Z :=
  match pvs with
  | [] => None
  | (p, v) :: rest =>
      match last_update i rest with
      | Some u => Some u
      | None => if Nat.eqb p i then Some v else None
      end
  end.

(** The full tensor rebuilt position by position. *)
Definition rebuild (ps : list nat) (vs : list Z) (l : list Z) : list Z :=
  map (fun i => match last_update i (combine ps vs) with
                | Some u => u
                | None => nth i l 0
                end)
      (seq 0 (List.length l)).

(** A number cast to a signed element type: the value modulo two to the
    width, in the range of the type. *)
Definition cast_to (d : Dtype) (z : Z) : Z :=
  let m := 2 ^ dtype_bits d in
  (z + m / 2) mod m - m / 2.

(** Whether an assigned value is attached to a gradient graph. *)
Definition tracked (v : PyVal) : bool :=
  match v with
  | PArr a => t_grad (_data a)
  | PTensor t => t_grad t
  | _ => false
  end.

(** Modelled from the spec: the "native indexed-assignment primitive",
    the method [__setitem__] of the tensor's own class.  It stores into
    the tensor in place and keeps its element type, to which it casts the
    values stored ("coerce val to the dtype ... compatible with the
    selected region"); storing a value that is attached to a gradient
    graph attaches the tensor to it; it raises when the tensor's library
    has no native in-place support, when the query selects nothing
    valid, or when the value does not broadcast to the selected
    region. *)
Definition native_store (reg : list Backend) (t : NativeArray) (q : Query)
    (v : PyVal) : Exc + NativeArray :=
  match lookup_backend (t_lib t) reg with
  | Some b =>
      if native_inplace b then
        match positions (t_shape t) q with
        | inl e => inl e
        | inr (ps, _) =>
            match payload v with
            | inl e => inl e
            | inr raw =>
                match broadcast_to (List.length ps) raw with
                | inl e => inl e
                | inr vs =>
                    inr (mkNative (t_lib t) (t_shape t) (t_dtype t) (t_device t)
                           (write_all ps (map (cast_to (t_dtype t)) vs) (t_elems t))
                           (t_grad t || tracked v))
                end
            end
        end
      else inl TypeError
  | None => inl TypeError
  end.

(** The call [self._data.__setitem__(query, val)]: the attempt is
    recorded, then the store above is made or raises. *)
Definition native_setitem (t : NativeArray) (q : Query) (v : PyVal)
  : M NativeArray :=
  emit (NativeSetitem t q v) ;;;
  w <- get ;;
  match native_store (registry w) t q v with
  | inl e => raise e
  | inr t' => ret t'
  end.

(** The element type of a scatter's result, as [scatter_nd] of
    backends/paddle/general.py fixes it: the target is cast to the element
    type of the updates when that one is wider. *)
Definition scatter_dtype (out : Dtype) (v : PyVal) : Dtype :=
  match update_dtype v with
  | Some d => if dtype_bits out <? dtype_bits d then d else out
  | None => out
  end.

(** Modelled from the spec: "a scatter-based replace-at-indices primitive
    that reconstructs the full tensor", in the element type above, to
    which the updates are cast. *)
Definition scatter_replace (t : NativeArray) (q : Query) (v : PyVal)
  : Exc + NativeArray :=
  match positions (t_shape t) q with
  | inl e => inl e
  | inr (ps, _) =>
      match payload v with
      | inl e => inl e
      | inr raw =>
          match broadcast_to (List.length ps) raw with
          | inl e => inl e
          | inr vs =>
              inr (mkNative (t_lib t) (t_shape t)
                     (scatter_dtype (t_dtype t) v) (t_device t)
                     (rebuild ps (map (cast_to (scatter_dtype (t_dtype t) v)) vs)
                        (t_elems t))
                     (t_grad t || tracked v))
          end
      end
  end.

(** Modelled from the spec: [ivy.scatter_nd(indices, updates,
    reduction="replace", out=self)]; the ivy-level function and its
    out-argument wrapper are missing from the sources.  With an [out]
    target it must "copy the result into out's storage in place,
    returning out itself", which for an Array goes through its [data]
    property ([inplace_update] of backends/paddle/general.py:
    [x.data = x_native]). *)
Definition ivy_scatter_nd (q : Query) (v : PyVal) : Meth Array :=
  a <- this ;;
  liftW (emit (ScatterNd q v (_data a))) ;;;
  match scatter_replace (_data a) q v with
  | inl e => raise e
  | inr t' => data_setter (PTensor t') ;;; this
  end.

(** The expression [t.detach()].  The tensors of torch and of paddle
    have the method, which gives the same payload off the gradient graph;
    those of numpy, jax and tensorflow have no such attribute, and the
    lookup raises [AttributeError]. *)
Definition detach (t : NativeArray) : Exc + NativeArray :=
  if String.eqb (t_lib t) "torch" || String.eqb (t_lib t) "paddle"
  then inr (mkNative (t_lib t) (t_shape t) (t_dtype t) (t_device t)
              (t_elems t) false)
  else inl (AttributeError "detach").

(** [Array.__setitem__], lines 405-414: what follows the detach. *)
Definition setitem_write (query : Query) (val : PyVal) : Meth unit :=
  val <- (match val with
          | PArr v => vd <- liftW (call_on v data) ;; ret (PTensor (fst vd))
          | _ => ret val
          end) ;;
  target <- __getitem__ query ;;
  val <- (if negb (isscalar target) && isscalar val
          then liftW (ones_like_times target val)
          else ret val) ;;
  try_except
    (a <- this ;;
     d <- liftW (native_setitem (_data a) query val) ;;
     assign (set__data d))
    (fun _ =>
       r <- ivy_scatter_nd query val ;;
       assign (set__data (_data r)) ;;;
       a <- this ;;
       dt <- liftW (ivy_dtype (_data a)) ;;
       assign (set__dtype (Some dt))).

(** [Array.__setitem__], lines 402-414. *)
Definition __setitem__ (query : Query) (val : PyVal) : Meth unit :=
  bs <- liftW current_backend_str ;;
  (if String.eqb bs "torch" then
     a <- this ;;
     match detach (_data a) with
     | inl e => raise e
     | inr d => assign (set__data d)
     end
   else ret tt) ;;;
  setitem_write query val.

(** *** Pickling *)

(** The mapping [__getstate__] returns. *)
Record PickleState : Type := mkState {
  state_data : NativeArray;
  state_backend : option string;
  state_device_str : option string
}.

(** [Array.__getstate__], lines 419-429 ([ivy.as_ivy_dev] leaves a device
    string as it is). *)
Definition __getstate__ : Meth PickleState :=
  d <- data ;;
  a <- this ;;
  dev <- device ;;
  ret (mkState d (Some (backend a)) dev).

(** [Array.__setstate__], lines 431-444. *)
Definition __setstate__ (state : PickleState) : Meth unit :=
  match state_backend state with
  | Some name =>
      if 0 <? Z.of_nat (String.length name)
      then liftW (set_backend name)
      else liftW (current_backend [PTensor (state_data state)]) ;;; ret tt
  | None => liftW (current_backend [PTensor (state_data state)]) ;;; ret tt
  end ;;;
  ivy_array_ <- liftW (ivy_array (PTensor (state_data state))) ;;
  liftW previous_backend ;;;
  s <- get ;;
  put {| self := ivy_array_; world := world s |}.

(* ================================================================== *)
(** ** The Container multi-map *)
(* ================================================================== *)

Definition is_ivy_container (x : PyVal) : bool :=
  match x with PCont _ => true | _ => false end.

(** [container[key]]: the first item stored under the key. *)
Fixpoint cont_lookup (key : string) (c : Container) : option PyVal :=
  match c with
  | CEmpty => None
  | CItem k v rest => if String.eqb k key then Some v else cont_lookup key rest
  end.

Fixpoint cont_keys (c : Container) : list string :=
  match c with
  | CEmpty => []
  | CItem k _ rest => k :: cont_keys rest
  end.

(** Modelled from the spec: part of the multi-map.  The value each
    argument contributes under a key: a Container contributes its item,
    any other argument is passed as it is.  A key that one of the
    Containers lacks is not walked (key paths are "intersected across
    multiple Container arguments"). *)
Fixpoint values_at (key : string) (args : list PyVal) : option (list PyVal) :=
  match args with
  | [] => Some []
  | PCont c :: rest =>
      match cont_lookup key c, values_at key rest with
      | Some v, Some vs => Some (v :: vs)
      | _, _ => None
      end
  | x :: rest =>
      match values_at key rest with
      | Some vs => Some (x :: vs)
      | None => None
      end
  end.

Definition join_key_chain (key_chain key : string) : string :=
  if String.eqb key_chain "" then key else key_chain ++ "/" ++ key.

(** Modelled from the spec: part of the multi-map.  Whether the operation
    is applied at a leaf path: everywhere without [key_chains]; with
    them, on the listed paths when [to_apply], and "key_chains with
    to_apply=False inverts the filter". *)
Definition applies_at (key_chains : option (list string)) (to_apply : bool)
    (path : string) : bool :=
  match key_chains with
  | None => true
  | Some chains =>
      if existsb (String.eqb path) chains then to_apply else negb to_apply
  end.

Section MultiMap.
Variable op : list PyVal -> string -> M PyVal.
Variable key_chains : option (list string).
Variable to_apply : bool.
Variable prune_unapplied : bool.

(** Modelled from the spec: [ContainerBase.cont_multi_map] is missing from
    the sources.  It "walks ... key paths across the supplied Containers
    in a deterministic order (insertion order at each level), and at
    each leaf path invokes op with the corresponding leaf from each
    Container", returns "a new Container with the same key structure as
    the input(s), minus any pruned paths", and "if op raises for one
    leaf, the whole multi-map fails".  The walk follows the first
    Container, [skeleton]. *)
Fixpoint cont_multi_map_on (skeleton : Container) (args : list PyVal)
    (key_chain : string) {struct skeleton} : M Container :=
  match skeleton with
  | CEmpty => ret CEmpty
  | CItem key v0 rest =>
      let this_key_chain := join_key_chain key_chain key in
      match values_at key args with
      | None => cont_multi_map_on rest args key_chain
      | Some values =>
          r <- match v0 with
               | PCont sub =>
                   c <- cont_multi_map_on sub values this_key_chain ;;
                   ret (Some (PCont c))
               | _ =>
                   if applies_at key_chains to_apply this_key_chain
                   then v <- op values this_key_chain ;; ret (Some v)
                   else if prune_unapplied then ret None
                   else ret (Some v0)
               end ;;
          rest' <- cont_multi_map_on rest args key_chain ;;
          ret (match r with
               | Some v => CItem key v rest'
               | None => rest'
               end)
      end
  end.

(** The first Container among the arguments. *)
Definition first_container (args : list PyVal) : option Container :=
  match find is_ivy_container args with
  | Some (PCont c) => Some c
  | _ => None
  end.

(** Modelled from the spec: the multi-map over the arguments of a call,
    walked along the first Container among them. *)
Definition cont_multi_map (args : list PyVal) : M Container :=
  match first_container args with
  | Some c => cont_multi_map_on c args ""
  | None => ret CEmpty
  end.
End MultiMap.

(** Python passes objects by reference: the Containers live in an object
    store, a call receives addresses and returns the address of the
    Container it built. *)
Definition Store : Type := list Container.

Definition Refs : Type -> Type := @ST (Store * World).

Definition load (addr : nat) : Refs Container :=
  s <- get ;;
  match nth_error (fst s) addr with
  | Some c => ret c
  | None => raise (KeyError "")
  end.

Fixpoint load_all (addrs : list nat) : Refs (list PyVal) :=
  match addrs with
  | [] => ret []
  | a :: rest =>
      c <- load a ;;
      cs <- load_all rest ;;
      ret (PCont c :: cs)
  end.

Definition in_world {A} (m : M A) : Refs A :=
  fun s =>
    match m (snd s) with
    | (r, w1, ev) => (r, (fst s, w1), ev)
    end.

Definition allocate (c : Container) : Refs nat :=
  s <- get ;;
  put (fst s ++ [c], snd s) ;;;
  ret (List.length (fst s)).

(** Modelled from the spec: [multi_map(op, *containers, key_chains,
    to_apply, prune_unapplied)] on Container objects; it "returns a new
    Container". *)
Definition multi_map (op : list PyVal -> string -> M PyVal)
    (containers : list nat) (key_chains : option (list string))
    (to_apply prune_unapplied : bool) : Refs nat :=
  args <- load_all containers ;;
  r <- in_world (cont_multi_map op key_chains to_apply prune_unapplied args) ;;
  allocate r.

(** The keys of [b] agree with those of [a] at every level of [a]: the
    same keys in the same order, and a Container wherever [a] has one. *)
Fixpoint keys_agree (a b : Container) : Prop :=
  match a, b with
  | CEmpty, CEmpty => True
  | CItem k v rest, CItem k' v' rest' =>
      k = k' /\
      match v, v' with
      | PCont s, PCont s' => keys_agree s s'
      | PCont _, _ => False
      | _, _ => True
      end /\
      keys_agree rest rest'
  | _, _ => False
  end.

(** Identical key structure: the same keys at every level, Containers
    and leaves at the same paths. *)
Fixpoint same_structure (a b : Container) : Prop :=
  match a, b with
  | CEmpty, CEmpty => True
  | CItem k v rest, CItem k' v' rest' =>
      k = k' /\
      match v, v' with
      | PCont s, PCont s' => same_structure s s'
      | PCont _, _ => False
      | _, PCont _ => False
      | _, _ => True
      end /\
      same_structure rest rest'
  | _, _ => False
  end.

(** Every key the walk of [skeleton] meets is found in all the Container
    arguments, at every level. *)
Fixpoint covered (skeleton : Container) (args : list PyVal) : Prop :=
  match skeleton with
  | CEmpty => True
  | CItem key v0 rest =>
      match values_at key args with
      | Some values =>
          match v0 with
          | PCont sub => covered sub values
          | _ => True
          end
      | None => False
      end /\
      covered rest args
  end.

(** Keys are unique per level. *)
Fixpoint unique_keys (c : Container) : Prop :=
  match c with
  | CEmpty => True
  | CItem k v rest =>
      ~ In k (cont_keys rest) /\
      match v with PCont s => unique_keys s | _ => True end /\
      unique_keys rest
  end.

(* ================================================================== *)
(** ** The dispatch pipeline (ivy/functional/ivy/searching.py) *)
(* ================================================================== *)

(** A call of a primitive: its positional arguments, the [out] keyword,
    and the keywords that steer the recursion into Containers. *)
Record Call : Type := mkCall {
  call_args : list PyVal;
  call_out : option PyVal;
  call_key_chains : option (list string);
  call_to_apply : bool;
  call_prune_unapplied : bool
}.

Definition Fn : Type := Call -> M PyVal.

Definition plain_call (args : list PyVal) (out : option PyVal) : Call :=
  mkCall args out None true false.

Definition with_args (c : Call) (args : list PyVal) (out : option PyVal) : Call :=
  mkCall args out (call_key_chains c) (call_to_apply c) (call_prune_unapplied c).

(** Every value a call passes, the [out] target last. *)
Definition passed (c : Call) : list PyVal :=
  call_args c ++ match call_out c with Some o => [o] | None => [] end.

(** A list comprehension whose body may raise. *)
Fixpoint mapM {A B} (f : A -> M B) (l : list A) : M (list B) :=
  match l with
  | [] => ret []
  | x :: rest => y <- f x ;; ys <- mapM f rest ;; ret (y :: ys)
  end.

(** Modelled from the spec: [ivy.to_native] is missing from the sources;
    an Array is replaced by "its native handle", anything else is left
    as it is. *)
Definition to_native (x : PyVal) : PyVal :=
  match x with PArr a => PTensor (_data a) | _ => x end.

(** The shape of an array-valued argument. *)
Definition value_shape (x : PyVal) : option (list Z) :=
  match x with
  | PArr a => Some (t_shape (_data a))
  | PTensor t => Some (t_shape t)
  | _ => None
  end.

(** Equality of two shapes. *)
Definition shape_eqb (a b : list Z) : bool :=
  Nat.eqb (List.length a) (List.length b) &&
  forallb (fun p => fst p =? snd p) (combine a b).

Section Pipeline.
(** The implementation a backend module has for a named primitive. *)
Variable impl : Backend -> string -> list PyVal -> option PyVal -> Exc + PyVal.

(** The body of a primitive, e.g. [argmax], lines 117-124:
    [current_backend(x).argmax(x, ..., out=out)], the backend being
    resolved on the argument at position [pick]. *)
Definition backend_primitive (name : string) (pick : nat) : Fn :=
  fun c =>
    b <- current_backend (firstn 1 (skipn pick (call_args c))) ;;
    emit (BackendCall name (passed c)) ;;;
    match impl b name (call_args c) (call_out c) with
    | inl e => raise e
    | inr v => ret v
    end.

(** Modelled from the spec: [handle_array_function] of
    ivy/func_wrapper.py is missing from the sources.  It is the override
    protocol of foreign array types, not one of the seven layers of the
    Dispatch Pipeline, and changes no outcome on the values modelled. *)
Definition handle_array_function (fn : Fn) : Fn := fn.

(** Modelled from the spec: [handle_exceptions] of
    ivy/utils/exceptions.py is missing from the sources.  It re-raises
    what the wrapped function raises, and is not one of the seven
    layers. *)
Definition handle_exceptions (fn : Fn) : Fn :=
  fun c => try_except (fn c) (fun e => raise e).

(** Modelled from the spec: [to_native_arrays_and_back] of
    ivy/func_wrapper.py is missing from the sources.  Layers 4 and 6:
    "unwrap every Array argument to its native handle" and "wrap every
    native result back into an Array". *)
Definition to_native_arrays_and_back (fn : Fn) : Fn :=
  fun c =>
    r <- fn (with_args c (map to_native (call_args c))
               (option_map to_native (call_out c))) ;;
    to_ivy r.

(** Modelled from the spec: [handle_out_argument] of ivy/func_wrapper.py
    is missing from the sources.  Layer 7: with an [out] target, "if the backend natively supports
    writing into a pre-allocated buffer, pass the unwrapped out buffer
    through"; "otherwise perform the call normally and then copy the
    result into out's storage in place, returning out itself"; it
    "fails with ShapeMismatchError if out's shape is incompatible". *)
Definition handle_out_argument (fn : Fn) : Fn :=
  fun c =>
    match call_out c with
    | None => fn c
    | Some o =>
        b <- current_backend (call_args c) ;;
        r <- (if native_out b then fn c
              else fn (with_args c (call_args c) None)) ;;
        match o, value_shape o, value_shape r with
        | PArr oa, Some so, Some sr =>
            if shape_eqb so sr then
              o' <- call_on oa (data_setter (to_native r)) ;;
              ret (PArr (snd o'))
            else raise ShapeMismatchError
        | _, _, _ => raise ShapeMismatchError
        end
    end.

(** Modelled from the spec: [handle_array_like_without_promotion] of
    ivy/func_wrapper.py is missing from the sources.  Layer 1: "plain
    scalars/sequences passed where an array is expected are converted to
    Arrays". *)
Definition handle_array_like_without_promotion (fn : Fn) : Fn :=
  fun c =>
    args <- mapM (fun v => match v with
                           | PScalar _ => a <- ivy_array v ;; ret (PArr a)
                           | _ => ret v
                           end) (call_args c) ;;
    fn (with_args c args (call_out c)).

(** The call a leaf of the recursion makes: the values found under one
    key-chain, the last one being the [out] target when there is one. *)
Definition leaf_call (c : Call) (values : list PyVal) : Call :=
  match call_out c with
  | None => plain_call values None
  | Some _ => plain_call (removelast values) (Some (last values PNone))
  end.

(** Modelled from the spec: [handle_nestable] of ivy/func_wrapper.py is
    missing from the sources.  Layer 3: "if any positional/keyword
    argument is a Container, do not
    call the backend primitive directly; instead recurse: for every
    key-chain present in the Container(s) ..., re-invoke the full
    pipeline on the corresponding leaf values, collecting results into
    a new Container".  [pipeline] is the decorated function itself, as
    the Container method looks it up by name. *)
Definition handle_nestable (pipeline : Fn) (fn : Fn) : Fn :=
  fun c =>
    if existsb is_ivy_container (passed c) then
      r <- cont_multi_map (fun values _ => pipeline (leaf_call c values))
             (call_key_chains c) (call_to_apply c) (call_prune_unapplied c)
             (passed c) ;;
      ret (PCont r)
    else fn c.

(** The decorated primitives of searching.py.  Decorators apply from
    the bottom up, so the first one listed is the outermost; [fuel] is
    the interpreter's recursion limit. *)

(** [argmax], lines 22-124. *)
Fixpoint argmax (fuel : nat) : Fn :=
  match fuel with
  | O => fun _ => raise RecursionError
  | S n =>
      handle_exceptions
        (handle_nestable (argmax n)
           (handle_array_like_without_promotion
              (handle_out_argument
                 (to_native_arrays_and_back
                    (handle_array_function (backend_primitive "argmax" 0))))))
  end.

(** [argmin], lines 127-230. *)
Fixpoint argmin (fuel : nat) : Fn :=
  match fuel with
  | O => fun _ => raise RecursionError
  | S n =>
      handle_exceptions
        (handle_nestable (argmin n)
           (handle_array_like_without_promotion
              (handle_out_argument
                 (to_native_arrays_and_back
                    (handle_array_function (backend_primitive "argmin" 0))))))
  end.

(** [nonzero], lines 233-369: no [handle_out_argument]. *)
Fixpoint nonzero (fuel : nat) : Fn :=
  match fuel with
  | O => fun _ => raise RecursionError
  | S n =>
      handle_exceptions
        (handle_nestable (nonzero n)
           (handle_array_like_without_promotion
              (to_native_arrays_and_back
                 (handle_array_function (backend_primitive "nonzero" 0)))))
  end.

(** [where], lines 372-457: the backend is resolved on [x1]. *)
Fixpoint where_ (fuel : nat) : Fn :=
  match fuel with
  | O => fun _ => raise RecursionError
  | S n =>
      handle_exceptions
        (handle_nestable (where_ n)
           (handle_array_like_without_promotion
              (handle_out_argument
                 (to_native_arrays_and_back
                    (handle_array_function (backend_primitive "where" 1))))))
  end.

(** [argwhere], lines 464-531. *)
Fixpoint argwhere (fuel : nat) : Fn :=
  match fuel with
  | O => fun _ => raise RecursionError
  | S n =>
      handle_exceptions
        (handle_nestable (argwhere n)
           (handle_array_like_without_promotion
              (handle_out_argument
                 (to_native_arrays_and_back
                    (handle_array_function (backend_primitive "argwhere" 0))))))
  end.

(** The primitives the claim names, by name. *)
Definition searching (name : string) : option (nat -> Fn) :=
  if String.eqb name "argmax" then Some argmax
  else if String.eqb name "argmin" then Some argmin
  else if String.eqb name "nonzero" then Some nonzero
  else if String.eqb name "where" then Some where_
  else if String.eqb name "argwhere" then Some argwhere
  else None.
End Pipeline.





(** [_ContainerWithManipulationExperimental.static_moveaxis], lines
    22-86: [ContainerBase.cont_multi_map_in_function("moveaxis", a, source,
    destination, ...)], where [ivy_moveaxis] stands for the function the
    name is looked up to ([ivy.moveaxis] is missing from the sources). *)
Definition static_moveaxis (ivy_moveaxis : Fn) (a source destination : PyVal)
    (key_chains : option (list string)) (to_apply prune_unapplied : bool)
    (out : option PyVal) : M Container :=
  let c := mkCall [a; source; destination] out key_chains to_apply
             prune_unapplied in
  cont_multi_map (fun values _ => ivy_moveaxis (leaf_call c values))
    key_chains to_apply prune_unapplied (passed c).

(* ================================================================== *)
(** ** Concrete backends and inputs *)
(* ================================================================== *)

Definition numpy_backend : Backend := mkBackend "numpy" true true.
Definition torch_backend : Backend := mkBackend "torch" true true.
Definition jax_backend : Backend := mkBackend "jax" false false.
Definition tensorflow_backend : Backend := mkBackend "tensorflow" false false.
Definition paddle_backend : Backend := mkBackend "paddle" true false.

Definition all_backends : list Backend :=
  [numpy_backend; torch_backend; jax_backend; tensorflow_backend; paddle_backend].

(** A process in which the given backends have been set, the last one
    set first. *)
Definition world_with (st : list Backend) : World :=
  mkWorld st all_backends "numpy" true.

(** A one-dimensional tensor of a library. *)
Definition vector (lib : string) (l : list Z) : NativeArray :=
  mkNative lib [Z.of_nat (List.length l)] int32 "cpu" l false.

(** A zero-dimensional tensor of a library. *)
Definition zero_dim (lib : string) (z : Z) : NativeArray :=
  mkNative lib [] int32 "cpu" [z] false.

(** The mapping [__getstate__] returns for an Array, or an empty one
    when it raises. *)
Definition pickled (a : Array) (w : World) : PickleState :=
  match outcome (__getstate__ (mkFrame a w)) with
  | inr st => st
  | inl _ => mkState (_data blank) None None
  end.

(** Two Containers of identical key structure, one nested level deep. *)
Definition tree_a : Container :=
  CItem "a" (PTensor (vector "numpy" [1; 2; 3]))
    (CItem "b" (PCont (CItem "c" (PTensor (vector "numpy" [4; 5])) CEmpty))
       CEmpty).

Definition tree_b : Container :=
  CItem "a" (PTensor (vector "numpy" [7; 8; 9]))
    (CItem "b" (PCont (CItem "c" (PTensor (vector "numpy" [0; 1])) CEmpty))
       CEmpty).

(** An operation on leaves: it returns the leaf of the first Container. *)
Definition first_leaf (values : list PyVal) (path : string) : M PyVal :=
  match values with
  | v :: _ => ret v
  | [] => raise TypeError
  end.

(** A backend whose every primitive returns its first argument. *)
Definition echo_impl (b : Backend) (name : string) (args : list PyVal)
    (out : option PyVal) : Exc + PyVal :=
  match args with
  | x :: _ => inr x
  | [] => inl TypeError
  end.

(** An Array built by the constructor, or [blank] when it raises. *)
Definition built (v : PyVal) (dyn : option bool) (w : World) : Array :=
  match outcome (Array_new v dyn w) with
  | inr a => a
  | inl _ => blank
  end.

(** [ivy.array([1, 2, 3])] made while numpy is the active backend. *)
Definition numpy_array : Array :=
  built (PTensor (vector "numpy" [1; 2; 3])) None (world_with [numpy_backend]).

(** The same under torch, built with [dynamic_backend=False]. *)
Definition torch_array : Array :=
  built (PTensor (vector "torch" [1; 2; 3])) (Some false) (world_with [torch_backend]).

(** The same under jax, whose tensors are immutable. *)
Definition jax_array : Array :=
  built (PTensor (vector "jax" [1; 2; 3])) None (world_with [jax_backend]).

(** A torch tensor that requires gradients, wrapped. *)
Definition torch_variable : Array :=
  built (PTensor (mkNative "torch" [3] int32 "cpu" [1; 2; 3] true)) None
    (world_with [torch_backend]).


(** A tensorflow variable, wrapped while tensorflow was the backend. *)
Definition tensorflow_variable : Array :=
  built (PTensor (mkNative "tensorflow" [3] int32 "cpu" [1; 2; 3] true)) (Some false)
    (world_with [tensorflow_backend]).

(** A torch tensor of two elements that requires gradients. *)
Definition torch_tracked_pair : NativeArray :=
  mkNative "torch" [2] int32 "cpu" [7; 8] true.

(** An array made while no backend was set: its [backend] is empty. *)
Definition implicit_array : Array :=
  built (PTensor (vector "numpy" [1; 2; 3])) None (world_with []).

(* ================================================================== *)
(** ** The statements under study, as the specification words them *)
(* ================================================================== *)

(** The backend a value "already identifies": an Array names it in its
    [backend] attribute, a native tensor by the library of its class. *)
Definition identified_backend (v : PyVal) : option string :=
  match v with
  | PArr a => if String.eqb (backend a) "" then None else Some (backend a)
  | PTensor t => Some (t_lib t)
  | _ => None
  end.

(** Construction adopts the backend the value identifies, and falls back
    to the active one only when it identifies none. *)
Definition adopts_identified_backend : Prop :=
  forall (v : PyVal) (dyn : option bool) (w : World) (a : Array),
    outcome (Array_new v dyn w) = inr a ->
    match identified_backend v with
    | Some b => backend a = b
    | None => backend a = active_backend_str w
    end.

(** A second read of a metadata field, with nothing in between, returns
    the first value and computes nothing. *)
Definition cached_after_first_read (f : Field) : Prop :=
  forall (a : Array) (w : World) (v : MetaVal),
    outcome (read_field f (mkFrame a w)) = inr v ->
    outcome (read_field f (final (read_field f (mkFrame a w)))) = inr v /\
    events (read_field f (final (read_field f (mkFrame a w)))) = [].

Definition all_six_fields_cached : Prop :=
  forall f : Field, cached_after_first_read f.

(** Neither an assignment to [data] nor an indexed assignment changes
    the [backend] attribute. *)
Definition backend_attr_fixed_after_construction : Prop :=
  (forall (a : Array) (w : World) (v : PyVal),
     backend (self (final (data_setter v (mkFrame a w)))) = backend a) /\
  (forall (a : Array) (w : World) (q : Query) (v : PyVal),
     backend (self (final (__setitem__ q v (mkFrame a w)))) = backend a).

(** The size the claim expects of a shape. *)
Definition expected_size (shp : list Z) : Z :=
  match shp with
  | [] => 0
  | _ => prod shp
  end.

(** The [_size] cache, when set, holds the size of the wrapped tensor. *)
Definition size_cache_coherent (a : Array) : Prop :=
  match _size a with
  | None => True
  | Some n => n = expected_size (t_shape (_data a))
  end.

(** Whether the cache of a field is unset ([shape] has none). *)
Definition cache_unset (f : Field) (a : Array) : Prop :=
  match f with
  | FDtype => _dtype a = None
  | FDevice => _device a = None
  | FShape => True
  | FSize => _size a = None
  | FItemsize => _itemsize a = None
  | FStrides => _strides a = None
  end.

(** The native tensor behind an array-like value. *)
Definition tensor_of (v : PyVal) : option NativeArray :=
  match v with
  | PArr x => Some (_data x)
  | PTensor t => Some t
  | _ => None
  end.

(** The tensor an indexed assignment writes into: a detached one while
    torch is the active backend, when the wrapped one can be detached,
    and the wrapped one under any other backend. *)
Definition write_target (w : World) (a : Array) : Exc + NativeArray :=
  if String.eqb (active_backend_str w) "torch" then detach (_data a)
  else inr (_data a).

(** How [__setitem__] hands the assigned value on: a number becomes a
    tensor of the shape of the selected region ([n] elements) filled with
    it, an Array is replaced by its native tensor, anything else passes
    as it is. *)
Definition coerced (v v' : PyVal) (shp : list Z) (n : nat) : Prop :=
  match v with
  | PScalar z =>
      exists t0, tensor_of v' = Some t0 /\ t_shape t0 = shp /\
                 t_elems t0 = repeat z n
  | PArr x => v' = PTensor (_data x)
  | _ => v' = v
  end.

(** What a caller reads off an Array besides its elements: the
    [backend] attribute, the [dynamic_backend] flag and the element type
    of the wrapped tensor. *)
Definition seen_by_caller (a : Array) : string * bool * Dtype :=
  (backend a, _dynamic_backend a, t_dtype (_data a)).


(** "Gradient tracking on the array is dropped by any indexed write"
    while torch is the active backend. *)
Definition indexed_write_drops_gradient : Prop :=
  forall (q : Query) (v : PyVal) (a : Array) (w : World),
    let r := __setitem__ q v (mkFrame a w) in
    active_backend_str w = "torch" ->
    outcome r = inr tt ->
    t_grad (_data (self (final r))) = false.

(* ================================================================== *)
(** ** Vocabulary of the further properties *)
(* ================================================================== *)

(** What the metadata properties read off a tensor. *)
Definition metadata_of (f : Field) (t : NativeArray) : MetaVal :=
  match f with
  | FDtype => MDtype (Some (t_dtype t))
  | FDevice => MDevice (Some (t_device t))
  | FShape => MShape (t_shape t)
  | FSize => MSize (Some (expected_size (t_shape t)))
  | FItemsize => MItemsize (Some (dtype_bits (t_dtype t) / 8))
  | FStrides =>
      MStrides (Some (contiguous_strides (dtype_bits (t_dtype t) / 8) (t_shape t)))
  end.

(** The library, the shape and the number of elements of the wrapped
    tensor. *)
Definition frame_of (a : Array) : string * list Z * nat :=
  (t_lib (_data a), t_shape (_data a), List.length (t_elems (_data a))).


(* ================================================================== *)
(** ** Length and iteration of an Array (array.py, lines 246-249 and
       1148-1163) *)
(* ================================================================== *)

(** The [ndim] property, lines 246-249. *)
Definition ndim : Meth Z :=
  a <- this ;; ret (Z.of_nat (List.length (t_shape (_data a)))).

(** [len(t)] on a native tensor: the length of its leading axis.  A
    0-dimensional tensor is unsized, and [len] raises [TypeError] on it
    in every supported library. *)
Definition native_len (t : NativeArray) : Exc + Z :=
  match t_shape t with
  | [] => inl TypeError
  | n :: _ => inr n
  end.

(** [tuple[i]] for a non-negative [i]. *)
Definition tuple_getitem (l : list Z) (i : nat) : Exc + Z :=
  match nth_error l i with
  | Some x => inr x
  | None => inl IndexError
  end.

(** An [Exc + A] result as a computation. *)
Definition lift_result {S A} (r : Exc + A) : @ST S A :=
  match r with
  | inl e => raise e
  | inr a => ret a
  end.

(** [Array.__len__], lines 1148-1152: [except TypeError] lets any other
    exception through. *)
Definition __len__ : Meth Z :=
  a <- this ;;
  try_except
    (lift_result (native_len (_data a)))
    (fun e =>
       match e with
       | TypeError => lift_result (tuple_getitem (t_shape (_data a)) 0)
       | _ => raise e
       end).

(** [for i in t] on a native tensor of at least one dimension: its rows
    along the leading axis, in order.  The rows of a one-dimensional
    paddle tensor keep a unit axis, which [__iter__] squeezes. *)
Definition native_rows (t : NativeArray) : list NativeArray :=
  match t_shape t with
  | [] => []
  | n :: rest =>
      let row := Z.to_nat (prod rest) in
      let row_shape :=
        match rest with
        | [] => if String.eqb (t_lib t) "paddle" then [1] else []
        | _ => rest
        end in
      map (fun i => mkNative (t_lib t) row_shape (t_dtype t) (t_device t)
                      (firstn row (skipn (i * row) (t_elems t))) (t_grad t))
          (seq 0 (Z.to_nat n))
  end.

(** The name of an element type, as [ivy.Dtype] compares with strings. *)
Definition dtype_name (d : Dtype) : string :=
  match d with
  | int8 => "int8" | int16 => "int16" | int32 => "int32" | int64 => "int64"
  end.

(** [x in names] for the value of the [dtype] property. *)
Definition dtype_in (d : option Dtype) (names : list string) : bool :=
  match d with
  | Some d => existsb (String.eqb (dtype_name d)) names
  | None => false
  end.

Section Iteration.
(** [ivy.unstack(x)] and the method [squeeze(axis)] of an Array are not
    among the sources: [__iter__] is modelled for whatever they do. *)
Variable ivy_unstack : NativeArray -> M (list PyVal).
Variable squeeze : PyVal -> Z -> M PyVal.

(** [Array.__iter__], lines 1154-1163.  The list the iterator is made of
    is returned. *)
Definition __iter__ : Meth (list PyVal) :=
  let rows :=
    a <- this ;;
    liftW (mapM (fun i => to_ivy (PTensor i)) (native_rows (_data a))) in
  n <- ndim ;;
  if n =? 0 then raise TypeError
  else
    bs <- liftW current_backend_str ;;
    if String.eqb bs "paddle" then
      dt <- dtype ;;
      if dtype_in dt ["int8"; "int16"; "uint8"; "float16"] then
        a <- this ;;
        items <- liftW (ivy_unstack (_data a)) ;;
        liftW (mapM to_ivy items)
      else
        n <- ndim ;;
        if n =? 1 then
          a <- this ;;
          liftW (mapM (fun i => x <- to_ivy (PTensor i) ;; squeeze x 0)
                   (native_rows (_data a)))
        else rows
    else rows.
End Iteration.

(* ================================================================== *)
(** ** The paddle backend (ivy/functional/backends/paddle/general.py) *)
(* ================================================================== *)

Module paddle_general.

(** The functions are listed in the order of the file, except
    [is_native_array] and [current_backend_str], which come last: until
    then these names are the ivy-level functions. *)

(** [ivy.is_ivy_array(x)]: an instance of [ivy.Array]. *)
Definition is_ivy_array (x : PyVal) : bool :=
  match x with PArr _ => true | _ => false end.

(** [ivy.is_array(x)]: an ivy Array or a native tensor of the resolved
    backend. *)
Definition is_array (x : PyVal) : M bool :=
  if is_ivy_array x then ret true else is_native_array x.

(** [Tensor.astype(dtype)] of the paddle library: a new tensor of the
    given element type. *)
Definition astype (t : NativeArray) (d : Dtype) : NativeArray :=
  mkNative (t_lib t) (t_shape t) d (t_device t) (t_elems t) (t_grad t).

(** [paddle.assign(x, output)] of the paddle library: the values of [x]
    are copied into [output], which is returned. *)
Definition paddle_assign (x output : NativeArray) : NativeArray :=
  mkNative (t_lib output) (t_shape x) (t_dtype x) (t_device output)
    (t_elems x) (t_grad output).

(** [inplace_update], lines 351-376.  [ivy.args_to_native] replaces an
    Array by its native tensor. *)
Definition inplace_update (x val : PyVal) : M PyVal :=
  x_is_array <- is_array x ;;
  both <- (if x_is_array then is_array val else ret false) ;;
  if both then
    match to_native x, to_native val with
    | PTensor x_native, PTensor val_native =>
        let x_native :=
          if shape_eqb (t_shape val_native) (t_shape x_native) then
            let x_native :=
              if negb (Dtype_eqb (t_dtype x_native) (t_dtype val_native))
              then astype x_native (t_dtype val_native)
              else x_native in
            paddle_assign val_native x_native
          else val_native in
        native <- is_native_array x ;;
        if native then ret (PTensor x_native)
        else
          match x with
          | PArr xa =>
              r <- call_on xa (data_setter (PTensor x_native)) ;;
              ret (PArr (snd r))
          | _ =>
              a <- Array_new (PTensor x_native) None ;;
              ret (PArr a)
          end
    | _, _ => raise TypeError
    end
  else ret val.

(** A tensor of booleans. *)
Record BoolTensor : Type := mkBool {
  b_shape : list Z;
  b_elems : list bool
}.

(** [expand_dims(x, axis=0)] of the paddle backend, as [isin] uses it on
    a 0-dimensional tensor. *)
Definition expand_dims0 (t : NativeArray) : NativeArray :=
  mkNative (t_lib t) (1 :: t_shape t) (t_dtype t) (t_device t) (t_elems t)
    (t_grad t).

(** [Tensor.reshape([-1])]. *)
Definition flatten (t : NativeArray) : NativeArray :=
  mkNative (t_lib t) [Z.of_nat (List.length (t_elems t))] (t_dtype t)
    (t_device t) (t_elems t) (t_grad t).

(** Insertion into a strictly increasing list. *)
Fixpoint insert_unique (x : Z) (l : list Z) : list Z :=
  match l with
  | [] => [x]
  | y :: rest =>
      if x <? y then x :: l
      else if x =? y then l
      else y :: insert_unique x rest
  end.

(** [unique_values(x)] of the paddle backend: the distinct elements, in
    increasing order, as a one-dimensional tensor. *)
Definition unique_values (t : NativeArray) : NativeArray :=
  let u := fold_right insert_unique [] (t_elems t) in
  mkNative (t_lib t) [Z.of_nat (List.length u)] (t_dtype t) (t_device t) u
    (t_grad t).

(** [any(equal(expand_dims(elements, axis=-1), test_elements), axis=-1)]:
    for each element, whether some test element equals it. *)
Definition any_equal (elements test_elements : NativeArray) : BoolTensor :=
  mkBool (t_shape elements)
    (map (fun x => existsb (Z.eqb x) (t_elems test_elements))
       (t_elems elements)).

(** [reshape(x, shape)] on a tensor of booleans. *)
Definition reshape (x : BoolTensor) (shape : list Z) : BoolTensor :=
  mkBool shape (b_elems x).

(** [logical_xor(x, invert)] with a Python boolean. *)
Definition logical_xor (x : BoolTensor) (invert : bool) : BoolTensor :=
  mkBool (b_shape x) (map (fun b => xorb b invert) (b_elems x)).

(** [isin], lines 801-828. *)
Definition isin (elements test_elements : NativeArray)
    (assume_unique invert : bool) : BoolTensor :=
  let input_shape := t_shape elements in
  let elements :=
    if Nat.eqb (List.length (t_shape elements)) 0 then expand_dims0 elements
    else elements in
  let test_elements :=
    if Nat.eqb (List.length (t_shape test_elements)) 0
    then expand_dims0 test_elements
    else test_elements in
  let test_elements :=
    if negb assume_unique then unique_values test_elements
    else test_elements in
  let elements := flatten elements in
  let test_elements := flatten test_elements in
  let output := any_equal elements test_elements in
  logical_xor (reshape output input_shape) invert.

(** [is_native_array], lines 17-22: an instance of [paddle.Tensor]; with
    [exclusive], one that does not track gradients ([stop_gradient]). *)
Definition is_native_array (x : PyVal) (exclusive : bool) : bool :=
  match x with
  | PTensor t =>
      if String.eqb (t_lib t) "paddle" then
        let stop_gradient := negb (t_grad t) in
        if exclusive && negb stop_gradient then false else true
      else false
  | _ => false
  end.

(** [container_types], lines 29-30. *)
Definition container_types : list string := [].

(** [current_backend_str], lines 33-34. *)
Definition current_backend_str : string := "paddle".

(** [inplace_arrays_supported] and [inplace_variables_supported], lines
    321-324 and 379-380. *)
Definition inplace_arrays_supported : bool := false.

Definition inplace_variables_supported : bool := false.

End paddle_general.

(** [ivy.array([1, 2, 3])] made while paddle is the active backend. *)
Definition paddle_array : Array :=
  built (PTensor (vector "paddle" [1; 2; 3])) None (world_with [paddle_backend]).


(** Whether a value is an [ivy.Array]. *)
Definition wrapped (x : PyVal) : bool :=
  match x with PArr _ => true | _ => false end.

(** No Array among the values a backend primitive is invoked with. *)
Definition array_free (e : Event) : Prop :=
  match e with
  | BackendCall _ args => Forall (fun x => wrapped x = false) args
  | _ => True
  end.

(** A computation each of whose events satisfies [P]. *)
Definition emits_only {S A} (P : Event -> Prop) (m : @ST S A) : Prop :=
  forall s, Forall P (events (m s)).

(** [moveaxis] of data_classes/container/experimental/manipulation.py,
    lines 88-136: [self.static_moveaxis(self, source, destination,
    copy=copy, out=out)].  The instance method takes no [key_chains],
    [to_apply] or [prune_unapplied]: the defaults of the static method
    apply. *)
Definition moveaxis (ivy_moveaxis : Fn) (self_ : Container)
    (source destination : PyVal) (out : option PyVal) : M Container :=
  static_moveaxis ivy_moveaxis (PCont self_) source destination None true
    false out.


(* ================================================================== *)
(** ** Nested arrays (ivy/data_classes/nested_array/base.py) *)
(* ================================================================== *)

Module nested_array.

(** Exceptions raised by the methods of [NestedArrayBase]. *)
Inductive PyExc : Type :=
| RuntimeError (msg : string)
| AssertionError (msg : string)
| IndexError.

(** Sequencing of computations that may raise. *)
Definition and_then {A B} (r : PyExc + A) (k : A -> PyExc + B) : PyExc + B :=
  match r with
  | inl e => inl e
  | inr a => k a
  end.

Notation "x <~ r ;; k" := (and_then r (fun x => k))
  (at level 61, r at next level, right associativity).

(** [l[i]] on a list, for a non-negative [i]. *)
Definition getitem {A} (l : list A) (i : nat) : PyExc + A :=
  match nth_error l i with
  | Some x => inr x
  | None => inl IndexError
  end.

(** [arr.shape] and [arr.ndim] of an ivy Array. *)
Definition array_shape (a : Array) : list Z := t_shape (_data a).

Definition array_ndim (a : Array) : nat := List.length (array_shape a).

(** The instance attributes of a nested array; an entry of [_shape] is
    [None] where the arrays differ. *)
Record NestedArray : Type := mkNested {
  _data : list Array;
  _shape : list (option Z);
  _dtype : option Dtype;
  _device : option string;
  _pre_repr : string
}.

(** The inner loop of [_generate_shape], lines 63-66: whether every
    array has [current_shape] at axis [i]; the loop stops at the first
    one that has not. *)
Fixpoint same_shape_loop (shapes : list (list Z)) (i : nat) (current_shape : Z)
    (js : list nat) : PyExc + bool :=
  match js with
  | [] => inr true
  | j :: rest =>
      s <~ getitem shapes j ;;
      d <~ getitem s i ;;
      if negb (d =? current_shape) then inr false
      else same_shape_loop shapes i current_shape rest
  end.

(** The outer loop of [_generate_shape], lines 60-70: the entries
    appended to [final_shape]. *)
Fixpoint final_shape_loop (shapes : list (list Z)) (n : nat) (axes : list nat)
  : PyExc + list (option Z) :=
  match axes with
  | [] => inr []
  | i :: rest =>
      s0 <~ getitem shapes 0 ;;
      current_shape <~ getitem s0 i ;;
      same_shape <~ same_shape_loop shapes i current_shape (seq 0 n) ;;
      tail <~ final_shape_loop shapes n rest ;;
      inr ((if same_shape then Some current_shape else None) :: tail)
  end.

(** [NestedArrayBase._generate_shape], lines 47-71, on the value of
    [self._data]. *)
Definition _generate_shape (data : list Array) : PyExc + list (option Z) :=
  let final_shape0 := List.length data in
  let shapes := map array_shape data in
  let ndims := map array_ndim data in
  ndims0 <~ getitem ndims 0 ;;
  if negb (Nat.eqb (count_occ Nat.eq_dec ndims ndims0) (List.length ndims))
  then inl (RuntimeError
              "All arrays in a nested array must have the same number of dimensions.")
  else
    tail <~ final_shape_loop shapes final_shape0 (seq 0 ndims0) ;;
    inr (Some (Z.of_nat final_shape0) :: tail).

(** [NestedArrayBase.__init__], lines 12-23. *)
Definition __init__ (data : list Array) (dtype : option Dtype)
    (device : option string) (internal : bool) : PyExc + NestedArray :=
  if negb internal then
    inl (RuntimeError
           ("NestedArray is an abstract class "
            ++ "and should not be instantiated directly."
            ++ "Please use one of the factory methods instead"))
  else
    shape <~ _generate_shape data ;;
    inr (mkNested data shape dtype device "ivy.").

(** [unbind], lines 92-93: a copy of the list of arrays. *)
Definition unbind (self_ : NestedArray) : list Array := _data self_.

(** The properties [data], [dtype], [device], [shape] and [ndim], lines
    112-135. *)
Definition data (self_ : NestedArray) : list Array := _data self_.

Definition dtype (self_ : NestedArray) : option Dtype := _dtype self_.

Definition device (self_ : NestedArray) : option string := _device self_.

Definition shape (self_ : NestedArray) : list (option Z) := _shape self_.

Definition ndim (self_ : NestedArray) : nat := List.length (_shape self_).

(** The list [l] after [l[i] = x], for an index in range. *)
Fixpoint setitem {A} (l : list A) (i : nat) (x : A) : list A :=
  match l, i with
  | [], _ => []
  | _ :: rest, O => x :: rest
  | y :: rest, S j => y :: setitem rest j x
  end.

Section Reshape.
(** The method [reshape] of an ivy Array is not among the sources:
    [reshape] of a nested array is modelled for whatever it does. *)
Variable array_reshape : Array -> list Z -> PyExc + Array.

(** The inner loop of [reshape], lines 98-103: the shape asked of the
    array at position [i], an entry [-1] standing for the dimension that
    array has at that axis. *)
Fixpoint new_shape_loop (data : list Array) (i : nat) (shape : list Z)
    (js : list nat) : PyExc + list Z :=
  match js with
  | [] => inr []
  | j :: rest =>
      shape_j <~ getitem shape j ;;
      d <~ (if shape_j =? -1 then
              arr <~ getitem data i ;; getitem (array_shape arr) (j - 1)
            else inr shape_j) ;;
      tail <~ new_shape_loop data i shape rest ;;
      inr (d :: tail)
  end.

(** The outer loop of [reshape], lines 96-105: the arrays are replaced
    one after the other, and the shape of each new one is printed.  What
    was replaced and printed before an exception stays. *)
Fixpoint reshape_loop (shape : list Z) (data : list Array)
    (printed : list (list Z)) (positions : list nat)
  : (PyExc + unit) * list Array * list (list Z) :=
  match positions with
  | [] => (inr tt, data, printed)
  | i :: rest =>
      match (new_shape <~ new_shape_loop data i shape
                            (seq 1 (List.length shape - 1)) ;;
             arr <~ getitem data i ;;
             array_reshape arr new_shape) with
      | inl e => (inl e, data, printed)
      | inr arr' =>
          reshape_loop shape (setitem data i arr')
            (printed ++ [array_shape arr']) rest
      end
  end.

(** [NestedArrayBase.reshape], lines 95-107: the outcome, the nested
    array afterwards and the lines printed. *)
Definition reshape (self_ : NestedArray) (shape : list Z)
  : (PyExc + unit) * NestedArray * list (list Z) :=
  match (shape0 <~ getitem shape 0 ;;
         batch <~ getitem (_shape self_) 0 ;;
         inr (shape0, batch)) with
  | inl e => (inl e, self_, [])
  | inr (shape0, batch) =>
      match batch with
      | Some b =>
          if shape0 =? b then
            match reshape_loop shape (_data self_) []
                    (seq 0 (Z.to_nat shape0)) with
            | (inl e, data', printed) =>
                (inl e,
                 mkNested data' (_shape self_) (_dtype self_) (_device self_)
                   (_pre_repr self_),
                 printed)
            | (inr _, data', printed) =>
                match _generate_shape data' with
                | inl e =>
                    (inl e,
                     mkNested data' (_shape self_) (_dtype self_)
                       (_device self_) (_pre_repr self_),
                     printed)
                | inr s =>
                    (inr tt,
                     mkNested data' s (_dtype self_) (_device self_)
                       (_pre_repr self_),
                     printed)
                end
            end
          else (inl (AssertionError "batch dimension is not changeable"),
                self_, [])
      | None =>
          (inl (AssertionError "batch dimension is not changeable"), self_, [])
      end
  end.
End Reshape.

(** [list[query]] for an integer, negative ones counting from the end. *)
Definition list_getitem {A} (l : list A) (query : Z) : PyExc + A :=
  let n := Z.of_nat (List.length l) in
  if (- n <=? query) && (query <? n)
  then getitem l (Z.to_nat (if query <? 0 then query + n else query))
  else inl IndexError.

(** [__getitem__], lines 147-148, for an integer query. *)
Definition __getitem__ (self_ : NestedArray) (query : Z) : PyExc + Array :=
  list_getitem (_data self_) query.

End nested_array.

(** The entry a nested shape has at axis [i] when the first array has [c]
    there: [c] when every array has, [None] otherwise. *)
Definition nested_common_dim (data : list Array) (c : Z) (i : nat) : option Z :=
  if forallb (fun a => nth i (nested_array.array_shape a) 0 =? c) data
  then Some c else None.

(** [ivy.array([4, 5])] and a 0-dimensional [ivy.array(7)], made while
    numpy is the active backend. *)
Definition numpy_pair : Array :=
  built (PTensor (vector "numpy" [4; 5])) None (world_with [numpy_backend]).

Definition numpy_scalar : Array :=
  built (PTensor (zero_dim "numpy" 7)) None (world_with [numpy_backend]).

(** A [reshape] of Arrays that answers with the shape it is asked,
    whatever the number of elements. *)
Definition reshape_as_asked (a : Array) (s : list Z)
  : nested_array.PyExc + Array :=
  inr (set__data (mkNative (t_lib (_data a)) s (t_dtype (_data a))
                    (t_device (_data a)) (t_elems (_data a))
                    (t_grad (_data a))) a).

(** The nested array of two copies of [ivy.array([1, 2, 3])]. *)
Definition nested_pair : nested_array.NestedArray :=
  nested_array.mkNested [numpy_array; numpy_array] [Some 2; Some 3] None None
    "ivy.".


(* ================================================================== *)
(** ** The tensorflow frontend wrappers
       (ivy/functional/frontends/tensorflow/func_wrapper.py) *)
(* ================================================================== *)

Module tf_func_wrapper.

(** A Python [dict] with string keys, in insertion order; a key occurs
    once. *)
Definition Dict (V : Type) : Type := list (string * V).

Section Dicts.
Context {V : Type}.

(** [d.keys()]. *)
Definition keys (d : Dict V) : list string := map fst d.

(** [d[k]], [None] standing for [KeyError]. *)
Fixpoint dict_get (d : Dict V) (k : string) : option V :=
  match d with
  | [] => None
  | (k', v) :: rest => if String.eqb k' k then Some v else dict_get rest k
  end.

(** The dict after [del d[k]]. *)
Definition dict_del (d : Dict V) (k : string) : Dict V :=
  filter (fun kv => negb (String.eqb (fst kv) k)) d.

(** The dict after [d[k] = v]: the value is replaced where the key is,
    and a new key goes last. *)
Fixpoint dict_set (d : Dict V) (k : string) (v : V) : Dict V :=
  match d with
  | [] => [(k, v)]
  | (k', v') :: rest =>
      if String.eqb k' k then (k, v) :: rest
      else (k', v') :: dict_set rest k v
  end.
End Dicts.

(** [KeyError], with the missing key. *)
Inductive PyExc : Type :=
| KeyError (key : string).

Section UpdateKwargKeys.
Context {V : Type}.

(** The inner loop of [_update_kwarg_keys], lines 171-175, over the keys
    of [kwargs]. *)
Fixpoint rename_loop (key val : string) (ks : list string)
    (updated_kwargs : Dict V) : PyExc + Dict V :=
  match ks with
  | [] => inr updated_kwargs
  | k :: rest =>
      if String.eqb key k then
        match dict_get updated_kwargs k with
        | None => inl (KeyError k)
        | Some temp_key =>
            rename_loop key val rest
              (dict_set (dict_del updated_kwargs k) val temp_key)
        end
      else rename_loop key val rest updated_kwargs
  end.

(** The outer loop, lines 170-175, over the items of [to_update]. *)
Fixpoint update_loop (items : list (string * string)) (ks : list string)
    (updated_kwargs : Dict V) : PyExc + Dict V :=
  match items with
  | [] => inr updated_kwargs
  | (key, val) :: rest =>
      match rename_loop key val ks updated_kwargs with
      | inl e => inl e
      | inr updated_kwargs => update_loop rest ks updated_kwargs
      end
  end.

(** [_update_kwarg_keys], lines 151-176: [kwargs] itself is copied, not
    changed. *)
Definition _update_kwarg_keys (kwargs : Dict V) (to_update : Dict string)
  : PyExc + Dict V :=
  let updated_kwargs := kwargs in
  update_loop to_update (keys kwargs) updated_kwargs.
End UpdateKwargKeys.

Section HandleTfDtype.
(** The values passed around, [None] being Python's [None]; the result
    of the wrapped function; and [to_ivy_dtype], lines 13-18, which
    depends on the frontend's dtype classes. *)
Context {X R : Type}.
Variable to_ivy_dtype : X -> X.

(** [l[a:b]] for non-negative bounds. *)
Definition slice {A} (l : list A) (a b : nat) : list A :=
  firstn (b - a) (skipn a l).

(** [dict(zip(names, values))]. *)
Definition dict_of_zip {V} (names : list string) (values : list V) : Dict V :=
  fold_left (fun d kv => dict_set d (fst kv) (snd kv)) (combine names values) [].

(** [{**a, **b}]. *)
Definition dict_merge {V} (a b : Dict V) : Dict V :=
  fold_left (fun d kv => dict_set d (fst kv) (snd kv)) b a.

(** [list.index(x)], [None] standing for [ValueError]. *)
Fixpoint index (l : list string) (x : string) : option nat :=
  match l with
  | [] => None
  | y :: rest =>
      if String.eqb y x then Some O
      else match index rest x with
           | Some i => Some (S i)
           | None => None
           end
  end.

(** [_handle_tf_dtype], lines 23-44, for a function [fn] whose
    signature lists [parameters]: [fn] receives positional arguments,
    the keyword [dtype] when it is passed, and the other keywords. *)
Definition _handle_tf_dtype
    (fn : list (option X) -> option X -> Dict (option X) -> R)
    (parameters : list string) (dtype_pos : nat)
    (args : list (option X)) (dtype : option X) (kwargs : Dict (option X)) : R :=
  let '(args, dtype, kwargs) :=
    if (dtype_pos + 1 <? List.length args)%nat then
      (firstn dtype_pos args,
       nth dtype_pos args None,
       dict_merge
         (dict_of_zip (slice parameters (dtype_pos + 1) (List.length args))
            (skipn (dtype_pos + 1) args))
         kwargs)
    else if Nat.eqb (List.length args) (dtype_pos + 1) then
      (removelast args, nth dtype_pos args None, kwargs)
    else (args, dtype, kwargs) in
  match dtype with
  | Some d => fn args (Some (to_ivy_dtype d)) kwargs
  | None => fn args None kwargs
  end.

(** [handle_tf_dtype], lines 21-48: the wrapper, or [None] for the
    [ValueError] of a signature without [dtype]. *)
Definition handle_tf_dtype
    (fn : list (option X) -> option X -> Dict (option X) -> R)
    (parameters : list string)
  : option (list (option X) -> option X -> Dict (option X) -> R) :=
  match index parameters "dtype" with
  | Some dtype_pos => Some (_handle_tf_dtype fn parameters dtype_pos)
  | None => None
  end.
End HandleTfDtype.

End tf_func_wrapper.

(** The keywords of a raw_ops call, and the renaming of [input] to [x]. *)
Definition raw_ops_kwargs : tf_func_wrapper.Dict Z :=
  [("input", 1); ("axis", 2)].

Definition raw_ops_renaming : tf_func_wrapper.Dict string :=
  [("input", "x")].

(** A function of signature [(x, dtype, name)] that reports what it was
    called with: the positional arguments, the keyword [dtype] and the
    other keywords. *)
Definition tf_received (args : list (option Z)) (dtype : option Z)
    (kwargs : tf_func_wrapper.Dict (option Z))
  : list (option Z) * option Z * tf_func_wrapper.Dict (option Z) :=
  (args, dtype, kwargs).


(* ================================================================== *)
(** ** Index paths of a nested list
       (ivy/functional/backends/jax/statistical.py) *)
(* ================================================================== *)

Module jax_statistical.

(** What [tolist()] gives: a number, or a Python list of such values. *)
#[warnings="-register-all"]
Inductive PyList : Type :=
| Item (v : Z)
| Items (l : list PyList).

(** An entry of the list [__get_index] builds: a number and the tuple of
    its indices. *)
Definition Entry : Type := (Z * list nat)%type.

(** [__get_index], lines 319-331.  [None] is the default of [indices]
    and of [prefix].  The calls of the loop append to the one list
    [indices], which is threaded through them here; the list after the
    call is what the call returns. *)
Fixpoint __get_index (lst : PyList) (indices : option (list Entry))
    (prefix : option (list nat)) : list Entry :=
  let indices := match indices with None => [] | Some l => l end in
  let prefix := match prefix with None => [] | Some p => p end in
  match lst with
  | Items l =>
      (fix loop (l : list PyList) (i : nat) (indices : list Entry)
         : list Entry :=
         match l with
         | [] => indices
         | sub_lst :: rest =>
             let sub_indices := prefix ++ [i] in
             loop rest (S i)
               (__get_index sub_lst (Some indices) (Some sub_indices))
         end) l O indices
  | Item v => indices ++ [(v, prefix)]
  end.

(** [lst[i0][i1]...] for a tuple of indices within bounds, [None]
    standing for the errors of an index that is not. *)
Fixpoint item_at (lst : PyList) (path : list nat) : option PyList :=
  match path with
  | [] => Some lst
  | i :: rest =>
      match lst with
      | Items l =>
          match nth_error l i with
          | Some sub_lst => item_at sub_lst rest
          | None => None
          end
      | Item _ => None
      end
  end.

End jax_statistical.

(* ================================================================== *)
(** ** Depth pooling of the tensorflow backend
       (ivy/functional/backends/tensorflow/experimental/layers.py) *)
(* ================================================================== *)

Module tf_layers.

(** The exceptions of [_determine_depth_max_pooling]: the one it raises
    itself, with its message, and those of [l[-1]] on an empty sequence
    and of [%] by zero. *)
Inductive PyExc : Type :=
| NotImplementedError (msg : string)
| IndexError
| ZeroDivisionError.

(** [l[-1]]. *)
Definition last_item (l : list Z) : PyExc + Z :=
  match l with
  | [] => inl IndexError
  | _ => inr (last l 0)
  end.

(** [l[1:-1]]. *)
Definition inner (l : list Z) : list Z := removelast (tl l).

(** [range(a, b)]. *)
Definition range (a b : Z) : list Z :=
  map (fun i => a + Z.of_nat i) (seq 0 (Z.to_nat (b - a))).

(** [[v] * n]. *)
Definition times (v : Z) (n : Z) : list Z := repeat v (Z.to_nat n).

Section DepthPooling.
(** The tensors, with [x.shape] and [tf.transpose(x, perm)]. *)
Context {Tensor : Type}.
Variable shape : Tensor -> list Z.
Variable transpose : Tensor -> list Z -> Tensor.

(** [_determine_depth_max_pooling], lines 22-50. *)
Definition _determine_depth_max_pooling (x : Tensor) (kernel strides : list Z)
    (dims : Z) : PyExc + (Tensor * list Z * list Z * bool) :=
  let depth_pooling := false in
  if Z.of_nat (List.length kernel) =? dims + 2 then
    let spatial_kernel := inner kernel in
    match last_item kernel with
    | inl e => inl e
    | inr kernel_last =>
        if negb (kernel_last =? 1) then
          let depth_pooling := true in
          if existsb (fun k => negb (k =? 1)) spatial_kernel then
            inl (NotImplementedError "MaxPooling supports exactly one of pooling across depth or pooling across width/height.")
          else
            match
              (if negb (Z.of_nat (List.length strides) =? dims + 2)
               then inr true
               else match last_item strides with
                    | inl e => inl e
                    | inr strides_last =>
                        inr (negb (strides_last =? kernel_last))
                    end)
            with
            | inl e => inl e
            | inr true => inl (NotImplementedError "Depthwise max pooling requires the depth window to equal the depth stride")
            | inr false =>
                match last_item (shape x) with
                | inl e => inl e
                | inr depth =>
                    if kernel_last =? 0 then inl ZeroDivisionError
                    else if negb (depth mod kernel_last =? 0) then
                      inl (NotImplementedError "Depthwise max pooling requires the depth window to evenly divide the input depth")
                    else
                      match last_item strides with
                      | inl e => inl e
                      | inr strides_last =>
                          let x := transpose x (0 :: dims + 1 :: range 1 (dims + 1)) in
                          let kernel := kernel_last :: times 1 (dims - 1) in
                          let strides := strides_last :: times 1 (dims - 1) in
                          inr (x, kernel, strides, depth_pooling)
                      end
                end
            end
        else
          let kernel := spatial_kernel in
          let strides :=
            if Z.of_nat (List.length strides) =? dims + 2 then inner strides
            else strides in
          inr (x, kernel, strides, depth_pooling)
    end
  else inr (x, kernel, strides, depth_pooling).
End DepthPooling.

End tf_layers.

(** A tensor known by its shape alone, and the shape [tf.transpose]
    gives it. *)
Definition shape_of (t : list Z) : list Z := t.

Definition shape_transposed (t : list Z) (perm : list Z) : list Z :=
  map (fun i => nth (Z.to_nat i) t 0) perm.

(* ================================================================== *)
(** ** Padding before a convolution of the paddle backend
       (ivy/functional/backends/paddle/layers.py) *)
(* ================================================================== *)

Module paddle_layers.

(** The exceptions of these functions, without their messages (which
    print the offending value). *)
Inductive PyExc : Type :=
| ValueError
| IndexError
| TypeError.

(** What [strides] and [dilations] may be: an [int], a sequence of
    [int]s, or a value that is neither an [int] nor iterable. *)
Inductive IntOrSeq : Type :=
| OneInt (v : Z)
| Seq (l : list Z)
| Neither.

(** What [padding] may be: a string, an [int], a list or tuple whose
    items are [int]s or lists or tuples of [int]s, or something else. *)
Inductive PadItem : Type :=
| PadInt (v : Z)
| PadSeq (l : list Z).

Inductive Padding : Type :=
| PadStr (s : string)
| PadOne (v : Z)
| PadList (l : list PadItem)
| PadOther.

(** Sequencing of computations that may raise. *)
Definition and_then {A B} (r : PyExc + A) (k : A -> PyExc + B) : PyExc + B :=
  match r with
  | inl e => inl e
  | inr a => k a
  end.

Notation "x <~~ r ;; k" := (and_then r (fun x => k))
  (at level 61, r at next level, right associativity).

(** A list comprehension whose body may raise. *)
Fixpoint comprehension {A B} (f : A -> PyExc + B) (l : list A)
  : PyExc + list B :=
  match l with
  | [] => inr []
  | a :: rest =>
      b <~~ f a ;;
      bs <~~ comprehension f rest ;;
      inr (b :: bs)
  end.

(** [l[i]] for [i] not negative. *)
Definition item {A} (l : list A) (i : nat) : PyExc + A :=
  match nth_error l i with
  | Some a => inr a
  | None => inl IndexError
  end.

(** [_is_list_or_tuple], lines 18-19, on an item of a padding; on the
    padding itself it is the case [PadList]. *)
Definition _is_list_or_tuple (inp : PadItem) : bool :=
  match inp with
  | PadSeq _ => true
  | PadInt _ => false
  end.

(** [_convert_to_list], lines 22-33, with [_type] left at [int]. *)
Definition _convert_to_list (value : IntOrSeq) (n : nat) : PyExc + list Z :=
  match value with
  | OneInt v => inr (repeat v n)
  | Seq value_list => inr value_list
  | Neither => inl ValueError
  end.

(** The list with [top] at the even and [bot] at the odd places, lines
    52-54, for lists of one length. *)
Fixpoint interleave (top bot : list Z) : list Z :=
  match top, bot with
  | t :: top, b :: bot => t :: b :: interleave top bot
  | _, _ => []
  end.

Section PadBeforeConv.
(** The tensors, with [x.shape]; [paddle.nn.functional.pad] with its
    arguments [x], [pad] and [data_format], the mode being constant; and
    [_handle_padding] of ivy/functional/ivy/layers.py. *)
Context {Tensor R : Type}.
Variable shape : Tensor -> list Z.
Variable pad : Tensor -> list Z -> string -> R.
Variable _handle_padding : Z -> Z -> Z -> string -> PyExc + Z.

(** [_pad_before_conv], lines 36-71. *)
Definition _pad_before_conv (x filters : Tensor) (strides : IntOrSeq)
    (padding : Padding) (dims : nat) (dilations : IntOrSeq)
    (data_format : string) : PyExc + R :=
  dilations <~~ _convert_to_list dilations dims ;;
  strides <~~ _convert_to_list strides dims ;;
  padding <~~
    match padding with
    | PadStr s =>
        filter_shape <~~
          comprehension
            (fun i =>
               f <~~ item (shape filters) i ;;
               d <~~ item dilations i ;;
               inr (f + (f - 1) * (d - 1)))
            (seq 0 dims) ;;
        padding_spec <~~
          comprehension
            (fun i =>
               xs <~~ item (shape x) (1 + i) ;;
               st <~~ item strides i ;;
               fs <~~ item filter_shape i ;;
               _handle_padding xs st fs s)
            (rev (seq 0 dims)) ;;
        padding_top <~~
          comprehension (fun i => p <~~ item padding_spec i ;; inr (p / 2))
            (seq 0 dims) ;;
        padding_bot <~~
          comprehension
            (fun i => p <~~ item padding_spec i ;; inr (p - p / 2))
            (seq 0 dims) ;;
        inr (interleave padding_top padding_bot)
    | _ =>
        let padding :=
          match padding with
          | PadOne v => PadList (repeat (PadSeq [v; v]) dims)
          | _ => padding
          end in
        match padding with
        | PadList l =>
            if negb (Nat.eqb (List.length l) dims) then inl ValueError
            else
              first <~~ item l 0 ;;
              if negb (_is_list_or_tuple first) then inl ValueError
              else
                flat <~~
                  comprehension
                    (fun sublist =>
                       match sublist with
                       | PadSeq s => inr (rev s)
                       | PadInt _ => inl TypeError
                       end) l ;;
                inr (rev (List.concat flat))
        | _ => inl ValueError
        end
    end ;;
  if negb (forallb (fun p => 0 <=? p) padding) then inl ValueError
  else inr (pad x padding data_format).
End PadBeforeConv.

End paddle_layers.

(** A tensor known by its shape alone, padded by adding the pads to it;
    and a [_handle_padding] that asks for the size of the filter less
    one. *)
Definition padded_shape (t : list Z) (p : list Z) (data_format : string)
  : list Z * list Z := (t, p).

Definition filter_less_one (x strides filters : Z) (padding : string)
  : paddle_layers.PyExc + Z := inr (Z.max 0 (filters - 1)).

(* ================================================================== *)
(** ** Running computations *)
(* ================================================================== *)

(** A process-level call that reads the process state only. *)
Definition pure_call {A} (m : M A) : Prop :=
  forall w, final (m w) = w /\ events (m w) = [].

(** A method that leaves the process state alone and emits nothing. *)
Definition quiet {A} (m : Meth A) : Prop :=
  forall s, world (final (m s)) = world s /\ events (m s) = [].

(** A method that leaves an attribute (or any projection) of its
    receiver as it was, whatever its outcome. *)
Definition keeps {X A} (proj : Array -> X) (m : Meth A) : Prop :=
  forall s, proj (self (final (m s))) = proj (self s).

(** A method that leaves [backend] as it was unless it went through the
    scatter fallback. *)
Definition keeps_unless_scatter {A} (m : Meth A) : Prop :=
  forall s,
    backend (self (final (m s))) = backend (self s) \/
    exists q v t, In (ScatterNd q v t) (events (m s)).





Lemma pure_ret {A} (a : A) : pure_call (ret a).
Proof. intro w. split; reflexivity. Qed.

Lemma pure_raise {A} (e : Exc) : pure_call (@raise World A e).
Proof. intro w. split; reflexivity. Qed.

Lemma pure_get : pure_call (@get World).
Proof. intro w. split; reflexivity. Qed.

Lemma pure_bind {A B} (m : M A) (k : A -> M B) :
  pure_call m -> (forall a, pure_call (k a)) -> pure_call (bind m k).
Proof.
  intros Hm Hk w. unfold bind, final, events in *.
  destruct (Hm w) as [Hw He].
  destruct (m w) as [[r w1] ev1]. simpl in Hw, He. subst w1 ev1.
  destruct r as [e | a]; simpl; auto.
  destruct (Hk a w) as [Hw2 He2].
  destruct (k a w) as [[r2 w2] ev2]. simpl in *. subst w2 ev2. auto.
Qed.

Lemma quiet_ret {A} (a : A) : quiet (ret a).
Proof. intro s. split; reflexivity. Qed.

Lemma quiet_raise {A} (e : Exc) : quiet (@raise Frame A e).
Proof. intro s. split; reflexivity. Qed.

Lemma quiet_get : quiet (@get Frame).
Proof. intro s. split; reflexivity. Qed.

Lemma quiet_this : quiet this.
Proof. intro s. split; reflexivity. Qed.

Lemma quiet_assign (f : Array -> Array) : quiet (assign f).
Proof. intro s. split; reflexivity. Qed.

Lemma quiet_bind {A B} (m : Meth A) (k : A -> Meth B) :
  quiet m -> (forall a, quiet (k a)) -> quiet (bind m k).
Proof.
  intros Hm Hk s. unfold bind, final, events in *.
  destruct (Hm s) as [Hw He].
  destruct (m s) as [[r s1] ev1]. simpl in Hw, He. subst ev1.
  destruct r as [e | a]; simpl; auto.
  destruct (Hk a s1) as [Hw2 He2].
  destruct (k a s1) as [[r2 s2] ev2]. simpl in *. subst ev2. split; congruence.
Qed.

Lemma quiet_liftW {A} (m : M A) : pure_call m -> quiet (liftW m).
Proof.
  intros Hm s. unfold liftW, final, events in *.
  destruct (Hm (world s)) as [Hw He].
  destruct (m (world s)) as [[r w1] ev]. simpl in *. subst w1 ev. auto.
Qed.

Lemma pure_call_on {A} (obj : Array) (m : Meth A) :
  quiet m -> pure_call (call_on obj m).
Proof.
  intros Hm w. unfold call_on, final, events in *.
  destruct (Hm {| self := obj; world := w |}) as [Hw He].
  destruct (m {| self := obj; world := w |}) as [[r s1] ev]. simpl in *. subst ev.
  destruct r; simpl; auto.
Qed.

Lemma quiet_check_true (b : bool) (msg : string) : quiet (check_true b msg).
Proof. destruct b; [apply quiet_ret | apply quiet_raise]. Qed.

Create HintDb run.

#[local] Hint Resolve pure_ret pure_raise pure_get pure_bind quiet_ret
  quiet_raise quiet_get quiet_this quiet_assign quiet_bind quiet_liftW
  pure_call_on quiet_check_true : run.

(** Case analysis on whatever a goal still matches on. *)
Ltac split_match :=
  match goal with
  | |- context [match ?x with _ => _ end] =>
      lazymatch x with
      | context [match _ with _ => _ end] => fail
      | _ => destruct x eqn:?
      end
  end.

Ltac pure_step :=
  first [ solve [auto with run]
        | apply pure_bind | apply quiet_bind | apply quiet_liftW
        | apply pure_call_on | split_match ].

Ltac pure_tac := repeat (intros; pure_step).

Lemma pure_current_backend (args : list PyVal) : pure_call (current_backend args).
Proof.
  unfold current_backend. pure_tac.
Qed.

Lemma pure_current_backend_str : pure_call current_backend_str.
Proof. intro w. split; reflexivity. Qed.

#[local] Hint Resolve pure_current_backend pure_current_backend_str : run.

Lemma pure_is_native_array (x : PyVal) : pure_call (is_native_array x).
Proof. unfold is_native_array. pure_tac. Qed.

Lemma pure_asarray_data (t : NativeArray) : pure_call (asarray_data t).
Proof. unfold asarray_data. pure_tac. Qed.

#[local] Hint Resolve pure_is_native_array pure_asarray_data : run.

Lemma quiet__init (v : PyVal) (dyn : option bool) : quiet (_init v dyn).
Proof. unfold _init. pure_tac. Qed.

Lemma quiet___init__ (v : PyVal) (dyn : option bool) : quiet (__init__ v dyn).
Proof.
  unfold __init__, _view_attributes.
  apply quiet_bind; [apply quiet__init | intro; apply quiet_assign].
Qed.

#[local] Hint Resolve quiet__init quiet___init__ : run.

Lemma pure_Array_new (v : PyVal) (dyn : option bool) : pure_call (Array_new v dyn).
Proof. unfold Array_new. pure_tac. Qed.

#[local] Hint Resolve pure_Array_new : run.

Lemma pure_to_ivy (x : PyVal) : pure_call (to_ivy x).
Proof. unfold to_ivy. pure_tac. Qed.

Lemma pure_ivy_array (x : PyVal) : pure_call (ivy_array x).
Proof. unfold ivy_array. pure_tac. Qed.

#[local] Hint Resolve pure_to_ivy pure_ivy_array : run.

Lemma pure_get_item (t : NativeArray) (q : Query) : pure_call (get_item t q).
Proof. unfold get_item. pure_tac. Qed.

Lemma pure_ones_like_times (target val : PyVal) :
  pure_call (ones_like_times target val).
Proof. unfold ones_like_times. pure_tac. Qed.

Lemma quiet_data_setter (v : PyVal) : quiet (data_setter v).
Proof. unfold data_setter. pure_tac. Qed.

#[local] Hint Resolve pure_get_item pure_ones_like_times quiet_data_setter : run.
Ltac run :=
  unfold data_setter, __init__, _view_attributes, _init, check_true,
    is_native_array, asarray_data, current_backend, current_backend_str,
    liftW, call_on, assign, this, bind, get, put, ret, raise, emit;
  simpl.

Lemma fold_left_mul (l : list Z) (x : Z) : fold_left Z.mul l x = x * prod l.
Proof.
  revert x. induction l as [| y l IH]; intro x; simpl.
  - lia.
  - rewrite IH. unfold prod. simpl. lia.
Qed.

Lemma _init_sets (v : PyVal) (dyn : option bool) (s : Frame) :
  outcome (_init v dyn s) = inr tt ->
  let a := self (final (_init v dyn s)) in
  backend a = active_backend_str (world s) /\
  _size a = None /\ _strides a = None /\ _itemsize a = None /\
  _dtype a = None /\ _device a = None /\
  _backend a = _backend (self s) /\
  _dynamic_backend a =
    match dyn with Some b => b | None => ivy_dynamic_backend (world s) end.
Proof.
  destruct s as [a0 w]. run.
  repeat (split_match; simpl); intros; try discriminate; repeat split; reflexivity.
Qed.

Lemma size_run (a : Array) (w : World) :
  size_cache_coherent a ->
  outcome (size (mkFrame a w)) = inr (Some (expected_size (t_shape (_data a)))).
Proof.
  unfold size_cache_coherent, size, functools_reduce. run.
  destruct (_size a) as [n |] eqn:Hs; simpl.
  - intros ->. rewrite Hs. reflexivity.
  - intros _. destruct (t_shape (_data a)) as [| x rest]; simpl.
    + reflexivity.
    + rewrite fold_left_mul. reflexivity.
Qed.

(** C9. On an Array whose size cache is unset or holds the size of the
    wrapped tensor, the [size] property returns 0 when the shape is the
    empty tuple, and the product of the dimensions otherwise. *)
Theorem size_of_zero_dim_is_zero (a : Array) (w : World) :
  size_cache_coherent a ->
  (t_shape (_data a) = [] -> outcome (size (mkFrame a w)) = inr (Some 0)) /\
  (t_shape (_data a) <> [] ->
   outcome (size (mkFrame a w)) = inr (Some (prod (t_shape (_data a))))).
Proof.
  intro H. pose proof (size_run a w H) as R. split; intro Hs.
  - rewrite R, Hs. reflexivity.
  - rewrite R. destruct (t_shape (_data a)); [congruence | reflexivity].
Qed.

Lemma size_of_zero_dim_is_zero_witness :
  outcome (size (mkFrame (built (PTensor (zero_dim "numpy" 7)) None
                            (world_with [numpy_backend]))
                   (world_with [numpy_backend]))) = inr (Some 0) /\
  outcome (size (mkFrame (built (PTensor (mkNative "numpy" [2; 3] int32 "cpu"
                                            [1; 2; 3; 4; 5; 6] false)) None
                            (world_with [numpy_backend]))
                   (world_with [numpy_backend]))) = inr (Some 6).
Proof.
  split.
  - apply (size_of_zero_dim_is_zero
             (built (PTensor (zero_dim "numpy" 7)) None (world_with [numpy_backend]))
             (world_with [numpy_backend])).
    + vm_compute. exact I.
    + reflexivity.
  - apply (size_of_zero_dim_is_zero
             (built (PTensor (mkNative "numpy" [2; 3] int32 "cpu"
                                [1; 2; 3; 4; 5; 6] false)) None
                (world_with [numpy_backend]))
             (world_with [numpy_backend])).
    + vm_compute. exact I.
    + vm_compute. discriminate.
Defined.

(** The constructor leaves the size cache unset, hence coherent. *)
Lemma constructed_size_cache_coherent (v : PyVal) (dyn : option bool) (w : World) (a : Array) :
  outcome (Array_new v dyn w) = inr a -> size_cache_coherent a.
Proof.
  unfold Array_new, size_cache_coherent. run.
  repeat (split_match; simpl); intros; try discriminate;
    match goal with H : inr _ = inr _ |- _ => inversion H; subst; clear H end;
    simpl in *; try discriminate; auto.
Qed.

(** C1 (as amended). Whatever value an Array is constructed from, and
    whatever backend that value identifies, the new Array's [backend]
    attribute is the string of the backend active at construction, the
    empty string when none is set. *)
Theorem constructed_backend_is_active (v : PyVal) (dyn : option bool)
    (w : World) (a : Array) :
  outcome (Array_new v dyn w) = inr a -> backend a = active_backend_str w.
Proof.
  unfold Array_new. run.
  repeat (split_match; simpl); intros; try discriminate;
    match goal with H : inr _ = inr _ |- _ => inversion H; subst; clear H end;
    simpl in *; try discriminate; auto.
Qed.

Lemma constructed_backend_is_active_witness :
  outcome (Array_new (PArr numpy_array) None (world_with [torch_backend]))
    = inr (built (PArr numpy_array) None (world_with [torch_backend])) /\
  backend (built (PArr numpy_array) None (world_with [torch_backend])) = "torch".
Proof.
  split.
  - vm_compute. reflexivity.
  - apply (constructed_backend_is_active (PArr numpy_array) None
             (world_with [torch_backend])).
    vm_compute. reflexivity.
Defined.

(** C1 (as stated) fails: an Array made under numpy names "numpy"; wrapped
    again while torch is active, the new Array's [backend] is "torch". *)
Lemma adopts_identified_backend_fails : ~ adopts_identified_backend.
Proof.
  intro H.
  assert (E : outcome (Array_new (PArr numpy_array) None (world_with [torch_backend]))
              = inr (built (PArr numpy_array) None (world_with [torch_backend])))
    by (vm_compute; reflexivity).
  specialize (H _ _ _ _ E).
  revert H. vm_compute. discriminate.
Qed.

Ltac run_props :=
  unfold read_field, dtype, device, shape, size, itemsize, strides,
    functools_reduce, ivy_dtype, ivy_dev, ivy_itemsize, ivy_strides;
  run.

Lemma cached_dtype : cached_after_first_read FDtype.
Proof.
  intros a w v. run_props.
  destruct (_dtype a) eqn:E; simpl; rewrite ?E; simpl; rewrite ?E; simpl;
    intro H; split; auto.
Qed.

Lemma cached_device : cached_after_first_read FDevice.
Proof.
  intros a w v. run_props.
  destruct (_device a) eqn:E; simpl; rewrite ?E; simpl; rewrite ?E; simpl;
    intro H; split; auto.
Qed.

Lemma cached_itemsize : cached_after_first_read FItemsize.
Proof.
  intros a w v. run_props.
  destruct (_itemsize a) eqn:E; simpl; rewrite ?E; simpl; rewrite ?E; simpl;
    intro H; split; auto.
Qed.

Lemma cached_strides : cached_after_first_read FStrides.
Proof.
  intros a w v. run_props.
  destruct (_strides a) eqn:E; simpl; rewrite ?E; simpl; rewrite ?E; simpl;
    intro H; split; auto.
Qed.

Lemma cached_size : cached_after_first_read FSize.
Proof.
  intros a w v. run_props.
  destruct (_size a) eqn:E; simpl; rewrite ?E; simpl; rewrite ?E; simpl.
  - intro H; split; auto.
  - destruct (t_shape (_data a)); simpl; intro H; split; auto.
Qed.

Lemma first_read_computes (f : Field) (a : Array) (w : World) :
  f <> FShape -> cache_unset f a ->
  events (read_field f (mkFrame a w)) = [Introspect f (_data a)] /\
  outcome (read_field f (mkFrame a w)) = inr (metadata_of f (_data a)).
Proof.
  intros Hf Hc. destruct f; try congruence; simpl in Hc; run_props;
    rewrite Hc; simpl; try (split; reflexivity).
  destruct (t_shape (_data a)) as [| x rest]; simpl; split; try reflexivity.
  rewrite fold_left_mul. reflexivity.
Qed.

Lemma data_setter_resets (v : PyVal) (s : Frame) :
  outcome (data_setter v s) = inr tt ->
  let a := self (final (data_setter v s)) in
  backend a = active_backend_str (world s) /\
  _size a = None /\ _strides a = None /\ _itemsize a = None /\
  _dtype a = None /\ _device a = None.
Proof.
  destruct s as [a0 w]. run.
  repeat (split_match; simpl); intros; try discriminate; repeat split; reflexivity.
Qed.

(** C6 (as amended). [dtype], [device], [size], [itemsize] and [strides]
    are computed from [_data] on the first read and cached: a read with
    the cache unset asks the backend layer once and returns the value of
    the wrapped tensor, and a second read returns the same value and
    computes nothing.  [shape] has no cache: every read computes it from
    [_data] again.  Assigning to [data] unsets the five caches. *)
Theorem metadata_cached_except_shape :
  (forall f, f <> FShape -> cached_after_first_read f) /\
  (forall f a w, f <> FShape -> cache_unset f a ->
     events (read_field f (mkFrame a w)) = [Introspect f (_data a)] /\
     outcome (read_field f (mkFrame a w)) = inr (metadata_of f (_data a))) /\
  (forall a w,
     read_field FShape (mkFrame a w)
     = (inr (MShape (t_shape (_data a))), mkFrame a w,
        [Introspect FShape (_data a)])) /\
  (forall v s, outcome (data_setter v s) = inr tt ->
     forall f, cache_unset f (self (final (data_setter v s)))).
Proof.
  split; [| split; [| split]].
  - intros f Hf. destruct f; try congruence.
    + apply cached_dtype.
    + apply cached_device.
    + apply cached_size.
    + apply cached_itemsize.
    + apply cached_strides.
  - apply first_read_computes.
  - intros a w. reflexivity.
  - intros v s H f. destruct (data_setter_resets v s H) as (_ & ? & ? & ? & ? & ?).
    destruct f; simpl; auto.
Qed.

Lemma metadata_cached_except_shape_witness :
  (events (read_field FSize (mkFrame numpy_array (world_with [numpy_backend])))
     = [Introspect FSize (_data numpy_array)] /\
   outcome (read_field FSize (mkFrame numpy_array (world_with [numpy_backend])))
     = inr (metadata_of FSize (_data numpy_array))) /\
  metadata_of FSize (_data numpy_array) = MSize (Some 3) /\
  events (read_field FDtype
            (final (read_field FDtype
                      (mkFrame numpy_array (world_with [numpy_backend]))))) = [] /\
  cache_unset FSize
    (self (final (data_setter (PTensor (vector "numpy" [4; 5]))
                    (mkFrame numpy_array (world_with [numpy_backend]))))).
Proof.
  destruct metadata_cached_except_shape as (Hcached & Hfirst & _ & Hreset).
  split; [| split; [reflexivity | split]].
  - apply (Hfirst FSize numpy_array (world_with [numpy_backend])).
    + discriminate.
    + reflexivity.
  - apply (Hcached FDtype ltac:(discriminate) numpy_array
             (world_with [numpy_backend]) (MDtype (Some int32))).
    reflexivity.
  - apply (Hreset (PTensor (vector "numpy" [4; 5]))
             (mkFrame numpy_array (world_with [numpy_backend]))).
    reflexivity.
Defined.

(** C6 (as stated) fails on [shape]: the second read of [x.shape] asks the
    wrapped tensor for its shape again. *)
Lemma all_six_fields_cached_fails : ~ all_six_fields_cached.
Proof.
  intro H.
  destruct (H FShape numpy_array (world_with [numpy_backend]) (MShape [3]) eq_refl)
    as [_ He].
  revert He. vm_compute. discriminate.
Qed.

(** *** Attributes a method leaves alone *)

Section Keeps.
Context {X : Type} (proj : Array -> X).

Lemma keeps_ret {A} (a : A) : keeps proj (ret a).
Proof. intro s. reflexivity. Qed.

Lemma keeps_raise {A} (e : Exc) : keeps proj (@raise Frame A e).
Proof. intro s. reflexivity. Qed.

Lemma keeps_get : keeps proj (@get Frame).
Proof. intro s. reflexivity. Qed.

Lemma keeps_this : keeps proj this.
Proof. intro s. reflexivity. Qed.

Lemma keeps_liftW {A} (m : M A) : keeps proj (liftW m).
Proof.
  intro s. unfold liftW. destruct (m (world s)) as [[r w1] ev]. reflexivity.
Qed.

Lemma keeps_assign (f : Array -> Array) :
  (forall a, proj (f a) = proj a) -> keeps proj (assign f).
Proof. intros H s. simpl. apply H. Qed.

Lemma keeps_bind {A B} (m : Meth A) (k : A -> Meth B) :
  keeps proj m -> (forall a, keeps proj (k a)) -> keeps proj (bind m k).
Proof.
  intros Hm Hk s. unfold bind. specialize (Hm s).
  destruct (m s) as [[r s1] ev1]. simpl in Hm.
  destruct r as [e | a]; simpl; auto.
  specialize (Hk a s1). destruct (k a s1) as [[r2 s2] ev2]. simpl in *.
  congruence.
Qed.

Lemma keeps_try {A} (m : Meth A) (h : Exc -> Meth A) :
  keeps proj m -> (forall e, keeps proj (h e)) -> keeps proj (try_except m h).
Proof.
  intros Hm Hh s. unfold try_except. specialize (Hm s).
  destruct (m s) as [[r s1] ev1]. simpl in Hm.
  destruct r as [e | a]; simpl; auto.
  specialize (Hh e s1). destruct (h e s1) as [[r2 s2] ev2]. simpl in *.
  congruence.
Qed.
End Keeps.

Ltac keeps_step :=
  first [ apply keeps_ret | apply keeps_raise | apply keeps_get
        | apply keeps_this | apply keeps_liftW
        | apply keeps_assign; intro; reflexivity
        | apply keeps_bind | apply keeps_try | split_match ].

Ltac keeps_tac := repeat (intros; keeps_step).

Lemma keeps_backend_getitem (q : Query) : keeps backend (__getitem__ q).
Proof. unfold __getitem__, handle_view_indexing. keeps_tac. Qed.

Lemma keeps_backend_getattr (item : string) : keeps backend (__getattr__ item).
Proof. unfold __getattr__. keeps_tac. Qed.

Lemma keeps_backend_dynamic_setter (value : bool) :
  keeps backend (dynamic_backend_setter value).
Proof.
  unfold dynamic_backend_setter, self__backend_attr, data.
  keeps_tac; apply keeps_backend_getattr.
Qed.

(** The fallback of [__setitem__] announces itself first. *)
Lemma scatter_emits (q : Query) (v : PyVal) (s : Frame) :
  exists rest,
    events (ivy_scatter_nd q v s) = ScatterNd q v (_data (self s)) :: rest.
Proof.
  unfold ivy_scatter_nd, this, liftW, emit, bind, get, ret. simpl.
  destruct (scatter_replace (_data (self s)) q v); simpl.
  - eauto.
  - match goal with
    | |- context [data_setter ?x ?y] => destruct (data_setter x y) as [[r s1] ev]
    end.
    destruct r; simpl; eauto.
Qed.

Lemma bind_first_event {S A B} (m : @ST S A) (k : A -> @ST S B) (s : S)
    (e : Event) (rest : list Event) :
  events (m s) = e :: rest ->
  exists rest', events (bind m k s) = e :: rest'.
Proof.
  unfold bind. destruct (m s) as [[r s1] ev1]. simpl. intros ->.
  destruct r as [x | a]; simpl; eauto.
  destruct (k a s1) as [[r2 s2] ev2]. simpl. eauto.
Qed.

Lemma unless_scatter_of_keeps {A} (m : Meth A) :
  keeps backend m -> keeps_unless_scatter m.
Proof. intros H s. left. apply H. Qed.

Lemma unless_scatter_bind {A B} (m : Meth A) (k : A -> Meth B) :
  keeps_unless_scatter m -> (forall a, keeps_unless_scatter (k a)) ->
  keeps_unless_scatter (bind m k).
Proof.
  intros Hm Hk s. unfold bind. specialize (Hm s).
  destruct (m s) as [[r s1] ev1]. simpl in Hm.
  destruct r as [e | a]; simpl; auto.
  specialize (Hk a s1). destruct (k a s1) as [[r2 s2] ev2]. simpl in *.
  destruct Hm as [Hm | (q & v & t & Hm)].
  - destruct Hk as [Hk | (q & v & t & Hk)].
    + left. congruence.
    + right. exists q, v, t. apply in_or_app. auto.
  - right. exists q, v, t. apply in_or_app. auto.
Qed.

Lemma unless_scatter_setitem (q : Query) (v : PyVal) :
  keeps_unless_scatter (__setitem__ q v).
Proof.
  unfold __setitem__, setitem_write.
  repeat (apply unless_scatter_bind;
          [apply unless_scatter_of_keeps; keeps_tac;
           try apply keeps_backend_getitem | intros]).
  intro s. unfold try_except.
  match goal with
  | |- context [match ?m s with _ => _ end] =>
      assert (Hk : keeps backend m) by keeps_tac;
      specialize (Hk s); destruct (m s) as [[r s1] ev1]
  end.
  simpl in Hk. destruct r as [e | u]; simpl; auto.
  match goal with
  | |- context [bind (ivy_scatter_nd ?q' ?v') ?k s1] =>
      destruct (scatter_emits q' v' s1) as [rest Hr];
      destruct (bind_first_event (ivy_scatter_nd q' v') k s1 _ _ Hr) as [rest' Hr'];
      destruct (bind (ivy_scatter_nd q' v') k s1) as [[r2 s2] ev2];
      simpl in Hr'; subst ev2;
      right; exists q', v', (_data (self s1))
  end.
  simpl. apply in_or_app. right. left. reflexivity.
Qed.

(** C5 (as amended). Assigning a native tensor to [data] runs [_init]
    again and sets [backend] to the string of the backend active at that
    moment; the [dynamic_backend] setter never changes [backend], and
    neither does an indexed assignment that does not go through the
    scatter fallback. *)
Theorem backend_attr_reset_by_data_setter :
  (forall v s, outcome (data_setter v s) = inr tt ->
     backend (self (final (data_setter v s))) = active_backend_str (world s)) /\
  (forall value s,
     backend (self (final (dynamic_backend_setter value s))) = backend (self s)) /\
  (forall q v s,
     (forall q' v' t, ~ In (ScatterNd q' v' t) (events (__setitem__ q v s))) ->
     backend (self (final (__setitem__ q v s))) = backend (self s)).
Proof.
  split; [| split].
  - intros v s H. apply (data_setter_resets v s H).
  - intros value s. apply keeps_backend_dynamic_setter.
  - intros q v s H. destruct (unless_scatter_setitem q v s) as [K | (q' & v' & t & K)].
    + exact K.
    + exfalso. exact (H q' v' t K).
Qed.

Lemma backend_attr_reset_by_data_setter_witness :
  backend
    (self (final (data_setter (PTensor (vector "torch" [4; 5; 6]))
                    (mkFrame numpy_array
                       (world_with [torch_backend; numpy_backend])))))
  = active_backend_str
      (world (mkFrame numpy_array (world_with [torch_backend; numpy_backend]))) /\
  backend
    (self (final (__setitem__ (QInt 0) (PScalar 9)
                    (mkFrame numpy_array (world_with [numpy_backend])))))
  = backend (self (mkFrame numpy_array (world_with [numpy_backend]))).
Proof.
  split.
  - apply backend_attr_reset_by_data_setter.
    vm_compute. reflexivity.
  - apply backend_attr_reset_by_data_setter.
    intros q' v' t. vm_compute.
    intros [H | H]; [discriminate H | exact H].
Defined.

(** C5 (as stated) fails: an Array made under numpy, whose [data] is
    assigned a torch tensor once torch is active, has [backend] "torch"
    afterwards. *)
Lemma backend_attr_fixed_after_construction_fails :
  ~ backend_attr_fixed_after_construction.
Proof.
  intros [H _].
  specialize (H numpy_array (world_with [torch_backend; numpy_backend])
                (PTensor (vector "torch" [4; 5; 6]))).
  revert H. vm_compute. discriminate.
Qed.

(** *** Pickling and the backend stack *)

Lemma with_stack_same (w : World) : with_stack w (backend_stack w) = w.
Proof. destruct w. reflexivity. Qed.

(** With a recorded backend name, a restore that returns leaves the
    process state as it found it. *)
Lemma setstate_recorded_restores (st : PickleState) (name : string) (s : Frame) :
  state_backend st = Some name -> name <> "" ->
  outcome (__setstate__ st s) = inr tt ->
  world (final (__setstate__ st s)) = world s.
Proof.
  intros Hb Hn. unfold __setstate__. rewrite Hb.
  destruct name as [| c name']; [congruence |].
  cbn [String.length Z.of_nat Z.ltb Z.compare].
  pose proof (pure_ivy_array (PTensor (state_data st))) as Hp.
  remember (ivy_array (PTensor (state_data st))) as mk eqn:Hmk. clear Hmk.
  unfold set_backend, previous_backend, liftW, bind, get, put, ret, raise. simpl.
  destruct (lookup_backend (String c name') (registry (world s))) as [b |];
    simpl; [| discriminate].
  match goal with
  | |- context [mk ?w1] =>
      destruct (Hp w1) as [Hw He]; destruct (mk w1) as [[r w2] ev]
  end.
  simpl in Hw, He. subst w2 ev.
  destruct r as [e | arr]; simpl; [discriminate |].
  intros _. destruct (world s). reflexivity.
Qed.

(** C7. An Array made while no backend was set pickles with an empty
    backend name; restoring that state while numpy is set returns
    normally and leaves the backend stack empty: the pop answers no
    push. *)
Theorem setstate_empty_name_pops_the_callers_backend :
  state_backend (pickled implicit_array (world_with [])) = Some "" /\
  outcome (__setstate__ (pickled implicit_array (world_with []))
             (mkFrame blank (world_with [numpy_backend]))) = inr tt /\
  backend_stack
    (world (final (__setstate__ (pickled implicit_array (world_with []))
                     (mkFrame blank (world_with [numpy_backend]))))) = [].
Proof. vm_compute. repeat split; reflexivity. Qed.

(** *** Dynamic backend *)

Lemma constructed_backend_slot_unset (v : PyVal) (dyn : option bool)
    (w : World) (a : Array) :
  outcome (Array_new v dyn w) = inr a -> _backend a = Unset.
Proof.
  unfold Array_new. run.
  repeat (split_match; simpl); intros; try discriminate;
    match goal with H : inr _ = inr _ |- _ => inversion H; subst; clear H end;
    simpl in *; try discriminate; auto.
Qed.

(** Assigning [True] to [dynamic_backend] on an Array whose [_backend]
    was never assigned raises, with the receiver as it was. *)
Lemma dynamic_backend_true_needs_backend_slot (a : Array) (w : World) :
  _backend a = Unset ->
  dynamic_backend_setter true (mkFrame a w)
  = (inl (AttributeError "_backend"), mkFrame a w, []).
Proof.
  intro H. unfold dynamic_backend_setter, self__backend_attr, __getattr__. run.
  rewrite H. reflexivity.
Qed.

(** Assigning [False] binds [_backend], leaves [_data] alone and stores
    the flag. *)
Lemma dynamic_backend_false_pins (a : Array) (w : World) :
  dynamic_backend_setter false (mkFrame a w)
  = (inr tt,
     mkFrame (set__dynamic_backend false
                (set__backend
                   (Bound (_determine_backend_from_args (registry w) [PArr a])) a))
             w,
     []).
Proof. reflexivity. Qed.

(** C4. An Array straight from the constructor, built with
    [dynamic_backend=False] under torch: assigning [True] to
    [dynamic_backend] raises [AttributeError], the stored flag is still
    [False] and [_data] is the tensor it was. *)
Theorem dynamic_backend_true_raises_on_constructed_array :
  _dynamic_backend torch_array = false /\
  outcome (dynamic_backend_setter true
             (mkFrame torch_array (world_with [numpy_backend; torch_backend])))
    = inl (AttributeError "_backend") /\
  _dynamic_backend
    (self (final (dynamic_backend_setter true
                    (mkFrame torch_array
                       (world_with [numpy_backend; torch_backend]))))) = false /\
  _data
    (self (final (dynamic_backend_setter true
                    (mkFrame torch_array
                       (world_with [numpy_backend; torch_backend])))))
    = vector "torch" [1; 2; 3].
Proof. vm_compute. repeat split; reflexivity. Qed.

(** Once [False] was assigned, assigning [True] under another backend
    re-materialises the payload under it, element for element. *)
Example dynamic_backend_true_after_false :
  let w := world_with [numpy_backend; torch_backend] in
  let pinned := self (final (dynamic_backend_setter false (mkFrame torch_array w))) in
  let r := dynamic_backend_setter true (mkFrame pinned w) in
  outcome r = inr tt /\
  _dynamic_backend (self (final r)) = true /\
  t_lib (_data (self (final r))) = "numpy" /\
  t_elems (_data (self (final r))) = [1; 2; 3].
Proof. vm_compute. repeat split; reflexivity. Qed.

(** *** Indexed assignment *)

Lemma bind_run {S A B} (m : @ST S A) (k : A -> @ST S B) (s : S) :
  bind m k s =
  match m s with
  | (inl e, s1, ev1) => (inl e, s1, ev1)
  | (inr a, s1, ev1) =>
      match k a s1 with
      | (r, s2, ev2) => (r, s2, ev1 ++ ev2)
      end
  end.
Proof. reflexivity. Qed.

Lemma map_nth_seq (l : list Z) :
  map (fun i => nth i l 0) (seq 0 (List.length l)) = l.
Proof.
  induction l as [| x l IH]; simpl; [reflexivity |].
  rewrite <- seq_shift, map_map. simpl. rewrite IH. reflexivity.
Qed.

Lemma length_store (i : nat) (v : Z) (l : list Z) :
  List.length (store i v l) = List.length l.
Proof.
  revert i. induction l as [| x l IH]; intros [| i]; simpl; auto.
Qed.

Lemma nth_store (p i : nat) (v : Z) (l : list Z) :
  (i < List.length l)%nat ->
  nth i (store p v l) 0 = if Nat.eqb p i then v else nth i l 0.
Proof.
  revert p i. induction l as [| x l IH]; intros p i H; simpl in H; [lia |].
  destruct p as [| p], i as [| i]; simpl; auto.
  apply IH. lia.
Qed.

(** Storing position by position and rebuilding the whole tensor give
    the same elements. *)
Lemma write_all_rebuild (ps : list nat) (vs l : list Z) :
  write_all ps vs l = rebuild ps vs l.
Proof.
  unfold write_all, rebuild.
  generalize (combine ps vs) as pvs. clear ps vs.
  intro pvs. revert l. induction pvs as [| [p v] pvs IH]; intro l; simpl.
  - symmetry. apply map_nth_seq.
  - rewrite IH, length_store. apply map_ext_in. intros i Hi.
    apply in_seq in Hi. destruct (last_update i pvs); [reflexivity |].
    rewrite nth_store by lia. destruct (Nat.eqb p i); reflexivity.
Qed.

Ltac same_lookup :=
  repeat match goal with
         | H : Some _ = Some _ |- _ => inversion H; subst; clear H
         | H : inr _ = inr _ |- _ => inversion H; subst; clear H
         | H : _ :: _ = _ :: _ |- _ => inversion H; subst; clear H
         end;
  try congruence.

Lemma to_ivy_tensor (t : NativeArray) (w : World) (r : PyVal) :
  outcome (to_ivy (PTensor t) w) = inr r -> tensor_of r = Some t.
Proof.
  unfold to_ivy, Array_new. run.
  repeat (split_match; simpl); intros; try discriminate;
    same_lookup; simpl in *; try discriminate; auto; same_lookup.
Qed.

Lemma get_item_target (t : NativeArray) (q : Query) (w : World) (r : PyVal) :
  outcome (get_item t q w) = inr r ->
  exists ps shp t0,
    positions (t_shape t) q = inr (ps, shp) /\
    tensor_of r = Some t0 /\ t_shape t0 = shp /\
    List.length (t_elems t0) = List.length ps.
Proof.
  unfold get_item. destruct (positions (t_shape t) q) as [e | [ps shp]].
  - discriminate.
  - intro H. apply to_ivy_tensor in H.
    eexists ps, shp, _. repeat split; eauto. simpl. apply length_map.
Qed.

Lemma quiet_getitem (q : Query) : quiet (__getitem__ q).
Proof. unfold __getitem__, handle_view_indexing. pure_tac. Qed.

Lemma keeps_data_getitem (q : Query) : keeps _data (__getitem__ q).
Proof. unfold __getitem__, handle_view_indexing. keeps_tac. Qed.

Lemma getitem_target (q : Query) (s : Frame) (r : PyVal) :
  outcome (__getitem__ q s) = inr r ->
  exists ps shp t0,
    positions (t_shape (_data (self s))) q = inr (ps, shp) /\
    tensor_of r = Some t0 /\ t_shape t0 = shp /\
    List.length (t_elems t0) = List.length ps.
Proof.
  unfold __getitem__, handle_view_indexing, this, liftW, assign, bind, get,
    put, ret. simpl.
  destruct (get_item (_data (self s)) q (world s)) as [[r0 w1] ev] eqn:E.
  assert (G : outcome (get_item (_data (self s)) q (world s)) = r0)
    by (rewrite E; reflexivity).
  destruct r0 as [e | r0]; simpl; [discriminate |].
  apply get_item_target in G. destruct G as (ps & shp & t0 & Hp & Ht & Hs & Hl).
  destruct r0; simpl; intro H; inversion H; subst; simpl in *;
    try discriminate; eauto 8.
Qed.

Lemma ones_like_times_run (target : PyVal) (z : Z) (w : World) (r : PyVal)
    (t : NativeArray) :
  tensor_of target = Some t ->
  outcome (ones_like_times target (PScalar z) w) = inr r ->
  exists t0,
    tensor_of r = Some t0 /\ t_shape t0 = t_shape t /\
    t_elems t0 = repeat z (List.length (t_elems t)).
Proof.
  intros Ht H.
  assert (R : map (fun _ : Z => 1 * z) (t_elems t) = repeat z (List.length (t_elems t))).
  { induction (t_elems t) as [| x l IH]; [reflexivity |].
    cbn [map repeat List.length]. rewrite IH, Z.mul_1_l. reflexivity. }
  destruct target; simpl in Ht; try discriminate; inversion Ht; subst;
    unfold ones_like_times in H; apply to_ivy_tensor in H;
    eexists; (split; [exact H |]); simpl; auto.
Qed.

Lemma data_setter_sets (t : NativeArray) (s : Frame) :
  outcome (data_setter (PTensor t) s) = inr tt ->
  let a := self (final (data_setter (PTensor t) s)) in
  _data a = t /\ backend a = active_backend_str (world s) /\
  _dynamic_backend a = ivy_dynamic_backend (world s).
Proof.
  destruct s as [a0 w]. run.
  repeat (split_match; simpl); intros; try discriminate; repeat split;
    same_lookup; auto.
Qed.

Lemma detach_payload (t d : NativeArray) :
  detach t = inr d ->
  t_lib d = t_lib t /\ t_shape d = t_shape t /\ t_dtype d = t_dtype t /\
  t_elems d = t_elems t /\ t_grad d = false.
Proof.
  unfold detach.
  destruct (String.eqb (t_lib t) "torch" || String.eqb (t_lib t) "paddle");
    [| discriminate].
  intro H. inversion H. simpl. repeat split; reflexivity.
Qed.

Lemma keeps_seen_getitem (q : Query) :
  keeps (fun a => (_data a, backend a, _dynamic_backend a)) (__getitem__ q).
Proof. unfold __getitem__, handle_view_indexing. keeps_tac. Qed.

(** What the part of an indexed assignment that follows the detach does,
    case by case. *)
Lemma setitem_write_cases (q : Query) (v : PyVal) (a : Array) (w : World) :
  let r := setitem_write q v (mkFrame a w) in
  let t := _data a in
  (events r = [] /\ exists e, outcome r = inl e) \/
  exists ps shp v',
    positions (t_shape t) q = inr (ps, shp) /\
    coerced v v' shp (List.length ps) /\
    match native_store (registry w) t q v' with
    | inr t' =>
        outcome r = inr tt /\ events r = [NativeSetitem t q v'] /\
        _data (self (final r)) = t' /\
        backend (self (final r)) = backend a /\
        _dynamic_backend (self (final r)) = _dynamic_backend a
    | inl _ =>
        match scatter_replace t q v' with
        | inl e =>
            outcome r = inl e /\
            events r = [NativeSetitem t q v'; ScatterNd q v' t]
        | inr t'' =>
            (exists e, outcome r = inl e /\
                       events r = [NativeSetitem t q v'; ScatterNd q v' t]) \/
            (outcome r = inr tt /\
             events r = [NativeSetitem t q v'; ScatterNd q v' t;
                         Introspect FDtype t''] /\
             _data (self (final r)) = t'' /\
             _dtype (self (final r)) = Some (t_dtype t'') /\
             backend (self (final r)) = active_backend_str w /\
             _dynamic_backend (self (final r)) = ivy_dynamic_backend w)
        end
    end.
Proof.
  intros r t. subst r t.
  remember (setitem_write q v (mkFrame a w)) as res eqn:Hr.
  revert Hr.
  pose proof (quiet_getitem q) as Gq.
  pose proof (keeps_seen_getitem q) as Gk.
  pose proof (getitem_target q) as Gt.
  pose proof pure_ones_like_times as Op.
  pose proof ones_like_times_run as Or.
  pose proof quiet_data_setter as Dq.
  pose proof data_setter_sets as Dt.
  unfold quiet, keeps, pure_call in *.
  unfold setitem_write, ivy_scatter_nd.
  generalize dependent (__getitem__ q). intros getitem Gq Gk Gt.
  generalize dependent ones_like_times. intros olt Op Or.
  generalize dependent data_setter. intros dsetter Dq Dt.
  cbv beta iota delta [bind liftW this assign try_except call_on get put ret
    raise native_setitem ivy_scatter_nd data emit ivy_dtype].
  simpl.
  destruct v as [| z | x | tv | c]; cbv beta iota; simpl;
    match goal with
    | |- context [getitem ?s1] =>
        specialize (Gq s1); specialize (Gk s1); specialize (Gt s1);
        destruct (getitem s1) as [[rg sg] evg]
    end;
    simpl in Gq, Gk, Gt; destruct Gq as [Gw Ge]; subst evg;
    (destruct rg as [e | target];
     [ simpl; intros ->; left; simpl; eauto |]);
    destruct (Gt target eq_refl) as (ps & shp & t0 & Hpos & Htar & Hshp & Hlen);
    clear Gt;
    assert (Hsc : isscalar target = false)
      by (destruct target; simpl in Htar; try discriminate; reflexivity);
    rewrite Hsc; cbn [negb andb isscalar];
    destruct sg as [ag wg]; cbn [self world] in *; subst wg;
    injection Gk as Gd Gb Gy;
    try (specialize (Op target (PScalar z) w);
         specialize (Or target z w);
         destruct (olt target (PScalar z) w) as [[ro wo] evo];
         simpl in Op, Or; destruct Op as [Ow Oe]; subst wo evo;
         destruct ro as [e | v'];
         [ simpl; intros ->; left; simpl; eauto |];
         destruct (Or v' t0 Htar eq_refl) as (t1 & Ht1 & Hs1 & He1); clear Or);
    intro Hres; right;
    match goal with
    | _ : context [native_store _ _ _ ?v'] |- _ => exists ps, shp, v'
    end;
    (split; [exact Hpos |]);
    (split;
     [ first [ reflexivity
             | exists t1; rewrite <- Hlen; repeat split; congruence ] |]);
    revert Hres; cbn [self world]; rewrite ?Gd;
    (match goal with
     | |- context [native_store ?r ?t ?q' ?v'] =>
         destruct (native_store r t q' v') as [en | t'] eqn:En
     end;
     [| simpl; intros ->; simpl; repeat split; auto ]);
    cbn [self world]; rewrite ?Gd;
    (match goal with
     | |- context [scatter_replace ?t ?q' ?v'] =>
         destruct (scatter_replace t q' v') as [es | t''] eqn:Es
     end;
     [ simpl; intros ->; simpl; repeat split; reflexivity |]);
    match goal with
    | |- context [dsetter ?x ?s] =>
        specialize (Dq x s); specialize (Dt t'' s);
        destruct (dsetter x s) as [[rd sd] evd]
    end;
    simpl in Dq, Dt; destruct Dq as [Dw De]; subst evd;
    (destruct rd as [ed | []]; simpl; intros ->; simpl;
     [ left; eauto |]);
    right; destruct (Dt eq_refl) as (D1 & D2 & D3);
    rewrite ?D1; repeat split; auto.
Qed.

Lemma set__data_same (a : Array) : set__data (_data a) a = a.
Proof. destruct a. reflexivity. Qed.

(** An indexed assignment raises where the detach does, before anything
    else; otherwise it is the write, on the Array with the tensor the
    write goes to. *)
Lemma setitem_cases (q : Query) (v : PyVal) (a : Array) (w : World) :
  match write_target w a with
  | inl e => __setitem__ q v (mkFrame a w) = (inl e, mkFrame a w, [])
  | inr t =>
      __setitem__ q v (mkFrame a w)
      = setitem_write q v (mkFrame (set__data t a) w)
  end.
Proof.
  unfold __setitem__, write_target.
  remember (setitem_write q v) as W eqn:HW. clear HW.
  unfold current_backend_str, liftW, this, assign, bind, get, put, ret, raise.
  simpl.
  destruct (String.eqb (active_backend_str w) "torch"); simpl.
  - destruct (detach (_data a)) as [e | d]; simpl; [reflexivity |].
    destruct (W _) as [[r s] ev]. reflexivity.
  - rewrite set__data_same. simpl. destruct (W _) as [[r s] ev]. reflexivity.
Qed.


Lemma native_store_keeps (reg : list Backend) (t : NativeArray) (q : Query)
    (v : PyVal) (t' : NativeArray) :
  native_store reg t q v = inr t' ->
  t_dtype t' = t_dtype t /\ t_grad t' = t_grad t || tracked v.
Proof.
  unfold native_store.
  repeat (split_match; try discriminate).
  intro H. inversion H. split; reflexivity.
Qed.

Lemma scatter_replace_dtype (t : NativeArray) (q : Query) (v : PyVal)
    (t' : NativeArray) :
  scatter_replace t q v = inr t' ->
  t_dtype t' = scatter_dtype (t_dtype t) v.
Proof.
  unfold scatter_replace.
  repeat (split_match; try discriminate).
  intro H. inversion H. reflexivity.
Qed.

(** What an indexed assignment that returns has done. *)
Lemma setitem_returns (q : Query) (v : PyVal) (a : Array) (w : World)
    (t : NativeArray) :
  write_target w a = inr t ->
  let r := __setitem__ q v (mkFrame a w) in
  outcome r = inr tt ->
  exists ps shp v',
    positions (t_shape (_data a)) q = inr (ps, shp) /\
    coerced v v' shp (List.length ps) /\
    ((exists t', native_store (registry w) t q v' = inr t' /\
                 events r = [NativeSetitem t q v'] /\
                 _data (self (final r)) = t' /\
                 seen_by_caller (self (final r)) = seen_by_caller a)
     \/
     (exists e t'', native_store (registry w) t q v' = inl e /\
                    scatter_replace t q v' = inr t'' /\
                    events r = [NativeSetitem t q v'; ScatterNd q v' t;
                                Introspect FDtype t''] /\
                    _data (self (final r)) = t'' /\
                    _dtype (self (final r)) = Some (t_dtype t'') /\
                    seen_by_caller (self (final r))
                    = (active_backend_str w, ivy_dynamic_backend w,
                       scatter_dtype (t_dtype (_data a)) v'))).
Proof.
  intros Ht r Hok. subst r.
  assert (Hsh : t_shape t = t_shape (_data a) /\ t_dtype t = t_dtype (_data a)).
  { unfold write_target in Ht.
    destruct (String.eqb (active_backend_str w) "torch").
    - apply detach_payload in Ht. tauto.
    - inversion Ht. split; reflexivity. }
  destruct Hsh as [Hsh Hdt].
  pose proof (setitem_cases q v a w) as Hc. rewrite Ht in Hc.
  rewrite Hc in *.
  destruct (setitem_write_cases q v (set__data t a) w)
    as [[_ [e He]] | (ps & shp & v' & Hpos & Hco & Hm)];
    cbn [_data set__data backend _dynamic_backend] in *.
  { rewrite Hok in He. discriminate. }
  rewrite Hsh in Hpos.
  exists ps, shp, v'. split; [exact Hpos |]. split; [exact Hco |].
  destruct (native_store (registry w) t q v') as [en | t'] eqn:En.
  - destruct (scatter_replace t q v') as [es | t''] eqn:Es.
    + destruct Hm as [Hm _]. rewrite Hok in Hm. discriminate.
    + destruct Hm as [[e [He _]] | (_ & Hev & Hd & Hdty & Hb & Hy)].
      { rewrite Hok in He. discriminate. }
      right. exists en, t''. repeat split; auto.
      unfold seen_by_caller. rewrite Hb, Hy, Hd.
      rewrite (scatter_replace_dtype _ _ _ _ Es), Hdt. reflexivity.
  - destruct Hm as (_ & Hev & Hd & Hb & Hy).
    left. exists t'. repeat split; auto.
    unfold seen_by_caller. rewrite Hb, Hy, Hd.
    destruct (native_store_keeps _ _ _ _ _ En) as [-> _]. rewrite Hdt.
    reflexivity.
Qed.




(** The same assignment on a numpy array takes the native path: one
    event, and the caller sees what it saw. *)
Example setitem_native_path :
  let r := __setitem__ (QInt 1) (PScalar 9)
             (mkFrame numpy_array (world_with [numpy_backend])) in
  List.length (events r) = 1%nat /\
  _data (self (final r)) = vector "numpy" [1; 9; 3] /\
  seen_by_caller (self (final r)) = seen_by_caller numpy_array.
Proof. vm_compute. repeat split; reflexivity. Qed.

(** Slices and negative indices select the rows Python selects. *)
Example setitem_selected_rows :
  let run q v := _data (self (final (__setitem__ q v
                    (mkFrame numpy_array (world_with [numpy_backend]))))) in
  run (QInt (-1)) (PScalar 9) = vector "numpy" [1; 2; 9] /\
  run (QSlice 0 2) (PScalar 9) = vector "numpy" [9; 9; 3] /\
  run (QSlice (-2) 5) (PTensor (vector "numpy" [7; 8])) = vector "numpy" [1; 7; 8] /\
  run QEllipsis (PScalar 0) = vector "numpy" [0; 0; 0].
Proof. vm_compute. repeat split; reflexivity. Qed.

(** A value outside the range of the element type is cast on the native
    path, while the scatter widens the tensor to the element type of the
    updates. *)
Example setitem_casts_or_widens :
  let small lib := mkNative lib [2] int8 "cpu" [1; 2] false in
  let wide lib := PTensor (mkNative lib [1] int64 "cpu" [300] false) in
  let run lib b :=
    _data (self (final (__setitem__ (QInt 0) (wide lib)
                          (mkFrame (built (PTensor (small lib)) None (world_with [b]))
                             (world_with [b]))))) in
  run "numpy" numpy_backend = mkNative "numpy" [2] int8 "cpu" [44; 2] false /\
  run "jax" jax_backend = mkNative "jax" [2] int64 "cpu" [300; 2] false.
Proof. vm_compute. repeat split; reflexivity. Qed.

Lemma setitem_write_events (q : Query) (v : PyVal) (a : Array) (w : World)
    (d t : NativeArray) (q' : Query) (v' : PyVal) :
  write_target w a = inr d ->
  In (NativeSetitem t q' v') (events (__setitem__ q v (mkFrame a w))) ->
  t = d.
Proof.
  intro Ht.
  pose proof (setitem_cases q v a w) as Hc. rewrite Ht in Hc. rewrite Hc.
  destruct (setitem_write_cases q v (set__data d a) w)
    as [[He _] | (ps & shp & v0 & _ & _ & Hm)]; cbn [_data set__data] in *.
  - rewrite He. intros [].
  - destruct (native_store (registry w) d q v0).
    + destruct (scatter_replace d q v0).
      * destruct Hm as [_ ->]. simpl.
        intros [H | [H | []]]; inversion H; reflexivity.
      * destruct Hm as [[e' [_ ->]] | (_ & -> & _)]; simpl.
        -- intros [H | [H | []]]; inversion H; reflexivity.
        -- intros [H | [H | [H | []]]]; inversion H; reflexivity.
    + destruct Hm as (_ & -> & _). simpl.
      intros [H | []]. inversion H. reflexivity.
Qed.

Lemma setitem_attempts_write (q : Query) (v : PyVal) (a : Array) (w : World)
    (d : NativeArray) :
  write_target w a = inr d ->
  outcome (__setitem__ q v (mkFrame a w)) = inr tt ->
  exists v', In (NativeSetitem d q v')
               (events (__setitem__ q v (mkFrame a w))).
Proof.
  intros Ht Hok.
  destruct (setitem_returns q v a w d Ht Hok)
    as (ps & shp & v' & _ & _ &
        [(t' & _ & Hev & _) | (e & t'' & _ & _ & Hev & _)]);
    exists v'; rewrite Hev; left; reflexivity.
Qed.

(** After a native assignment that returns, the wrapped tensor is
    attached to a gradient graph exactly when the tensor written into or
    the value handed on is. *)
Lemma setitem_native_gradient (q : Query) (v : PyVal) (a : Array) (w : World)
    (d : NativeArray) :
  write_target w a = inr d ->
  let r := __setitem__ q v (mkFrame a w) in
  outcome r = inr tt ->
  (forall q' v' t, ~ In (ScatterNd q' v' t) (events r)) ->
  exists v', In (NativeSetitem d q v') (events r) /\
             t_grad (_data (self (final r))) = t_grad d || tracked v'.
Proof.
  intros Ht r Hok Hns. subst r.
  destruct (setitem_returns q v a w d Ht Hok)
    as (ps & shp & v' & _ & _ &
        [(t' & En & Hev & Hd & _) | (e & t'' & _ & _ & Hev & _)]).
  - exists v'. split; [rewrite Hev; left; reflexivity |].
    rewrite Hd. apply (native_store_keeps _ _ _ _ _ En).
  - exfalso. apply (Hns q v' d). rewrite Hev. right. left. reflexivity.
Qed.

(** C10 (as amended). While torch is the active backend, an indexed
    assignment starts with [self._data.detach()].  When the wrapped
    tensor has that method, the tensor [d] it gives is off the gradient
    graph, every native assignment is attempted on [d], an assignment
    that returns has attempted one, and after one that returns without
    the scatter fallback the wrapped tensor is attached to a gradient
    graph exactly when the value handed on is.  When the wrapped tensor
    has no such method, the assignment raises [AttributeError] and the
    Array, the process state and the backend layer are untouched.  Under
    any other active backend the native assignment is attempted on the
    wrapped tensor itself. *)
Theorem setitem_detaches_under_torch (q : Query) (v : PyVal) (a : Array)
    (w : World) :
  let r := __setitem__ q v (mkFrame a w) in
  (active_backend_str w = "torch" ->
     (forall d, detach (_data a) = inr d ->
        t_grad d = false /\
        (forall t q' v', In (NativeSetitem t q' v') (events r) -> t = d) /\
        (outcome r = inr tt ->
           exists v', In (NativeSetitem d q v') (events r)) /\
        (outcome r = inr tt ->
           (forall q' v' t, ~ In (ScatterNd q' v' t) (events r)) ->
           exists v', In (NativeSetitem d q v') (events r) /\
                      t_grad (_data (self (final r))) = tracked v')) /\
     (forall e, detach (_data a) = inl e ->
        r = (inl e, mkFrame a w, []))) /\
  (active_backend_str w <> "torch" ->
     (forall t q' v', In (NativeSetitem t q' v') (events r) -> t = _data a) /\
     (outcome r = inr tt ->
        exists v', In (NativeSetitem (_data a) q v') (events r))).
Proof.
  intro r. subst r. split; intro Hb.
  - assert (Ht : write_target w a = detach (_data a)).
    { unfold write_target. rewrite Hb. reflexivity. }
    split.
    + intros d Hd. rewrite Hd in Ht.
      destruct (detach_payload _ _ Hd) as (_ & _ & _ & _ & Hg).
      split; [exact Hg |]. split; [| split].
      * intros t q' v' Hin. eapply setitem_write_events; eauto.
      * intro Hok. apply setitem_attempts_write; assumption.
      * intros Hok Hns.
        destruct (setitem_native_gradient q v a w d Ht Hok Hns)
          as (v' & Hin & Hgr).
        exists v'. split; [exact Hin |]. rewrite Hgr, Hg. reflexivity.
    + intros e He. rewrite He in Ht.
      pose proof (setitem_cases q v a w) as Hc. rewrite Ht in Hc. exact Hc.
  - assert (Ht : write_target w a = inr (_data a)).
    { unfold write_target.
      destruct (String.eqb (active_backend_str w) "torch") eqn:E;
        [| reflexivity].
      apply String.eqb_eq in E. contradiction. }
    split.
    + intros t q' v' Hin. eapply setitem_write_events; eauto.
    + intro Hok. apply setitem_attempts_write; assumption.
Qed.

Lemma setitem_detaches_under_torch_witness :
  t_grad (_data torch_variable) = true /\
  (forall t q' v',
     In (NativeSetitem t q' v')
        (events (__setitem__ (QInt 0) (PScalar 5)
                   (mkFrame torch_variable (world_with [torch_backend])))) ->
     t = vector "torch" [1; 2; 3]) /\
  __setitem__ (QInt 0) (PScalar 5)
    (mkFrame tensorflow_variable (world_with [torch_backend]))
  = (inl (AttributeError "detach"),
     mkFrame tensorflow_variable (world_with [torch_backend]), []) /\
  (exists v', In (NativeSetitem (_data numpy_array) (QInt 0) v')
                (events (__setitem__ (QInt 0) (PScalar 5)
                           (mkFrame numpy_array (world_with [numpy_backend]))))).
Proof.
  split; [vm_compute; reflexivity | split; [| split]].
  - destruct (setitem_detaches_under_torch (QInt 0) (PScalar 5) torch_variable
                (world_with [torch_backend])) as [H _].
    destruct (H eq_refl) as [Hd _].
    destruct (Hd (vector "torch" [1; 2; 3]) eq_refl) as (_ & Hon & _).
    exact Hon.
  - destruct (setitem_detaches_under_torch (QInt 0) (PScalar 5)
                tensorflow_variable (world_with [torch_backend])) as [H _].
    destruct (H eq_refl) as [_ He].
    apply (He (AttributeError "detach")). reflexivity.
  - apply (setitem_detaches_under_torch (QInt 0) (PScalar 5) numpy_array
             (world_with [numpy_backend])).
    + vm_compute. discriminate.
    + vm_compute. reflexivity.
Defined.

(** C10 (as stated) fails: under torch, assigning a torch tensor that
    requires gradients into an untracked torch array returns from the
    native assignment, and the array is attached to the gradient graph of
    the value afterwards. *)
Lemma indexed_write_drops_gradient_fails : ~ indexed_write_drops_gradient.
Proof.
  intro H.
  specialize (H (QSlice 0 2) (PTensor torch_tracked_pair) torch_array
                (world_with [torch_backend])).
  cbv zeta in H.
  assert (Hok : outcome (__setitem__ (QSlice 0 2) (PTensor torch_tracked_pair)
                           (mkFrame torch_array (world_with [torch_backend])))
                = inr tt) by (vm_compute; reflexivity).
  specialize (H eq_refl Hok). revert H. vm_compute. discriminate.
Qed.

(** A tensorflow variable wrapped while torch is active: the assignment
    raises at the detach, and the variable stays tracked. *)
Example setitem_under_torch_without_detach :
  let r := __setitem__ (QInt 0) (PScalar 5)
             (mkFrame tensorflow_variable (world_with [torch_backend])) in
  outcome r = inl (AttributeError "detach") /\
  t_grad (_data (self (final r))) = true.
Proof. vm_compute. split; reflexivity. Qed.

(** *** The multi-map *)

Ltac step_bind :=
  cbv beta;
  match goal with
  | |- context [@bind ?S ?A ?B ?m ?k ?s] => rewrite (@bind_run S A B m k s)
  end.

Section MultiMapFacts.
Variable op : list PyVal -> string -> M PyVal.
Variable key_chains : option (list string).
Variable to_apply : bool.

Lemma multi_map_on_keys (sk : Container) :
  forall args chain w r,
    covered sk args ->
    outcome (cont_multi_map_on op key_chains to_apply false sk args chain w) = inr r ->
    keys_agree sk r.
Proof.
  induction sk using Container_mutind with
    (P := fun v => match v with
                   | PCont sub =>
                       forall args chain w r,
                         covered sub args ->
                         outcome (cont_multi_map_on op key_chains to_apply false
                                    sub args chain w) = inr r ->
                         keys_agree sub r
                   | _ => True
                   end); try exact I.
  - exact IHsk.
  - intros args chain w r _ H. simpl in H. inversion H. exact I.
  - intros args chain w r [Hv Hrest]. cbn [cont_multi_map_on].
    destruct (values_at key args) as [values |]; [| contradiction].
    step_bind.
    match goal with
    | |- context [match ?m w with _ => _ end] =>
        destruct (m w) as [[r1 w1] ev1] eqn:E1
    end.
    destruct r1 as [e | o]; [discriminate |].
    step_bind.
    destruct (cont_multi_map_on op key_chains to_apply false sk args chain w1)
      as [[r2 w2] ev2] eqn:E2.
    destruct r2 as [e | rest']; [discriminate |].
    simpl. intro H. inversion H. subst r. clear H.
    assert (Hrest' : keys_agree sk rest').
    { apply (IHsk0 args chain w1 rest' Hrest). rewrite E2. reflexivity. }
    destruct value as [| z | a | t | sub].
    1-4: (revert E1; unfold bind, ret;
          destruct (applies_at key_chains to_apply (join_key_chain chain key));
          [ destruct (op values (join_key_chain chain key) w)
              as [[[e | v'] w'] ev']; intro E1; inversion E1; subst;
            simpl; auto
          | intro E1; inversion E1; subst; simpl; auto ]).
    revert E1. step_bind.
    destruct (cont_multi_map_on op key_chains to_apply false sub values
                (join_key_chain chain key) w) as [[r3 w3] ev3] eqn:E3.
    destruct r3 as [e | c]; [discriminate |].
    simpl. intro E1. inversion E1. subst. simpl.
    repeat split; auto.
    apply (IHsk values (join_key_chain chain key) w c Hv). rewrite E3. reflexivity.
Qed.

Lemma multi_map_on_total (sk : Container) :
  (forall vals path w, exists v, outcome (op vals path w) = inr v) ->
  forall args chain w,
    exists r, outcome (cont_multi_map_on op key_chains to_apply false
                         sk args chain w) = inr r.
Proof.
  intro Hop.
  induction sk using Container_mutind with
    (P := fun v => match v with
                   | PCont sub =>
                       forall args chain w,
                         exists r, outcome (cont_multi_map_on op key_chains to_apply
                                              false sub args chain w) = inr r
                   | _ => True
                   end); try exact I.
  - exact IHsk.
  - intros. simpl. eauto.
  - intros args chain w. cbn [cont_multi_map_on].
    destruct (values_at key args) as [values |]; [| apply IHsk0].
    step_bind.
    assert (H1 : exists o w1 ev1,
               (match value with
                | PCont sub =>
                    c <- cont_multi_map_on op key_chains to_apply false sub values
                           (join_key_chain chain key) ;;
                    ret (Some (PCont c))
                | _ =>
                    if applies_at key_chains to_apply (join_key_chain chain key)
                    then v <- op values (join_key_chain chain key) ;; ret (Some v)
                    else ret (Some value)
                end) w = (inr o, w1, ev1)).
    { destruct value as [| z | a | t | sub].
      1-4: (unfold bind, ret;
            destruct (applies_at key_chains to_apply (join_key_chain chain key));
            [ destruct (Hop values (join_key_chain chain key) w) as [v' Hv'];
              destruct (op values (join_key_chain chain key) w)
                as [[r' w'] ev']; simpl in Hv'; subst r'; eauto
            | eauto ]).
      unfold bind, ret.
      destruct (IHsk values (join_key_chain chain key) w) as [c Hc].
      destruct (cont_multi_map_on op key_chains to_apply false sub values
                  (join_key_chain chain key) w) as [[r' w'] ev'].
      simpl in Hc. subst r'. eauto. }
    destruct H1 as (o & w1 & ev1 & E1).
    destruct value; rewrite E1; step_bind;
      destruct (IHsk0 args chain w1) as [rest' Hr];
      destruct (cont_multi_map_on op key_chains to_apply false sk args chain w1)
        as [[r2 w2] ev2]; simpl in Hr; subst r2; simpl; eauto.
Qed.
End MultiMapFacts.

Lemma values_at_plain (key : string) (extras : list PyVal) :
  Forall (fun x => is_ivy_container x = false) extras ->
  values_at key extras = Some extras.
Proof.
  induction 1 as [| x l Hx _ IH]; simpl; [reflexivity |].
  rewrite IH. destruct x; simpl in Hx; try discriminate; reflexivity.
Qed.

(** A key stored in front of both Containers does not disturb the walk of a
    skeleton that does not use it. *)
Lemma covered_behind (sk : Container) (k0 : string) (v1 v2 : PyVal)
    (c1 c2 : Container) (extras : list PyVal) :
  ~ In k0 (cont_keys sk) ->
  covered sk (PCont c1 :: PCont c2 :: extras) ->
  covered sk (PCont (CItem k0 v1 c1) :: PCont (CItem k0 v2 c2) :: extras).
Proof.
  induction sk as [| key v0 rest IH]; intros Hk Hc; [exact I |].
  simpl in Hk. destruct Hc as [Hv Hrest]. split.
  - assert (E : String.eqb k0 key = false).
    { apply String.eqb_neq. intro Heq. apply Hk. left. symmetry. exact Heq. }
    cbn [values_at cont_lookup]. rewrite E. exact Hv.
  - apply IH; [intro; apply Hk; right; assumption | exact Hrest].
Qed.

Lemma same_structure_covered (c1 : Container) :
  forall c2 extras,
    same_structure c1 c2 -> unique_keys c1 ->
    Forall (fun x => is_ivy_container x = false) extras ->
    covered c1 (PCont c1 :: PCont c2 :: extras).
Proof.
  induction c1 using Container_mutind with
    (P := fun v => match v with
                   | PCont sub =>
                       forall c2 extras,
                         same_structure sub c2 -> unique_keys sub ->
                         Forall (fun x => is_ivy_container x = false) extras ->
                         covered sub (PCont sub :: PCont c2 :: extras)
                   | _ => True
                   end); try exact I.
  - exact IHc1.
  - intros. exact I.
  - intros c2 extras Hs Hu Hex.
    destruct c2 as [| k' v' rest']; [contradiction |].
    destruct Hs as (<- & Hv & Hrest). destruct Hu as (Hk & Huv & Hur).
    split.
    + cbn [values_at cont_lookup]. rewrite String.eqb_refl.
      rewrite (values_at_plain key extras Hex).
      destruct value; try exact I.
      destruct v'; try contradiction. apply IHc1; assumption.
    + apply covered_behind; [exact Hk |]. apply IHc0; assumption.
Qed.

Lemma load_run (store : Store) (w : World) (addr : nat) (c : Container) :
  nth_error store addr = Some c ->
  load addr (store, w) = (inr c, (store, w), []).
Proof. intro H. unfold load, bind, get, ret. simpl. rewrite H. reflexivity. Qed.

(** C8. For Containers [c1] and [c2] with identical key structure, a
    multi-map over them that returns builds a Container whose keys agree
    with those of [c1] at every level; it returns whenever the operation
    does at every leaf; and whatever its outcome, every Container that
    was in the object store before the call is there unchanged after it. *)
Theorem multi_map_keeps_key_structure
    (op : list PyVal -> string -> M PyVal) (key_chains : option (list string))
    (to_apply : bool) (store : Store) (w : World) (r1 r2 : nat)
    (c1 c2 : Container) :
  nth_error store r1 = Some c1 -> nth_error store r2 = Some c2 ->
  same_structure c1 c2 -> unique_keys c1 ->
  let run := multi_map op [r1; r2] key_chains to_apply false (store, w) in
  (forall addr, outcome run = inr addr ->
     exists r, nth_error (fst (final run)) addr = Some r /\ keys_agree c1 r) /\
  (forall a, (a < List.length store)%nat ->
     nth_error (fst (final run)) a = nth_error store a) /\
  ((forall vals path w', exists v, outcome (op vals path w') = inr v) ->
   exists addr, outcome run = inr addr).
Proof.
  intros H1 H2 Hs Hu run. subst run.
  unfold multi_map, load_all.
  step_bind. step_bind. rewrite (load_run store w r1 c1 H1).
  step_bind. step_bind. rewrite (load_run store w r2 c2 H2).
  unfold in_world, cont_multi_map, first_container, allocate, bind, get, put, ret.
  simpl.
  pose proof (multi_map_on_keys op key_chains to_apply c1 [PCont c1; PCont c2] "" w)
    as Hkeys.
  pose proof (fun Hop => multi_map_on_total op key_chains to_apply c1 Hop
                           [PCont c1; PCont c2] "" w) as Htot.
  destruct (cont_multi_map_on op key_chains to_apply false c1 [PCont c1; PCont c2] "" w)
    as [[res w1] ev1].
  destruct res as [e | r]; simpl.
  - split; [| split].
    + intros addr Ha. discriminate Ha.
    + intros a Ha. reflexivity.
    + intro Hop. destruct (Htot Hop) as [r Hr]. discriminate Hr.
  - split; [| split].
    + intros addr Ha. inversion Ha. subst addr. exists r. split.
      * rewrite nth_error_app2 by lia. rewrite Nat.sub_diag. reflexivity.
      * apply Hkeys; [| reflexivity].
        apply same_structure_covered; auto.
    + intros a Ha. apply nth_error_app1. exact Ha.
    + eauto.
Qed.

Lemma multi_map_keeps_key_structure_witness :
  exists r,
    nth_error
      (fst (final (multi_map first_leaf [0; 1]%nat None true false
                     ([tree_a; tree_b], world_with [numpy_backend]))))
      2
    = Some r /\ keys_agree tree_a r.
Proof.
  apply (multi_map_keeps_key_structure first_leaf None true [tree_a; tree_b]
           (world_with [numpy_backend]) 0 1 tree_a tree_b).
  - reflexivity.
  - reflexivity.
  - vm_compute. repeat split; reflexivity.
  - vm_compute. intuition discriminate.
  - vm_compute. reflexivity.
Defined.

(** [static_moveaxis] on two Containers of identical key structure (the
    array and, say, per-leaf source axes) returns a Container with the
    keys of the first. *)
Lemma static_moveaxis_keys (ivy_moveaxis : Fn) (c1 c2 : Container)
    (destination : PyVal) (key_chains : option (list string)) (to_apply : bool)
    (w : World) (r : Container) :
  same_structure c1 c2 -> unique_keys c1 ->
  is_ivy_container destination = false ->
  outcome (static_moveaxis ivy_moveaxis (PCont c1) (PCont c2) destination
             key_chains to_apply false None w) = inr r ->
  keys_agree c1 r.
Proof.
  intros Hs Hu Hd. unfold static_moveaxis, cont_multi_map, first_container, passed.
  cbn [call_args call_out app find is_ivy_container].
  apply multi_map_on_keys.
  apply same_structure_covered; auto.
Qed.

(** *** The dispatch pipeline *)







Section PipelineFacts.
Variable impl : Backend -> string -> list PyVal -> option PyVal -> Exc + PyVal.
















End PipelineFacts.

(** *** A Container argument: one pipeline run per leaf *)




Section LeafByLeaf.
Variable op : list PyVal -> string -> M PyVal.
Variable extras : list PyVal.
Variable e : PyVal -> Event.
Variable w : World.
Hypothesis extras_plain : Forall (fun x => is_ivy_container x = false) extras.

End LeafByLeaf.

Section LeafPipeline.
Variable impl : Backend -> string -> list PyVal -> option PyVal -> Exc + PyVal.










End LeafPipeline.



(** [ivy.argmax] on a Container: one backend call per leaf, each on the
    native tensor of the leaf, and a Container of the results. *)
Example argmax_on_a_container :
  let r := argmax echo_impl 2 (plain_call [PCont tree_a] None)
             (world_with [numpy_backend]) in
  events r = [BackendCall "argmax" [PTensor (vector "numpy" [1; 2; 3])];
              BackendCall "argmax" [PTensor (vector "numpy" [4; 5])]] /\
  exists c, outcome r = inr (PCont c) /\ cont_keys c = ["a"; "b"].
Proof.
  vm_compute. split; [reflexivity |]. eexists. split; reflexivity.
Qed.

(* ================================================================== *)
(** ** Further properties of the Array wrapper *)
(* ================================================================== *)

(** *** What the constructor and the [data] setter accept *)

Lemma lookup_backend_str (name : string) (reg : list Backend) (b : Backend) :
  lookup_backend name reg = Some b -> backend_str b = name.
Proof.
  unfold lookup_backend. intro H. apply find_some in H. destruct H as [_ H].
  apply String.eqb_eq in H. exact H.
Qed.

Lemma pure_outcome {A} (m : M A) (w : World) :
  pure_call m -> m w = (outcome (m w), w, []).
Proof.
  intro H. destruct (H w) as [Hw He]. destruct (m w) as [[r w1] ev].
  simpl in *. subst. reflexivity.
Qed.

(** X1. [ivy.Array(data, dynamic_backend)] on a value that is not an
    Array.  A tensor of the resolved backend's own class is wrapped as it
    is; a tensor of another library that is not numpy's, and a value that
    is no tensor at all, raise [IvyException].  And every Array the
    constructor returns, whatever it was given, starts clean: the five
    caches and the three repr fields are unset, [weak_type] is [False],
    [_backend] is not assigned, the view bookkeeping is empty, and
    [_dynamic_backend] is the argument when one is given and the
    process-wide flag otherwise. *)
Theorem constructor_wraps_native_and_starts_clean (v : PyVal)
    (dyn : option bool) (w : World) :
  (forall t b, v = PTensor t -> outcome (current_backend [v] w) = inr b ->
     (t_lib t = backend_str b ->
        exists a, outcome (Array_new v dyn w) = inr a /\ _data a = t) /\
     (t_lib t <> backend_str b -> t_lib t <> "numpy" ->
        outcome (Array_new v dyn w)
        = inl (IvyException "data must be ivy array, native array or ndarray"))) /\
  (tensor_of v = None ->
     outcome (Array_new v dyn w)
     = inl (IvyException "data must be ivy array, native array or ndarray")) /\
  (forall a, outcome (Array_new v dyn w) = inr a ->
     (forall f, cache_unset f a) /\
     _dev_str a = None /\ _pre_repr a = None /\ _post_repr a = None /\
     weak_type a = false /\ _backend a = Unset /\
     _base a = None /\ _view_refs a = [] /\ _manipulation_stack a = [] /\
     _dynamic_backend a = match dyn with
                          | Some d => d
                          | None => ivy_dynamic_backend w
                          end).
Proof.
  split; [| split].
  - intros t b -> Hb.
    pose proof (pure_outcome (current_backend [PTensor t]) w
                  (pure_current_backend _)) as Hc.
    rewrite Hb in Hc.
    cbv beta iota delta [Array_new __init__ _view_attributes _init
      is_native_array asarray_data current_backend_str is_ndarray liftW
      call_on assign this bind get put ret raise self world outcome final
      fst snd].
    rewrite Hc. cbv beta iota.
    destruct (String.eqb (t_lib t) (backend_str b)) eqn:El.
    + apply String.eqb_eq in El. repeat split; try congruence.
      intros _. destruct dyn; eexists; split; reflexivity.
    + apply String.eqb_neq in El.
      destruct (String.eqb (t_lib t) "numpy") eqn:En.
      * apply String.eqb_eq in En. repeat split; congruence.
      * apply String.eqb_neq in En. repeat split; try congruence.
  - intro Hv. destruct v; simpl in Hv; try discriminate; reflexivity.
  - intro a. unfold Array_new. run.
    repeat (split_match; simpl); intros; try discriminate;
      match goal with H : inr _ = inr _ |- _ => inversion H; subst; clear H end;
      simpl in *; try discriminate;
      repeat split; try reflexivity;
      intro f; destruct f; reflexivity.
Qed.

Lemma constructor_wraps_native_and_starts_clean_witness :
  (exists a,
     outcome (Array_new (PTensor (vector "torch" [1; 2; 3])) (Some false)
                (world_with [torch_backend])) = inr a /\
     _data a = vector "torch" [1; 2; 3]) /\
  outcome (Array_new (PTensor (vector "jax" [1; 2; 3])) None
             (world_with [torch_backend]))
  = inl (IvyException "data must be ivy array, native array or ndarray") /\
  _dynamic_backend torch_array = false /\ _backend torch_array = Unset.
Proof.
  destruct (constructor_wraps_native_and_starts_clean
              (PTensor (vector "torch" [1; 2; 3])) (Some false)
              (world_with [torch_backend])) as (Ht & _ & Hc).
  destruct (constructor_wraps_native_and_starts_clean
              (PTensor (vector "jax" [1; 2; 3])) None
              (world_with [torch_backend])) as (Hj & _ & _).
  split; [| split].
  - apply (Ht (vector "torch" [1; 2; 3]) torch_backend eq_refl eq_refl).
    reflexivity.
  - apply (Hj (vector "jax" [1; 2; 3]) torch_backend eq_refl eq_refl).
    + vm_compute. discriminate.
    + vm_compute. discriminate.
  - destruct (Hc torch_array eq_refl) as (_ & _ & _ & _ & _ & Hb & _ & _ & _ & Hd).
    split; [exact Hd | exact Hb].
Defined.

(** X2. Assigning to [data] a value that is not a native tensor of the
    current backend (an Array, a number, a tensor of another library)
    raises [IvyException] before [_init] runs: the Array and the process
    state are as they were, and nothing is computed. *)
Theorem data_setter_rejects_non_native (v : PyVal) (a : Array) (w : World) :
  outcome (is_native_array v w) = inr false ->
  data_setter v (mkFrame a w)
  = (inl (IvyException "data must be native array"), mkFrame a w, []).
Proof.
  intro H.
  pose proof (pure_outcome (is_native_array v) w (pure_is_native_array v)) as Hc.
  rewrite H in Hc.
  cbv beta iota delta [data_setter liftW bind check_true raise self world].
  rewrite Hc. reflexivity.
Qed.

Lemma data_setter_rejects_non_native_witness :
  data_setter (PArr torch_array) (mkFrame numpy_array (world_with [numpy_backend]))
  = (inl (IvyException "data must be native array"),
     mkFrame numpy_array (world_with [numpy_backend]), []) /\
  data_setter (PTensor (vector "torch" [4; 5]))
    (mkFrame numpy_array (world_with [numpy_backend]))
  = (inl (IvyException "data must be native array"),
     mkFrame numpy_array (world_with [numpy_backend]), []).
Proof.
  split.
  - apply (data_setter_rejects_non_native (PArr torch_array) numpy_array
             (world_with [numpy_backend])).
    reflexivity.
  - apply (data_setter_rejects_non_native (PTensor (vector "torch" [4; 5]))
             numpy_array (world_with [numpy_backend])).
    reflexivity.
Defined.

Lemma data_setter_binds (t : NativeArray) (s : Frame) :
  outcome (data_setter (PTensor t) s) = inr tt ->
  _data (self (final (data_setter (PTensor t) s))) = t.
Proof.
  destruct s as [a0 w]. run.
  repeat (split_match; simpl); intros; try discriminate; same_lookup;
    reflexivity.
Qed.

(** X3. After an assignment to [data] that returns, every metadata
    property reads the value of the new tensor: no cache filled from the
    previous tensor survives the assignment. *)
Theorem data_setter_refreshes_metadata (t : NativeArray) (s : Frame) (f : Field) :
  outcome (data_setter (PTensor t) s) = inr tt ->
  outcome (read_field f (final (data_setter (PTensor t) s)))
  = inr (metadata_of f t).
Proof.
  intro H.
  pose proof (data_setter_binds t s H) as Hd.
  destruct (data_setter_resets (PTensor t) s H) as (_ & Hs & Hst & Hi & Hdt & Hdv).
  destruct (final (data_setter (PTensor t) s)) as [a1 w1]. simpl in *.
  destruct f; run_props; rewrite ?Hs, ?Hst, ?Hi, ?Hdt, ?Hdv; simpl;
    rewrite ?Hd; try reflexivity.
  destruct (t_shape t) as [| x rest]; simpl; [reflexivity |].
  rewrite fold_left_mul. reflexivity.
Qed.

Lemma data_setter_refreshes_metadata_witness :
  outcome (read_field FSize
             (final (data_setter (PTensor (vector "numpy" [4; 5]))
                       (mkFrame numpy_array (world_with [numpy_backend])))))
  = inr (metadata_of FSize (vector "numpy" [4; 5])).
Proof.
  apply (data_setter_refreshes_metadata (vector "numpy" [4; 5])
           (mkFrame numpy_array (world_with [numpy_backend])) FSize).
  reflexivity.
Defined.

(** *** What an indexed assignment leaves alone *)

Lemma length_write_all (ps : list nat) (vs l : list Z) :
  List.length (write_all ps vs l) = List.length l.
Proof.
  unfold write_all. generalize (combine ps vs) as pvs. intro pvs. revert l.
  induction pvs as [| [p v] pvs IH]; intro l; simpl; [reflexivity |].
  rewrite IH. apply length_store.
Qed.

Lemma length_rebuild (ps : list nat) (vs l : list Z) :
  List.length (rebuild ps vs l) = List.length l.
Proof. rewrite <- write_all_rebuild. apply length_write_all. Qed.

Lemma native_store_frame (reg : list Backend) (t : NativeArray) (q : Query)
    (v : PyVal) (t' : NativeArray) :
  native_store reg t q v = inr t' ->
  (t_lib t', t_shape t', List.length (t_elems t'))
  = (t_lib t, t_shape t, List.length (t_elems t)).
Proof.
  unfold native_store.
  repeat (split_match; try discriminate).
  intro H. inversion H. subst. simpl. rewrite length_write_all. reflexivity.
Qed.

Lemma scatter_replace_frame (t : NativeArray) (q : Query) (v : PyVal)
    (t' : NativeArray) :
  scatter_replace t q v = inr t' ->
  (t_lib t', t_shape t', List.length (t_elems t'))
  = (t_lib t, t_shape t, List.length (t_elems t)).
Proof.
  unfold scatter_replace.
  repeat (split_match; try discriminate).
  intro H. inversion H. subst. simpl. rewrite length_rebuild. reflexivity.
Qed.

Lemma data_setter_fails_unchanged (v : PyVal) (s : Frame) (e : Exc) :
  outcome (data_setter v s) = inl e -> final (data_setter v s) = s.
Proof.
  destruct s as [a0 w]. run.
  repeat (split_match; simpl); intros; try discriminate; same_lookup;
    reflexivity.
Qed.

Lemma scatter_nd_frame (q : Query) (v : PyVal) (s : Frame) :
  frame_of (self (final (ivy_scatter_nd q v s))) = frame_of (self s) /\
  forall r, outcome (ivy_scatter_nd q v s) = inr r ->
            r = self (final (ivy_scatter_nd q v s)).
Proof.
  destruct s as [a0 w].
  unfold ivy_scatter_nd, this, liftW, emit, bind, get, ret, raise. simpl.
  destruct (scatter_replace (_data a0) q v) as [e | t'] eqn:Es; simpl.
  - split; [reflexivity | discriminate].
  - apply scatter_replace_frame in Es.
    pose proof (data_setter_binds t' {| self := a0; world := w |}) as Hb.
    pose proof (data_setter_fails_unchanged (PTensor t')
                  {| self := a0; world := w |}) as Hf.
    destruct (data_setter (PTensor t') {| self := a0; world := w |})
      as [[r s1] ev].
    simpl in Hb, Hf. destruct r as [e | []]; simpl.
    + rewrite (Hf e eq_refl). split; [reflexivity | discriminate].
    + split.
      * unfold frame_of. rewrite (Hb eq_refl). exact Es.
      * intros r H. inversion H. reflexivity.
Qed.

Lemma keeps_frame_getitem (q : Query) : keeps frame_of (__getitem__ q).
Proof. unfold __getitem__, handle_view_indexing. keeps_tac. Qed.

(** X4. An indexed assignment, whether it returns or raises and on
    either path, leaves the library, the shape and the number of elements
    of the wrapped tensor as they were. *)
Theorem setitem_keeps_library_and_shape (q : Query) (v : PyVal) (s : Frame) :
  let a' := self (final (__setitem__ q v s)) in
  t_lib (_data a') = t_lib (_data (self s)) /\
  t_shape (_data a') = t_shape (_data (self s)) /\
  List.length (t_elems (_data a')) = List.length (t_elems (_data (self s))).
Proof.
  assert (K : keeps frame_of (__setitem__ q v)).
  { unfold __setitem__, setitem_write.
    apply keeps_bind; [apply keeps_liftW | intro bs].
    apply keeps_bind.
    { destruct (String.eqb bs "torch"); [| apply keeps_ret].
      intro s0. unfold this, assign, bind, get, put, ret, raise. simpl.
      destruct (detach (_data (self s0))) as [e | d] eqn:Ed; simpl;
        [reflexivity |].
      destruct (detach_payload _ _ Ed) as (Hl & Hs & _ & He & _).
      unfold frame_of. simpl. rewrite Hl, Hs, He. reflexivity. }
    intros _. apply keeps_bind; [keeps_tac | intro val].
    apply keeps_bind; [apply keeps_frame_getitem | intro target].
    apply keeps_bind; [keeps_tac | intro val'].
    apply keeps_try.
    - intros [a0 w0].
      unfold native_setitem, bind, liftW, this, assign, emit, get, put, ret,
        raise.
      simpl.
      destruct (native_store (registry w0) (_data a0) q val')
        as [e | t'] eqn:En; simpl; [reflexivity |].
      apply native_store_frame in En. exact En.
    - intros e s0.
      destruct (scatter_nd_frame q val' s0) as [Hf Hr].
      rewrite bind_run.
      destruct (ivy_scatter_nd q val' s0) as [[r s1] ev1]. simpl in Hf, Hr.
      destruct r as [e1 | r]; simpl; [exact Hf |].
      rewrite (Hr r eq_refl). destruct s1 as [a1 w1]. simpl in *.
      rewrite <- Hf. reflexivity. }
  intro a'. specialize (K s). unfold frame_of in K. inversion K. auto.
Qed.

(** X5. When the query selects nothing valid in the wrapped tensor (an
    index out of range, an index into a 0-dimensional tensor), an indexed
    assignment attempts neither the native assignment nor the scatter.
    Under a backend other than torch it raises the exception of the read
    and leaves the Array as it was.  Under torch, when the wrapped tensor
    can be detached, it raises the exception of the read and the only
    change to the Array is the detach; when it cannot, it raises the
    [AttributeError] of the detach and leaves the Array as it was. *)
Theorem setitem_bad_index_writes_nothing (q : Query) (v : PyVal) (a : Array)
    (w : World) (e : Exc) :
  positions (t_shape (_data a)) q = inl e ->
  let r := __setitem__ q v (mkFrame a w) in
  (active_backend_str w <> "torch" -> r = (inl e, mkFrame a w, [])) /\
  (active_backend_str w = "torch" ->
     (forall d, detach (_data a) = inr d ->
                r = (inl e, mkFrame (set__data d a) w, [])) /\
     (forall e', detach (_data a) = inl e' -> r = (inl e', mkFrame a w, []))).
Proof.
  intros H r. subst r.
  assert (W : forall t, t_shape t = t_shape (_data a) ->
                setitem_write q v (mkFrame (set__data t a) w)
                = (inl e, mkFrame (set__data t a) w, [])).
  { intros t Ht.
    unfold setitem_write, __getitem__, handle_view_indexing, get_item, data,
      call_on, liftW, this, assign, bind, get, put, ret, raise.
    simpl.
    destruct v; simpl; rewrite Ht, H; reflexivity. }
  pose proof (setitem_cases q v a w) as Hc. unfold write_target in Hc.
  split; [| split].
  - intro Hb. apply String.eqb_neq in Hb. rewrite Hb in Hc. rewrite Hc.
    rewrite (W (_data a) eq_refl), set__data_same. reflexivity.
  - intros d Hd. rewrite H0, String.eqb_refl, Hd in Hc. rewrite Hc.
    apply W. apply (detach_payload _ _ Hd).
  - intros e' He. rewrite H0, String.eqb_refl, He in Hc. exact Hc.
Qed.

Lemma setitem_bad_index_writes_nothing_witness :
  __setitem__ (QInt 3) (PScalar 9)
    (mkFrame numpy_array (world_with [numpy_backend]))
  = (inl IndexError, mkFrame numpy_array (world_with [numpy_backend]), []) /\
  __setitem__ (QInt 3) (PScalar 9)
    (mkFrame torch_variable (world_with [torch_backend]))
  = (inl IndexError,
     mkFrame (set__data (vector "torch" [1; 2; 3]) torch_variable)
       (world_with [torch_backend]), []) /\
  __setitem__ (QInt 3) (PScalar 9)
    (mkFrame numpy_array (world_with [torch_backend; numpy_backend]))
  = (inl (AttributeError "detach"),
     mkFrame numpy_array (world_with [torch_backend; numpy_backend]), []).
Proof.
  split; [| split].
  - destruct (setitem_bad_index_writes_nothing (QInt 3) (PScalar 9)
                numpy_array (world_with [numpy_backend]) IndexError eq_refl)
      as [H _].
    apply H. vm_compute. discriminate.
  - destruct (setitem_bad_index_writes_nothing (QInt 3) (PScalar 9)
                torch_variable (world_with [torch_backend]) IndexError eq_refl)
      as [_ H].
    destruct (H eq_refl) as [Hd _].
    apply (Hd (vector "torch" [1; 2; 3])). reflexivity.
  - destruct (setitem_bad_index_writes_nothing (QInt 3) (PScalar 9)
                numpy_array (world_with [torch_backend; numpy_backend])
                IndexError eq_refl) as [_ H].
    destruct (H eq_refl) as [_ He].
    apply (He (AttributeError "detach")). reflexivity.
Defined.

(** *** Pickling round trip *)

Lemma getstate_records (a : Array) (w : World) (st : PickleState) :
  outcome (__getstate__ (mkFrame a w)) = inr st ->
  state_data st = _data a /\ state_backend st = Some (backend a).
Proof.
  unfold __getstate__, data, device, ivy_dev. run.
  destruct (_device a); simpl; intro H; inversion H; split; reflexivity.
Qed.

(** X6. [__setstate__] after [__getstate__].  For an Array whose
    recorded backend name is not empty and names a loadable backend,
    restoring the pickled state returns and leaves the process state
    (backend stack included) as it found it.  The attributes of the
    receiver are replaced wholesale by those of the rebuilt Array: what
    the receiver was does not matter.  The rebuilt Array has the
    recorded backend name, the shape, element type and elements of the
    pickled tensor, every cache unset and the process-wide
    [dynamic_backend] flag. *)
Theorem pickle_round_trip (a rcv : Array) (w w' : World) (b : Backend)
    (st : PickleState) :
  outcome (__getstate__ (mkFrame a w)) = inr st ->
  backend a <> "" ->
  lookup_backend (backend a) (registry w') = Some b ->
  let r := __setstate__ st (mkFrame rcv w') in
  let a' := self (final r) in
  outcome r = inr tt /\ world (final r) = w' /\
  (forall rcv', self (final (__setstate__ st (mkFrame rcv' w'))) = a') /\
  backend a' = backend a /\
  t_shape (_data a') = t_shape (_data a) /\
  t_dtype (_data a') = t_dtype (_data a) /\
  t_elems (_data a') = t_elems (_data a) /\
  _dynamic_backend a' = ivy_dynamic_backend w' /\
  (forall f, cache_unset f a').
Proof.
  intros Hst Hne Hb r a'. subst a' r.
  destruct (getstate_records a w st Hst) as [Hd Hn].
  pose proof (lookup_backend_str _ _ _ Hb) as Hs.
  unfold __setstate__. rewrite Hn.
  destruct (backend a) as [| c name'] eqn:Ename; [congruence |].
  cbn [String.length Z.of_nat Z.ltb Z.compare].
  unfold ivy_array, Array_new, set_backend, previous_backend. run.
  rewrite Hb. simpl. rewrite Hs, String.eqb_refl. simpl.
  rewrite Hd. destruct w'. simpl.
  repeat split; try reflexivity.
  - exact Hs.
  - intro f. destruct f; reflexivity.
Qed.

Lemma pickle_round_trip_witness :
  let r := __setstate__ (pickled torch_array (world_with [torch_backend]))
             (mkFrame blank (world_with [numpy_backend])) in
  let a' := self (final r) in
  outcome r = inr tt /\ world (final r) = world_with [numpy_backend] /\
  (forall rcv',
     self (final (__setstate__ (pickled torch_array (world_with [torch_backend]))
                    (mkFrame rcv' (world_with [numpy_backend])))) = a') /\
  backend a' = backend torch_array /\
  t_shape (_data a') = t_shape (_data torch_array) /\
  t_dtype (_data a') = t_dtype (_data torch_array) /\
  t_elems (_data a') = t_elems (_data torch_array) /\
  _dynamic_backend a' = ivy_dynamic_backend (world_with [numpy_backend]) /\
  (forall f, cache_unset f a').
Proof.
  apply (pickle_round_trip torch_array blank (world_with [torch_backend])
           (world_with [numpy_backend]) torch_backend
           (pickled torch_array (world_with [torch_backend]))).
  - vm_compute. reflexivity.
  - vm_compute. discriminate.
  - vm_compute. reflexivity.
Defined.

(** *** Dynamic backend: pinning, then re-materialising *)

(** X7. Once [False] was assigned to [dynamic_backend] while the library
    of the wrapped tensor was loadable, assigning [True] under any set
    backend returns: the flag is [True], the wrapped tensor now belongs
    to the library of the set backend and has the shape, element type
    and elements it had, and the process state is untouched. *)
Theorem dynamic_backend_false_then_true (a : Array) (w0 w : World)
    (b cur : Backend) (st : list Backend) :
  lookup_backend (t_lib (_data a)) (registry w0) = Some b ->
  backend_stack w = cur :: st ->
  let pinned := self (final (dynamic_backend_setter false (mkFrame a w0))) in
  let r := dynamic_backend_setter true (mkFrame pinned w) in
  let d := _data (self (final r)) in
  outcome r = inr tt /\ world (final r) = w /\ events r = [] /\
  _dynamic_backend (self (final r)) = true /\
  t_lib d = backend_str cur /\
  t_shape d = t_shape (_data a) /\ t_dtype d = t_dtype (_data a) /\
  t_elems d = t_elems (_data a).
Proof.
  intros Hb Hst pinned r d. subst d r pinned.
  rewrite dynamic_backend_false_pins. cbn [final self fst snd].
  unfold dynamic_backend_setter, self__backend_attr, data, ivy_array,
    _variable, Array_new, is_variable, variable_data, to_numpy.
  cbn [_determine_backend_from_args]. rewrite Hb.
  destruct w as [stack reg imp dyn]. simpl in Hst. subst stack.
  run.
  match goal with
  | |- context [if ?c then _ else _] => destruct c eqn:E
  end;
    simpl; rewrite ?String.eqb_refl; simpl; rewrite ?String.eqb_refl; simpl;
    repeat split; reflexivity.
Qed.

Lemma dynamic_backend_false_then_true_witness :
  let pinned :=
    self (final (dynamic_backend_setter false
                   (mkFrame torch_variable (world_with [torch_backend])))) in
  let r := dynamic_backend_setter true
             (mkFrame pinned (world_with [paddle_backend; torch_backend])) in
  let d := _data (self (final r)) in
  outcome r = inr tt /\
  world (final r) = world_with [paddle_backend; torch_backend] /\
  events r = [] /\
  _dynamic_backend (self (final r)) = true /\
  t_lib d = backend_str paddle_backend /\
  t_shape d = t_shape (_data torch_variable) /\
  t_dtype d = t_dtype (_data torch_variable) /\
  t_elems d = t_elems (_data torch_variable).
Proof.
  apply (dynamic_backend_false_then_true torch_variable
           (world_with [torch_backend])
           (world_with [paddle_backend; torch_backend])
           torch_backend paddle_backend [torch_backend]).
  - vm_compute. reflexivity.
  - reflexivity.
Defined.

(** *** Length and iteration *)

Lemma len_run (a : Array) (w : World) :
  __len__ (mkFrame a w)
  = (match t_shape (_data a) with
     | [] => inl IndexError
     | n :: _ => inr n
     end, mkFrame a w, []).
Proof.
  unfold __len__, native_len, tuple_getitem, lift_result, try_except, this,
    bind, get, ret, raise.
  simpl. destruct (t_shape (_data a)); reflexivity.
Qed.

(** X8. [len(x)] is the first dimension of the wrapped tensor.  On a
    0-dimensional Array the fallback [self._data.shape[0]] indexes an
    empty tuple: the call raises [IndexError], not the [TypeError] it
    caught.  Either way the Array and the process state are untouched. *)
Theorem len_is_leading_dimension (a : Array) (w : World) :
  (forall n rest, t_shape (_data a) = n :: rest ->
     __len__ (mkFrame a w) = (inr n, mkFrame a w, [])) /\
  (t_shape (_data a) = [] ->
     __len__ (mkFrame a w) = (inl IndexError, mkFrame a w, [])).
Proof.
  rewrite len_run. split.
  - intros n rest ->. reflexivity.
  - intros ->. reflexivity.
Qed.

Lemma len_is_leading_dimension_witness :
  __len__ (mkFrame numpy_array (world_with [numpy_backend]))
  = (inr 3, mkFrame numpy_array (world_with [numpy_backend]), []) /\
  __len__ (mkFrame (built (PTensor (zero_dim "numpy" 7)) None
                      (world_with [numpy_backend]))
             (world_with [numpy_backend]))
  = (inl IndexError,
     mkFrame (built (PTensor (zero_dim "numpy" 7)) None
                (world_with [numpy_backend]))
       (world_with [numpy_backend]), []).
Proof.
  split.
  - apply (len_is_leading_dimension numpy_array (world_with [numpy_backend]))
      with (rest := []).
    reflexivity.
  - apply (len_is_leading_dimension
             (built (PTensor (zero_dim "numpy" 7)) None
                (world_with [numpy_backend]))
             (world_with [numpy_backend])).
    reflexivity.
Defined.

Lemma to_ivy_under_set_backend (t : NativeArray) (w : World) (b : Backend)
    (st : list Backend) :
  backend_stack w = b :: st ->
  exists r, to_ivy (PTensor t) w = (inr r, w, []) /\ tensor_of r = Some t.
Proof.
  intro Hs.
  pose proof (pure_outcome (to_ivy (PTensor t)) w (pure_to_ivy _)) as Hp.
  assert (Hr : exists r, outcome (to_ivy (PTensor t) w) = inr r).
  { destruct w as [stack reg imp dyn]. simpl in Hs. subst stack.
    unfold to_ivy, Array_new. run.
    destruct (String.eqb (t_lib t) (backend_str b)) eqn:E; simpl;
      rewrite ?E; simpl; eauto. }
  destruct Hr as [r Hr]. exists r. split.
  - rewrite Hp, Hr. reflexivity.
  - apply (to_ivy_tensor t w r Hr).
Qed.

Lemma mapM_to_ivy_rows (ts : list NativeArray) (w : World) (b : Backend)
    (st : list Backend) :
  backend_stack w = b :: st ->
  exists items,
    mapM (fun i => to_ivy (PTensor i)) ts w = (inr items, w, []) /\
    Forall2 (fun item row => tensor_of item = Some row) items ts.
Proof.
  intro Hs. induction ts as [| t ts IH].
  - exists []. split; [reflexivity | constructor].
  - destruct IH as (items & Hm & Hf).
    destruct (to_ivy_under_set_backend t w b st Hs) as (r & Hr & Ht).
    exists (r :: items). split.
    + cbn [mapM]. rewrite bind_run, Hr. rewrite bind_run, Hm. reflexivity.
    + constructor; assumption.
Qed.

Lemma length_native_rows (t : NativeArray) (n : Z) (rest : list Z) :
  t_shape t = n :: rest -> List.length (native_rows t) = Z.to_nat n.
Proof.
  intro H. unfold native_rows. rewrite H.
  rewrite length_map, length_seq. reflexivity.
Qed.

(** X9. Iterating a 0-dimensional Array raises [TypeError] under every
    backend, before anything else is done.  An Array of at least one
    dimension, iterated while a backend other than paddle is set, gives
    one item per row of the leading axis, in order, each carrying that
    row: as many items as [len(x)]; the Array is untouched. *)
Theorem iter_follows_leading_axis
    (ivy_unstack : NativeArray -> M (list PyVal))
    (squeeze : PyVal -> Z -> M PyVal) (a : Array) (w : World) :
  (t_shape (_data a) = [] ->
     __iter__ ivy_unstack squeeze (mkFrame a w)
     = (inl TypeError, mkFrame a w, [])) /\
  (forall n rest b st,
     t_shape (_data a) = n :: rest -> 0 <= n ->
     backend_stack w = b :: st -> backend_str b <> "paddle" ->
     exists items,
       __iter__ ivy_unstack squeeze (mkFrame a w)
       = (inr items, mkFrame a w, []) /\
       Forall2 (fun item row => tensor_of item = Some row)
         items (native_rows (_data a)) /\
       outcome (__len__ (mkFrame a w)) = inr (Z.of_nat (List.length items))).
Proof.
  split.
  - intro H. unfold __iter__, ndim, this, bind, get, ret, raise. simpl.
    rewrite H. reflexivity.
  - intros n rest b st H Hn Hs Hb.
    destruct (mapM_to_ivy_rows (native_rows (_data a)) w b st Hs)
      as (items & Hm & Hf).
    exists items. split; [| split].
    + unfold __iter__, ndim, current_backend_str, active_backend_str, liftW,
        this, bind, get, ret, raise.
      simpl. rewrite H. simpl. rewrite Hs. simpl.
      apply String.eqb_neq in Hb. rewrite Hb. simpl. rewrite Hm. simpl.
      reflexivity.
    + exact Hf.
    + rewrite len_run, H. simpl.
      apply Forall2_length in Hf. rewrite Hf.
      rewrite (length_native_rows _ n rest H), Z2Nat.id by exact Hn.
      reflexivity.
Qed.

Lemma iter_follows_leading_axis_witness :
  __iter__ (fun _ => ret []) (fun x _ => ret x)
    (mkFrame (built (PTensor (zero_dim "numpy" 7)) None
                (world_with [numpy_backend]))
       (world_with [numpy_backend]))
  = (inl TypeError,
     mkFrame (built (PTensor (zero_dim "numpy" 7)) None
                (world_with [numpy_backend]))
       (world_with [numpy_backend]), []) /\
  exists items,
    __iter__ (fun _ => ret []) (fun x _ => ret x)
      (mkFrame numpy_array (world_with [numpy_backend]))
    = (inr items, mkFrame numpy_array (world_with [numpy_backend]), []) /\
    Forall2 (fun item row => tensor_of item = Some row)
      items (native_rows (_data numpy_array)) /\
    outcome (__len__ (mkFrame numpy_array (world_with [numpy_backend])))
    = inr (Z.of_nat (List.length items)).
Proof.
  split.
  - apply (iter_follows_leading_axis (fun _ => ret []) (fun x _ => ret x)
             (built (PTensor (zero_dim "numpy" 7)) None
                (world_with [numpy_backend]))
             (world_with [numpy_backend])).
    reflexivity.
  - apply (iter_follows_leading_axis (fun _ => ret []) (fun x _ => ret x)
             numpy_array (world_with [numpy_backend]))
      with (n := 3) (rest := []) (b := numpy_backend) (st := []).
    + reflexivity.
    + lia.
    + reflexivity.
    + vm_compute. discriminate.
Defined.

(* ================================================================== *)
(** ** Properties of the paddle backend functions *)
(* ================================================================== *)

Lemma is_native_under_set_backend (t : NativeArray) (w : World) (b : Backend)
    (st : list Backend) :
  backend_stack w = b :: st ->
  is_native_array (PTensor t) w
  = (inr (String.eqb (t_lib t) (backend_str b)), w, []).
Proof.
  intro Hs. unfold is_native_array, current_backend, bind, get, ret. simpl.
  rewrite Hs. reflexivity.
Qed.

Lemma data_setter_under_set_backend (t : NativeArray) (a : Array) (w : World)
    (b : Backend) (st : list Backend) :
  backend_stack w = b :: st -> t_lib t = backend_str b ->
  exists a',
    data_setter (PTensor t) (mkFrame a w) = (inr tt, mkFrame a' w, []) /\
    _data a' = t /\ backend a' = backend_str b /\
    (forall f, cache_unset f a').
Proof.
  intros Hs Hl.
  assert (Hok : outcome (data_setter (PTensor t) (mkFrame a w)) = inr tt).
  { destruct w as [stack reg imp dyn]. simpl in Hs. subst stack.
    run. rewrite Hl, String.eqb_refl. simpl.
    rewrite String.eqb_refl. reflexivity. }
  pose proof (data_setter_binds t _ Hok) as Hd.
  destruct (data_setter_resets _ _ Hok) as (Hb & H1 & H2 & H3 & H4 & H5).
  destruct (quiet_data_setter (PTensor t) (mkFrame a w)) as [Hw He].
  destruct (data_setter (PTensor t) (mkFrame a w)) as [[r [a' w']] ev].
  simpl in *. subst w' ev. subst r. exists a'. repeat split; auto.
  - rewrite Hb. unfold active_backend_str. rewrite Hs. reflexivity.
  - intro f. destruct f; simpl; auto.
Qed.

(** X10. [inplace_update(x, val)] of the paddle backend, while a backend
    is set whose tensors [x] and [val] are.  When [x] is an Array the
    result is that Array, rebound through its [data] property: its tensor
    has the shape, element type and elements of [val], every metadata
    cache is unset and [backend] names the set backend.  When [x] is a
    native tensor the result is a native tensor with the payload of
    [val].  When [x] or [val] is not an array, [val] is returned and
    nothing else happens. *)
Theorem inplace_update_takes_payload (x val : PyVal) (w : World)
    (b : Backend) (st : list Backend) :
  backend_stack w = b :: st ->
  (forall xa tv,
     x = PArr xa -> t_lib (_data xa) = backend_str b ->
     tensor_of val = Some tv -> t_lib tv = backend_str b ->
     exists xa',
       paddle_general.inplace_update x val w = (inr (PArr xa'), w, []) /\
       t_lib (_data xa') = backend_str b /\
       t_shape (_data xa') = t_shape tv /\
       t_dtype (_data xa') = t_dtype tv /\
       t_elems (_data xa') = t_elems tv /\
       (forall f, cache_unset f xa') /\
       backend xa' = backend_str b) /\
  (forall tx tv,
     x = PTensor tx -> t_lib tx = backend_str b ->
     tensor_of val = Some tv -> t_lib tv = backend_str b ->
     exists t',
       paddle_general.inplace_update x val w = (inr (PTensor t'), w, []) /\
       t_shape t' = t_shape tv /\ t_dtype t' = t_dtype tv /\
       t_elems t' = t_elems tv) /\
  (tensor_of x = None \/ tensor_of val = None ->
     paddle_general.inplace_update x val w = (inr val, w, [])).
Proof.
  intro Hs.
  assert (Hval : forall tv, tensor_of val = Some tv -> t_lib tv = backend_str b ->
            paddle_general.is_array val w = (inr true, w, []) /\
            to_native val = PTensor tv).
  { intros tv Hv Hl. destruct val; simpl in Hv; try discriminate;
      inversion Hv; subst; unfold paddle_general.is_array;
      cbn [paddle_general.is_ivy_array to_native].
    - split; reflexivity.
    - rewrite (is_native_under_set_backend _ _ _ _ Hs), Hl, String.eqb_refl.
      split; reflexivity. }
  split; [| split].
  - intros xa tv -> Hlx Hv Hlv.
    destruct (Hval tv Hv Hlv) as [Hia Hn].
    unfold paddle_general.inplace_update.
    rewrite bind_run. cbn [paddle_general.is_array paddle_general.is_ivy_array ret].
    rewrite bind_run, Hia. cbn [to_native]. rewrite Hn.
    cbn [is_native_array]. rewrite bind_run. cbn [ret].
    match goal with
    | |- context [data_setter (PTensor ?t)] => set (xn := t)
    end.
    assert (Hxn : t_lib xn = backend_str b /\ t_shape xn = t_shape tv /\
                  t_dtype xn = t_dtype tv /\ t_elems xn = t_elems tv).
    { subst xn. destruct (shape_eqb (t_shape tv) (t_shape (_data xa))); simpl;
        auto.
      destruct (Dtype_eqb (t_dtype (_data xa)) (t_dtype tv)); simpl; auto. }
    destruct Hxn as (X1 & X2 & X3 & X4).
    destruct (data_setter_under_set_backend xn xa w b st Hs X1)
      as (xa' & Hd & D1 & D2 & D3).
    exists xa'. step_bind. unfold call_on. rewrite Hd.
    cbn. rewrite D1. repeat split; auto.
  - intros tx tv -> Hlx Hv Hlv.
    destruct (Hval tv Hv Hlv) as [Hia Hn].
    unfold paddle_general.inplace_update.
    rewrite bind_run.
    unfold paddle_general.is_array at 1. cbn [paddle_general.is_ivy_array].
    rewrite (is_native_under_set_backend _ _ _ _ Hs), Hlx, String.eqb_refl.
    rewrite bind_run, Hia. cbn [to_native]. rewrite Hn.
    rewrite bind_run.
    rewrite (is_native_under_set_backend _ _ _ _ Hs), Hlx, String.eqb_refl.
    cbn. eexists. split; [reflexivity |].
    destruct (shape_eqb (t_shape tv) (t_shape tx)); simpl; auto.
  - intros [Hx | Hv].
    + unfold paddle_general.inplace_update. rewrite bind_run.
      assert (Hna : paddle_general.is_array x w = (inr false, w, [])).
      { destruct x; simpl in Hx; try discriminate; reflexivity. }
      rewrite Hna. reflexivity.
    + assert (Hna : paddle_general.is_array val w = (inr false, w, []))
        by (destruct val; simpl in Hv; try discriminate; reflexivity).
      unfold paddle_general.inplace_update. rewrite bind_run.
      destruct x as [| z | xa | tx | c]; try reflexivity.
      * cbn [paddle_general.is_array paddle_general.is_ivy_array ret].
        rewrite bind_run, Hna. reflexivity.
      * unfold paddle_general.is_array at 1. cbn [paddle_general.is_ivy_array].
        rewrite (is_native_under_set_backend _ _ _ _ Hs).
        destruct (String.eqb (t_lib tx) (backend_str b)); [| reflexivity].
        rewrite bind_run, Hna. reflexivity.
Qed.

Lemma inplace_update_takes_payload_witness :
  exists xa',
    paddle_general.inplace_update (PArr paddle_array)
      (PTensor (vector "paddle" [7; 8; 9])) (world_with [paddle_backend])
    = (inr (PArr xa'), world_with [paddle_backend], []) /\
    t_lib (_data xa') = backend_str paddle_backend /\
    t_shape (_data xa') = t_shape (vector "paddle" [7; 8; 9]) /\
    t_dtype (_data xa') = t_dtype (vector "paddle" [7; 8; 9]) /\
    t_elems (_data xa') = t_elems (vector "paddle" [7; 8; 9]) /\
    (forall f, cache_unset f xa') /\
    backend xa' = backend_str paddle_backend.
Proof.
  destruct (inplace_update_takes_payload (PArr paddle_array)
              (PTensor (vector "paddle" [7; 8; 9]))
              (world_with [paddle_backend]) paddle_backend [] eq_refl)
    as (H & _ & _).
  apply (H paddle_array (vector "paddle" [7; 8; 9])).
  - reflexivity.
  - vm_compute. reflexivity.
  - reflexivity.
  - reflexivity.
Defined.

Lemma existsb_insert_unique (x z : Z) (l : list Z) :
  existsb (Z.eqb z) (paddle_general.insert_unique x l)
  = (z =? x) || existsb (Z.eqb z) l.
Proof.
  induction l as [| y l IH]; simpl.
  - reflexivity.
  - destruct (x <? y); simpl; [reflexivity |].
    destruct (x =? y) eqn:E; simpl.
    + apply Z.eqb_eq in E. subst y.
      destruct (z =? x); reflexivity.
    + rewrite IH. destruct (z =? x), (z =? y); reflexivity.
Qed.

Lemma existsb_unique_values (z : Z) (l : list Z) :
  existsb (Z.eqb z) (fold_right paddle_general.insert_unique [] l)
  = existsb (Z.eqb z) l.
Proof.
  induction l as [| x l IH]; simpl; [reflexivity |].
  rewrite existsb_insert_unique, IH. reflexivity.
Qed.

(** X11. [isin(elements, test_elements)] of the paddle backend has the
    shape of [elements], 0-dimensional inputs included, and holds at each
    position whether that element occurs among the test elements,
    negated when [invert] is set.  The result is the same with and
    without [assume_unique]. *)
Theorem isin_is_membership (elements test_elements : NativeArray)
    (assume_unique invert : bool) :
  paddle_general.isin elements test_elements assume_unique invert
  = paddle_general.mkBool (t_shape elements)
      (map (fun x => xorb (existsb (Z.eqb x) (t_elems test_elements)) invert)
         (t_elems elements)).
Proof.
  unfold paddle_general.isin, paddle_general.logical_xor,
    paddle_general.reshape, paddle_general.any_equal.
  destruct (Nat.eqb (List.length (t_shape elements)) 0);
    destruct (Nat.eqb (List.length (t_shape test_elements)) 0);
    destruct assume_unique; simpl; f_equal; rewrite map_map;
    apply map_ext; intro x; f_equal; try reflexivity;
    apply existsb_unique_values.
Qed.

(* ================================================================== *)
(** ** Further properties of the dispatch pipeline *)
(* ================================================================== *)

Section EmitsOnly.
Variable P : Event -> Prop.

Lemma emits_only_pure {A} (m : M A) : pure_call m -> emits_only P m.
Proof. intros H w. destruct (H w) as [_ ->]. constructor. Qed.

Lemma emits_only_ret {S A} (a : A) : emits_only P (@ret S A a).
Proof. intro s. constructor. Qed.

Lemma emits_only_raise {S A} (e : Exc) : emits_only P (@raise S A e).
Proof. intro s. constructor. Qed.

Lemma emits_only_bind {S A B} (m : @ST S A) (k : A -> @ST S B) :
  emits_only P m -> (forall a, emits_only P (k a)) -> emits_only P (bind m k).
Proof.
  intros Hm Hk s. unfold bind. specialize (Hm s).
  destruct (m s) as [[r s1] ev1]. simpl in Hm.
  destruct r as [e | a]; simpl; [exact Hm |].
  specialize (Hk a s1). destruct (k a s1) as [[r2 s2] ev2]. simpl in *.
  apply Forall_app. split; assumption.
Qed.

Lemma emits_only_try {S A} (m : @ST S A) (h : Exc -> @ST S A) :
  emits_only P m -> (forall e, emits_only P (h e)) ->
  emits_only P (try_except m h).
Proof.
  intros Hm Hh s. unfold try_except. specialize (Hm s).
  destruct (m s) as [[r s1] ev1]. simpl in Hm.
  destruct r as [e | a]; simpl; [| exact Hm].
  specialize (Hh e s1). destruct (h e s1) as [[r2 s2] ev2]. simpl in *.
  apply Forall_app. split; assumption.
Qed.

Lemma emits_only_mapM {A B} (f : A -> M B) (l : list A) :
  (forall a, emits_only P (f a)) -> emits_only P (mapM f l).
Proof.
  intro Hf. induction l as [| x l IH]; cbn [mapM].
  - apply emits_only_ret.
  - apply emits_only_bind; [apply Hf | intro y].
    apply emits_only_bind; [exact IH | intro; apply emits_only_ret].
Qed.

Lemma emits_only_multi_map_on (op : list PyVal -> string -> M PyVal)
    (key_chains : option (list string)) (to_apply prune : bool) :
  (forall vals path, emits_only P (op vals path)) ->
  forall sk args chain,
    emits_only P (cont_multi_map_on op key_chains to_apply prune sk args chain).
Proof.
  intros Hop sk.
  induction sk using Container_mutind with
    (P := fun v => match v with
                   | PCont sub =>
                       forall args chain,
                         emits_only P
                           (cont_multi_map_on op key_chains to_apply prune
                              sub args chain)
                   | _ => True
                   end); try exact I.
  - exact IHsk.
  - intros. apply emits_only_ret.
  - intros args chain. cbn [cont_multi_map_on].
    destruct (values_at key args) as [values |]; [| apply IHsk0].
    apply emits_only_bind.
    + destruct value;
        try (destruct (applies_at key_chains to_apply (join_key_chain chain key));
             [ apply emits_only_bind; [apply Hop | intro; apply emits_only_ret]
             | destruct prune; apply emits_only_ret ]).
      apply emits_only_bind; [apply IHsk | intro; apply emits_only_ret].
    + intro o. apply emits_only_bind; [apply IHsk0 | intro; apply emits_only_ret].
Qed.
End EmitsOnly.

Section Unwrapping.
Variable impl : Backend -> string -> list PyVal -> option PyVal -> Exc + PyVal.

Lemma to_native_unwraps (x : PyVal) : wrapped (to_native x) = false.
Proof. destruct x; reflexivity. Qed.

Lemma unwrapped_to_native_arrays_and_back (name : string) (pick : nat) (c : Call) :
  emits_only array_free
    (to_native_arrays_and_back
       (handle_array_function (backend_primitive impl name pick)) c).
Proof.
  unfold to_native_arrays_and_back, handle_array_function, backend_primitive.
  apply emits_only_bind; [| intro; apply emits_only_pure, pure_to_ivy].
  apply emits_only_bind; [apply emits_only_pure, pure_current_backend | intro b].
  apply emits_only_bind.
  - intro w. simpl. constructor; [| constructor].
    unfold passed. simpl. apply Forall_app. split.
    + rewrite Forall_map. apply Forall_forall. intros x _. apply to_native_unwraps.
    + destruct (call_out c); simpl; constructor;
        [apply to_native_unwraps | constructor].
  - intros _. match goal with |- context [impl ?a ?b ?c ?d] => destruct (impl a b c d) end;
      [apply emits_only_raise | apply emits_only_ret].
Qed.

Lemma unwrapped_handle_out_argument (fn : Fn) :
  (forall c, emits_only array_free (fn c)) ->
  forall c, emits_only array_free (handle_out_argument fn c).
Proof.
  intros Hfn c. unfold handle_out_argument.
  destruct (call_out c) as [o |]; [| apply Hfn].
  apply emits_only_bind; [apply emits_only_pure, pure_current_backend | intro b].
  apply emits_only_bind.
  - destruct (native_out b); apply Hfn.
  - intro r. destruct o; try apply emits_only_raise.
    destruct (value_shape (PArr a)); try apply emits_only_raise.
    destruct (value_shape r); try apply emits_only_raise.
    destruct (shape_eqb l l0); try apply emits_only_raise.
    apply emits_only_bind; [| intro; apply emits_only_ret].
    apply emits_only_pure, pure_call_on, quiet_data_setter.
Qed.

Lemma unwrapped_handle_array_like (fn : Fn) :
  (forall c, emits_only array_free (fn c)) ->
  forall c, emits_only array_free (handle_array_like_without_promotion fn c).
Proof.
  intros Hfn c. unfold handle_array_like_without_promotion.
  apply emits_only_bind; [| intro; apply Hfn].
  apply emits_only_mapM. intro v. destruct v; try apply emits_only_ret.
  apply emits_only_bind;
    [apply emits_only_pure, pure_ivy_array | intro; apply emits_only_ret].
Qed.

Lemma unwrapped_handle_nestable (pipeline fn : Fn) :
  (forall c, emits_only array_free (pipeline c)) ->
  (forall c, emits_only array_free (fn c)) ->
  forall c, emits_only array_free (handle_nestable pipeline fn c).
Proof.
  intros Hp Hfn c. unfold handle_nestable.
  destruct (existsb is_ivy_container (passed c)); [| apply Hfn].
  apply emits_only_bind; [| intro; apply emits_only_ret].
  unfold cont_multi_map. destruct (first_container (passed c));
    [| apply emits_only_ret].
  apply emits_only_multi_map_on. intros vals path. apply Hp.
Qed.

Lemma unwrapped_handle_exceptions (fn : Fn) :
  (forall c, emits_only array_free (fn c)) ->
  forall c, emits_only array_free (handle_exceptions fn c).
Proof.
  intros Hfn c. unfold handle_exceptions.
  apply emits_only_try; [apply Hfn | intro; apply emits_only_raise].
Qed.

Ltac unwrapped_chain IH :=
  apply unwrapped_handle_exceptions, unwrapped_handle_nestable; [exact IH |];
  apply unwrapped_handle_array_like;
  try apply unwrapped_handle_out_argument;
  apply unwrapped_to_native_arrays_and_back.

Lemma unwrapped_searching (name : string) (prim : nat -> Fn) :
  searching impl name = Some prim ->
  forall fuel c, emits_only array_free (prim fuel c).
Proof.
  unfold searching. intro H.
  destruct (String.eqb name "argmax");
    [| destruct (String.eqb name "argmin");
       [| destruct (String.eqb name "nonzero");
          [| destruct (String.eqb name "where");
             [| destruct (String.eqb name "argwhere"); [| discriminate]]]]];
    inversion H; subst prim; clear H;
    (induction fuel as [| n IH]; [intro c; apply emits_only_raise |]);
    cbn [argmax argmin nonzero where_ argwhere]; unwrapped_chain IH.
Qed.
End Unwrapping.

(** X12. For each decorated primitive of searching.py ([argmax],
    [argmin], [nonzero], [where], [argwhere]), whatever the call: no
    backend primitive is invoked with an [ivy.Array] among its arguments
    or as its [out] target.  The wrapper that unwraps Arrays is the one
    next to the primitive, inside every other wrapper. *)
Theorem arrays_never_reach_backend
    (impl : Backend -> string -> list PyVal -> option PyVal -> Exc + PyVal)
    (name : string) (prim : nat -> Fn) :
  searching impl name = Some prim ->
  forall (fuel : nat) (c : Call) (w : World),
    Forall array_free (events (prim fuel c w)).
Proof.
  intros H fuel c w. apply (unwrapped_searching impl name prim H fuel c w).
Qed.

Lemma arrays_never_reach_backend_witness :
  Forall array_free
    (events (where_ echo_impl 2
               (plain_call [PArr numpy_array; PArr numpy_array; PCont tree_a]
                  (Some (PArr numpy_array)))
               (world_with [numpy_backend]))).
Proof.
  apply (arrays_never_reach_backend echo_impl "where" (where_ echo_impl)).
  vm_compute. reflexivity.
Defined.

(* ================================================================== *)
(** ** Further properties of the Container methods *)
(* ================================================================== *)

Lemma covered_behind_self (sk : Container) (k0 : string) (v1 : PyVal)
    (c1 : Container) (extras : list PyVal) :
  ~ In k0 (cont_keys sk) ->
  covered sk (PCont c1 :: extras) ->
  covered sk (PCont (CItem k0 v1 c1) :: extras).
Proof.
  induction sk as [| key v0 rest IH]; intros Hk Hc; [exact I |].
  simpl in Hk. destruct Hc as [Hv Hrest]. split.
  - assert (E : String.eqb k0 key = false).
    { apply String.eqb_neq. intro Heq. apply Hk. left. symmetry. exact Heq. }
    cbn [values_at cont_lookup]. rewrite E. exact Hv.
  - apply IH; [intro; apply Hk; right; assumption | exact Hrest].
Qed.

Lemma covered_self (c : Container) :
  forall extras,
    unique_keys c ->
    Forall (fun x => is_ivy_container x = false) extras ->
    covered c (PCont c :: extras).
Proof.
  induction c using Container_mutind with
    (P := fun v => match v with
                   | PCont sub =>
                       forall extras,
                         unique_keys sub ->
                         Forall (fun x => is_ivy_container x = false) extras ->
                         covered sub (PCont sub :: extras)
                   | _ => True
                   end); try exact I.
  - exact IHc.
  - intros. exact I.
  - intros extras Hu Hex. destruct Hu as (Hk & Huv & Hur).
    split.
    + cbn [values_at cont_lookup]. rewrite String.eqb_refl.
      rewrite (values_at_plain key extras Hex).
      destruct value; try exact I.
      apply IHc; [exact Huv | exact Hex].
    + apply covered_behind_self; [exact Hk |]. apply IHc0; assumption.
Qed.

(** X13. The instance method [moveaxis] of a Container, called with a
    source and a destination that are not Containers and without [out]:
    the instance method cannot filter or prune, so a call that returns
    gives a Container with the key structure of [self], and the call
    returns whenever [ivy.moveaxis] returns on every leaf. *)
Theorem container_moveaxis_keeps_every_key (ivy_moveaxis : Fn)
    (self_ : Container) (source destination : PyVal) (w : World) :
  unique_keys self_ ->
  is_ivy_container source = false -> is_ivy_container destination = false ->
  (forall r, outcome (moveaxis ivy_moveaxis self_ source destination None w) = inr r ->
             keys_agree self_ r) /\
  ((forall c w', exists v, outcome (ivy_moveaxis c w') = inr v) ->
   exists r, outcome (moveaxis ivy_moveaxis self_ source destination None w) = inr r).
Proof.
  intros Hu Hs Hd.
  unfold moveaxis, static_moveaxis, cont_multi_map, first_container, passed.
  cbn [call_args call_out app find is_ivy_container].
  split.
  - intros r Hr. eapply multi_map_on_keys; [| exact Hr].
    apply covered_self; [exact Hu |].
    constructor; [exact Hs |]. constructor; [exact Hd | constructor].
  - intro Hop. apply multi_map_on_total. intros vals path w'. apply Hop.
Qed.

Lemma container_moveaxis_keeps_every_key_witness :
  exists r,
    outcome (moveaxis (fun _ => ret (PScalar 0)) tree_a (PScalar 0)
               (PScalar (-1)) None (world_with [numpy_backend])) = inr r /\
    keys_agree tree_a r.
Proof.
  destruct (container_moveaxis_keeps_every_key (fun _ => ret (PScalar 0))
              tree_a (PScalar 0) (PScalar (-1)) (world_with [numpy_backend]))
    as [Hk Ht].
  - vm_compute. intuition discriminate.
  - reflexivity.
  - reflexivity.
  - destruct Ht as [r Hr].
    + intros c w'. exists (PScalar 0). reflexivity.
    + exists r. split; [exact Hr | apply Hk; exact Hr].
Defined.

(* ================================================================== *)
(** ** Properties of nested arrays *)
(* ================================================================== *)

Section NestedShape.
Import nested_array.

Lemma getitem_nth {A} (l : list A) (i : nat) (d : A) :
  (i < List.length l)%nat -> getitem l i = inr (nth i l d).
Proof.
  intro H. unfold getitem.
  destruct (nth_error l i) as [x |] eqn:E.
  - rewrite (nth_error_nth _ _ d E). reflexivity.
  - apply nth_error_None in E. lia.
Qed.

Lemma same_shape_loop_closed (shapes : list (list Z)) (i : nat) (c : Z)
    (js : list nat) :
  (forall j, In j js -> (j < List.length shapes)%nat) ->
  (forall s, In s shapes -> (i < List.length s)%nat) ->
  same_shape_loop shapes i c js
  = inr (forallb (fun j => nth i (nth j shapes []) 0 =? c) js).
Proof.
  intros Hj Hs. induction js as [| j js IH]; [reflexivity |].
  cbn [same_shape_loop forallb].
  rewrite (getitem_nth shapes j []) by (apply Hj; left; reflexivity).
  cbn [and_then].
  rewrite (getitem_nth (nth j shapes []) i 0).
  - cbn [and_then].
    destruct (nth i (nth j shapes []) 0 =? c); simpl; [| reflexivity].
    apply IH. intros j' Hj'. apply Hj. right. exact Hj'.
  - apply Hs. apply nth_In. apply Hj. left. reflexivity.
Qed.

Lemma forallb_through_map {A B} (g : A -> B) (f : B -> bool) (l : list A) :
  forallb f (map g l) = forallb (fun x => f (g x)) l.
Proof.
  induction l as [| x l IH]; [reflexivity |]. simpl. rewrite IH. reflexivity.
Qed.

Lemma forallb_seq_nth {A} (f : A -> bool) (l : list A) (d : A) :
  forallb (fun j => f (nth j l d)) (seq 0 (List.length l)) = forallb f l.
Proof.
  induction l as [| x l IH]; [reflexivity |].
  cbn [List.length seq forallb nth]. f_equal.
  rewrite <- seq_shift, forallb_through_map. exact IH.
Qed.

Lemma final_shape_loop_closed (data : list Array) (a0 : Array)
    (rest : list Array) (axes : list nat) :
  data = a0 :: rest ->
  (forall a i, In a data -> In i axes -> (i < array_ndim a)%nat) ->
  final_shape_loop (map array_shape data) (List.length data) axes
  = inr (map (fun i => nested_common_dim data (nth i (array_shape a0) 0) i) axes).
Proof.
  intros Hd Hr. induction axes as [| i axes IH]; [reflexivity |].
  cbn [final_shape_loop map].
  assert (H0 : getitem (map array_shape data) 0 = inr (array_shape a0))
    by (rewrite Hd; reflexivity).
  rewrite H0. cbn [and_then].
  rewrite (getitem_nth (array_shape a0) i 0).
  2:{ apply (Hr a0 i); [rewrite Hd; left; reflexivity | left; reflexivity]. }
  cbn [and_then].
  rewrite same_shape_loop_closed.
  - cbn [and_then]. rewrite IH.
    + cbn [and_then]. f_equal. f_equal. unfold nested_common_dim.
      rewrite <- (length_map array_shape data).
      rewrite (forallb_seq_nth (fun s => nth i s 0 =? nth i (array_shape a0) 0)).
      rewrite forallb_through_map. reflexivity.
    + intros a i' Ha Hi'. apply Hr; [exact Ha | right; exact Hi'].
  - intros j Hj. apply in_seq in Hj. rewrite length_map. lia.
  - intros s Hs. apply in_map_iff in Hs. destruct Hs as (a & <- & Ha).
    apply (Hr a i Ha). left. reflexivity.
Qed.

Lemma count_occ_all (l : list nat) (x : nat) :
  count_occ Nat.eq_dec l x = List.length l <-> (forall y, In y l -> y = x).
Proof.
  induction l as [| y l [IH1 IH2]].
  - split; [intros _ z [] | reflexivity].
  - split.
    + intro H. destruct (Nat.eq_dec y x) as [E | Hne].
      * rewrite (count_occ_cons_eq Nat.eq_dec l E) in H.
        injection H as H.
        intros z [<- | Hz]; [exact E | apply IH1; [exact H | exact Hz]].
      * rewrite (count_occ_cons_neq Nat.eq_dec l Hne) in H.
        pose proof (count_occ_bound Nat.eq_dec x l). simpl in H. lia.
    + intro H.
      assert (E : y = x) by (apply H; left; reflexivity).
      rewrite (count_occ_cons_eq Nat.eq_dec l E). simpl. f_equal.
      apply IH2. intros z Hz. apply H. right. exact Hz.
Qed.

Lemma generate_shape_closed (data : list Array) (a0 : Array)
    (rest : list Array) :
  data = a0 :: rest ->
  (forall a, In a data -> array_ndim a = array_ndim a0) ->
  _generate_shape data
  = inr (Some (Z.of_nat (List.length data))
           :: map (fun i => nested_common_dim data (nth i (array_shape a0) 0) i)
                (seq 0 (array_ndim a0))).
Proof.
  intros Hd Hr. unfold _generate_shape.
  assert (H0 : getitem (map array_ndim data) 0 = inr (array_ndim a0))
    by (rewrite Hd; reflexivity).
  rewrite H0. cbn [and_then].
  assert (Hc : count_occ Nat.eq_dec (map array_ndim data) (array_ndim a0)
               = List.length (map array_ndim data)).
  { apply count_occ_all. intros y Hy. apply in_map_iff in Hy.
    destruct Hy as (a & <- & Ha). apply Hr. exact Ha. }
  rewrite Hc, Nat.eqb_refl. cbn [negb].
  rewrite (final_shape_loop_closed data a0 rest _ Hd).
  - reflexivity.
  - intros a i Ha Hi. apply in_seq in Hi. rewrite (Hr a Ha). lia.
Qed.
End NestedShape.

Section NestedArrays.
Import nested_array.

Lemma generate_shape_returns (data : list Array) (s : list (option Z)) :
  _generate_shape data = inr s ->
  exists a0 rest,
    data = a0 :: rest /\
    (forall a, In a data -> array_ndim a = array_ndim a0).
Proof.
  unfold _generate_shape. destruct data as [| a0 rest]; [discriminate |].
  cbn [map getitem nth_error and_then].
  destruct (Nat.eqb (count_occ Nat.eq_dec (array_ndim a0 :: map array_ndim rest)
                       (array_ndim a0))
              (List.length (array_ndim a0 :: map array_ndim rest))) eqn:E;
    [| discriminate].
  intros _. exists a0, rest. split; [reflexivity |].
  apply Nat.eqb_eq in E.
  pose proof (proj1 (count_occ_all _ _) E) as H.
  intros a Ha. apply (H (array_ndim a)).
  change (In (array_ndim a) (map array_ndim (a0 :: rest))).
  apply in_map. exact Ha.
Qed.

Lemma nth_common_dims (data : list Array) (a0 : Array) (i : nat) :
  (i < array_ndim a0)%nat ->
  nth i (map (fun i => nested_common_dim data (nth i (array_shape a0) 0) i)
           (seq 0 (array_ndim a0))) None
  = nested_common_dim data (nth i (array_shape a0) 0) i.
Proof.
  intro Hi.
  rewrite (nth_indep _ None (nested_common_dim data (nth 0%nat (array_shape a0) 0) 0%nat))
    by (rewrite length_map, length_seq; exact Hi).
  rewrite (map_nth (fun i => nested_common_dim data (nth i (array_shape a0) 0) i)).
  rewrite seq_nth by exact Hi. reflexivity.
Qed.

Lemma generate_shape_uniform (a0 : Array) (rest : list Array) :
  (forall a, In a (a0 :: rest) -> array_ndim a = array_ndim a0) ->
  exists dims,
    _generate_shape (a0 :: rest)
    = inr (Some (Z.of_nat (S (List.length rest))) :: dims) /\
    List.length dims = array_ndim a0 /\
    forall i, (i < array_ndim a0)%nat ->
      ((forall a, In a (a0 :: rest) ->
                  nth i (array_shape a) 0 = nth i (array_shape a0) 0) ->
       nth i dims None = Some (nth i (array_shape a0) 0)) /\
      ((exists a, In a (a0 :: rest) /\
                  nth i (array_shape a) 0 <> nth i (array_shape a0) 0) ->
       nth i dims None = None).
Proof.
  intro Hr.
  rewrite (generate_shape_closed (a0 :: rest) a0 rest eq_refl Hr).
  eexists. split; [reflexivity |]. split.
  - rewrite length_map, length_seq. reflexivity.
  - intros i Hi. rewrite (nth_common_dims (a0 :: rest) a0 i Hi).
    unfold nested_common_dim.
    destruct (forallb (fun a => nth i (array_shape a) 0 =? nth i (array_shape a0) 0)
                (a0 :: rest)) eqn:E.
    + split; [reflexivity |].
      intros (a & Ha & Hne). exfalso. apply Hne.
      apply Z.eqb_eq. exact (proj1 (forallb_forall _ _) E a Ha).
    + split; [| reflexivity].
      intro Hall. exfalso.
      assert (E' : forallb (fun a => nth i (array_shape a) 0
                                     =? nth i (array_shape a0) 0)
                     (a0 :: rest) = true).
      { apply forallb_forall. intros a Ha. apply Z.eqb_eq. apply Hall. exact Ha. }
      congruence.
Qed.
End NestedArrays.

(** X14. The shape of a nested array whose arrays all have the number of
    dimensions of the first one.  [_generate_shape] returns: the first
    entry is the number of arrays, one entry follows for each axis of
    the arrays, and the entry of an axis is the dimension of the first
    array there when every array has that dimension, and [None] as soon
    as one array differs.  No index of the two loops is out of range. *)
Theorem nested_shape_of_uniform_rank (a0 : Array) (rest : list Array) :
  (forall a, In a (a0 :: rest) ->
             nested_array.array_ndim a = nested_array.array_ndim a0) ->
  exists dims,
    nested_array._generate_shape (a0 :: rest)
    = inr (Some (Z.of_nat (S (List.length rest))) :: dims) /\
    List.length dims = nested_array.array_ndim a0 /\
    forall i, (i < nested_array.array_ndim a0)%nat ->
      ((forall a, In a (a0 :: rest) ->
                  nth i (nested_array.array_shape a) 0
                  = nth i (nested_array.array_shape a0) 0) ->
       nth i dims None = Some (nth i (nested_array.array_shape a0) 0)) /\
      ((exists a, In a (a0 :: rest) /\
                  nth i (nested_array.array_shape a) 0
                  <> nth i (nested_array.array_shape a0) 0) ->
       nth i dims None = None).
Proof. exact (generate_shape_uniform a0 rest). Qed.

Lemma nested_shape_of_uniform_rank_witness :
  exists dims,
    nested_array._generate_shape [numpy_array; numpy_pair]
    = inr (Some 2 :: dims) /\
    nth 0 dims None = None.
Proof.
  destruct (nested_shape_of_uniform_rank numpy_array [numpy_pair])
    as (dims & Hg & _ & Hi).
  - intros a [<- | [<- | []]]; reflexivity.
  - exists dims. split; [exact Hg |].
    apply (Hi 0%nat).
    + vm_compute. constructor.
    + exists numpy_pair. split; [right; left; reflexivity |].
      vm_compute. discriminate.
Defined.

(** X15. How the construction of a nested array fails.  Without
    [internal=True] the constructor raises [RuntimeError] whatever the
    data.  With it, an empty list of arrays raises [IndexError] (the read
    of [ndims[0]]), and a list in which some array has another number of
    dimensions than the first raises [RuntimeError]. *)
Theorem nested_array_construction_fails (data : list Array)
    (dtype : option Dtype) (device : option string) :
  (exists msg,
     nested_array.__init__ data dtype device false
     = inl (nested_array.RuntimeError msg)) /\
  (data = [] ->
   nested_array.__init__ data dtype device true = inl nested_array.IndexError) /\
  (forall a0 rest a,
     data = a0 :: rest -> In a rest ->
     nested_array.array_ndim a <> nested_array.array_ndim a0 ->
     exists msg,
       nested_array.__init__ data dtype device true
       = inl (nested_array.RuntimeError msg)).
Proof.
  split; [| split].
  - eexists. reflexivity.
  - intros ->. reflexivity.
  - intros a0 rest a -> Ha Hne.
    unfold nested_array.__init__, nested_array._generate_shape.
    cbn [negb map nested_array.getitem nth_error nested_array.and_then].
    destruct (Nat.eqb
                (count_occ Nat.eq_dec
                   (nested_array.array_ndim a0
                      :: map nested_array.array_ndim rest)
                   (nested_array.array_ndim a0))
                (List.length
                   (nested_array.array_ndim a0
                      :: map nested_array.array_ndim rest))) eqn:E.
    + exfalso. apply Hne. apply Nat.eqb_eq in E.
      apply (proj1 (count_occ_all _ _) E). right. apply in_map. exact Ha.
    + eexists. reflexivity.
Qed.

Lemma nested_array_construction_fails_witness :
  exists msg,
    nested_array.__init__ [numpy_array; numpy_scalar] None None true
    = inl (nested_array.RuntimeError msg).
Proof.
  destruct (nested_array_construction_fails [numpy_array; numpy_scalar]
              None None) as (_ & _ & H).
  apply (H numpy_array [numpy_scalar] numpy_scalar).
  - reflexivity.
  - left. reflexivity.
  - vm_compute. discriminate.
Defined.

(** X16. What holds of a nested array once the constructor returned: it
    holds at least one array, its [ndim] is one more than that of its
    arrays, the first entry of its [shape] is the number of arrays,
    [unbind] gives the arrays back, and an integer index is valid
    exactly when it lies between minus that number and that number. *)
Theorem nested_array_invariants (data : list Array) (dtype : option Dtype)
    (device : option string) (na : nested_array.NestedArray) :
  nested_array.__init__ data dtype device true = inr na ->
  let n := Z.of_nat (List.length data) in
  0 < n /\
  nested_array.unbind na = data /\
  nth 0 (nested_array.shape na) None = Some n /\
  (forall a, In a data ->
             nested_array.ndim na = S (nested_array.array_ndim a)) /\
  (forall q, - n <= q < n ->
             exists a, nested_array.__getitem__ na q = inr a /\ In a data) /\
  (forall q, q < - n \/ n <= q ->
             nested_array.__getitem__ na q = inl nested_array.IndexError).
Proof.
  unfold nested_array.__init__. cbn [negb].
  destruct (nested_array._generate_shape data) as [e | s] eqn:Es;
    [discriminate |].
  cbn [nested_array.and_then]. intro H. inversion H. subst na. clear H.
  destruct (generate_shape_returns data s Es) as (a0 & rest & Hd & Hr).
  subst data.
  destruct (generate_shape_uniform a0 rest Hr) as (dims & Hg & Hl & _).
  rewrite Hg in Es. inversion Es. subst s. clear Es.
  cbv zeta.
  unfold nested_array.unbind, nested_array.shape, nested_array.ndim,
    nested_array.__getitem__, nested_array.list_getitem.
  cbn [nested_array._data nested_array._shape nth].
  split; [| split; [| split; [| split; [| split]]]].
  - cbn [List.length]. lia.
  - reflexivity.
  - reflexivity.
  - intros a Ha. cbn [List.length]. rewrite Hl, (Hr a Ha). reflexivity.
  - intros q Hq.
    assert (E1 : (- Z.of_nat (List.length (a0 :: rest)) <=? q) = true)
      by (apply Z.leb_le; lia).
    assert (E2 : (q <? Z.of_nat (List.length (a0 :: rest))) = true)
      by (apply Z.ltb_lt; lia).
    rewrite E1, E2. cbn [andb].
    set (k := Z.to_nat (if q <? 0
                        then q + Z.of_nat (List.length (a0 :: rest)) else q)).
    assert (Hk : (k < List.length (a0 :: rest))%nat).
    { subst k. destruct (q <? 0) eqn:E; [apply Z.ltb_lt in E | apply Z.ltb_ge in E];
        lia. }
    rewrite (getitem_nth (a0 :: rest) k a0 Hk).
    eexists. split; [reflexivity |]. apply nth_In. exact Hk.
  - intros q Hq.
    destruct (- Z.of_nat (List.length (a0 :: rest)) <=? q) eqn:E1;
      [| reflexivity].
    destruct (q <? Z.of_nat (List.length (a0 :: rest))) eqn:E2;
      [| reflexivity].
    apply Z.leb_le in E1. apply Z.ltb_lt in E2. lia.
Qed.

Lemma nested_array_invariants_witness :
  exists na,
    nested_array.__init__ [numpy_array; numpy_pair] None None true = inr na /\
    nested_array.ndim na = S (nested_array.array_ndim numpy_array) /\
    nested_array.__getitem__ na 2 = inl nested_array.IndexError.
Proof.
  assert (H : exists na,
             nested_array.__init__ [numpy_array; numpy_pair] None None true
             = inr na) by (eexists; vm_compute; reflexivity).
  destruct H as [na H]. exists na. split; [exact H |].
  destruct (nested_array_invariants [numpy_array; numpy_pair] None None na H)
    as (_ & _ & _ & Hn & _ & He).
  split.
  - apply Hn. left. reflexivity.
  - apply He. right. simpl. lia.
Defined.

Section NestedReshape.
Import nested_array.
Variable array_reshape : Array -> list Z -> PyExc + Array.
Hypothesis reshape_gives_shape :
  forall a s a', array_reshape a s = inr a' -> array_shape a' = s.

Lemma new_shape_loop_explicit (data : list Array) (i : nat) (shape : list Z)
    (k m : nat) :
  (k + m = List.length shape)%nat ->
  ~ In (-1) (skipn k shape) ->
  new_shape_loop data i shape (seq k m) = inr (skipn k shape).
Proof.
  revert k. induction m as [| m IH]; intros k Hk Hn.
  - rewrite skipn_all2 by lia. reflexivity.
  - cbn [seq new_shape_loop].
    destruct (nth_error shape k) as [x |] eqn:E.
    2:{ apply nth_error_None in E. lia. }
    assert (Hs : skipn k shape = x :: skipn (S k) shape).
    { clear - E. revert k E. induction shape as [| y l IHl]; intros [| k] E;
        simpl in E; try discriminate.
      - inversion E. reflexivity.
      - simpl. apply IHl. exact E. }
    unfold getitem at 1. rewrite E. cbn [and_then].
    assert (Hx : (x =? -1) = false).
    { apply Z.eqb_neq. intros ->. apply Hn. rewrite Hs. left. reflexivity. }
    rewrite Hx. cbn [and_then]. rewrite IH.
    + cbn [and_then]. rewrite Hs. reflexivity.
    + lia.
    + intro H. apply Hn. rewrite Hs. right. exact H.
Qed.

Lemma length_setitem {A} (l : list A) (i : nat) (x : A) :
  List.length (setitem l i x) = List.length l.
Proof.
  revert i. induction l as [| y l IH]; intros [| i]; simpl; auto.
Qed.

Lemma nth_setitem {A} (l : list A) (i j : nat) (x d : A) :
  (i < List.length l)%nat ->
  nth j (setitem l i x) d = if Nat.eqb i j then x else nth j l d.
Proof.
  revert i j. induction l as [| y l IH]; intros [| i] [| j] H; simpl in *;
    try lia; try reflexivity.
  apply IH. lia.
Qed.

Lemma reshape_loop_explicit (dims : list Z) (shape0 : Z) (d : Array) (m : nat) :
  ~ In (-1) dims ->
  forall (k : nat) (data : list Array) (printed : list (list Z))
         (data' : list Array) (printed' : list (list Z)),
    (k + m <= List.length data)%nat ->
    reshape_loop array_reshape (shape0 :: dims) data printed (seq k m)
    = (inr tt, data', printed') ->
    List.length data' = List.length data /\
    printed' = printed ++ repeat dims m /\
    (forall i, (k <= i < k + m)%nat -> array_shape (nth i data' d) = dims) /\
    (forall i, (i < k)%nat -> nth i data' d = nth i data d).
Proof.
  intro Hn. induction m as [| m IH]; intros k data printed data' printed' Hk H.
  - simpl in H. inversion H. subst. rewrite app_nil_r.
    repeat split; auto. intros i Hi. lia.
  - cbn [seq reshape_loop] in H.
    cbn [List.length Nat.sub] in H. rewrite Nat.sub_0_r in H.
    rewrite (new_shape_loop_explicit data k (shape0 :: dims) 1 (List.length dims))
      in H by (simpl; auto).
    cbn [and_then skipn] in H.
    rewrite (getitem_nth data k d) in H by lia.
    cbn [and_then] in H.
    destruct (array_reshape (nth k data d) dims) as [e | arr'] eqn:Er;
      [discriminate |].
    pose proof (reshape_gives_shape _ _ _ Er) as Hs.
    apply IH in H; [| rewrite length_setitem; lia].
    destruct H as (Hl & Hp & Hin & Hout).
    rewrite length_setitem in Hl. rewrite Hs in Hp.
    split; [exact Hl |]. split; [| split].
    + rewrite Hp, <- app_assoc. reflexivity.
    + intros i Hi. destruct (Nat.eq_dec i k) as [-> | Hne].
      * rewrite Hout by lia. rewrite nth_setitem by lia.
        rewrite Nat.eqb_refl. exact Hs.
      * apply Hin. lia.
    + intros i Hi. rewrite Hout by lia. rewrite nth_setitem by lia.
      destruct (Nat.eqb k i) eqn:E; [apply Nat.eqb_eq in E; lia | reflexivity].
Qed.

Lemma generate_shape_all_same (data : list Array) (dims : list Z) (d : Array) :
  (0 < List.length data)%nat ->
  (forall i, (i < List.length data)%nat -> array_shape (nth i data d) = dims) ->
  _generate_shape data
  = inr (Some (Z.of_nat (List.length data)) :: map Some dims).
Proof.
  intros Hpos Hall.
  assert (Hin : forall a, In a data -> array_shape a = dims).
  { intros a Ha. destruct (In_nth data a d Ha) as (i & Hi & <-).
    apply Hall. exact Hi. }
  destruct data as [| a0 rest]; [simpl in Hpos; lia |].
  rewrite (generate_shape_closed (a0 :: rest) a0 rest eq_refl).
  - f_equal. f_equal. unfold array_ndim.
    rewrite (Hin a0) by (left; reflexivity).
    transitivity (map Some (map (fun i => nth i dims 0)
                              (seq 0 (List.length dims))));
      [| rewrite map_nth_seq; reflexivity].
    rewrite map_map. apply map_ext_in. intros i Hi. unfold nested_common_dim.
    assert (E : forallb (fun a => nth i (array_shape a) 0 =? nth i dims 0)
                  (a0 :: rest) = true).
    { apply forallb_forall. intros a Ha. rewrite (Hin a Ha). apply Z.eqb_refl. }
    rewrite E. reflexivity.
  - intros a Ha. unfold array_ndim. rewrite (Hin a Ha), (Hin a0); auto.
    left. reflexivity.
Qed.

Lemma reshape_explicit (data : list Array) (dtype : option Dtype)
    (device : option string) (na : NestedArray) (shape0 : Z) (dims : list Z) :
  __init__ data dtype device true = inr na ->
  let r := reshape array_reshape na (shape0 :: dims) in
  (shape0 <> Z.of_nat (List.length data) ->
   r = (inl (AssertionError "batch dimension is not changeable"), na, [])) /\
  (~ In (-1) dims -> fst (fst r) = inr tt ->
   shape (snd (fst r)) = Some shape0 :: map Some dims /\
   snd r = repeat dims (List.length data) /\
   List.length (_data (snd (fst r))) = List.length data).
Proof.
  unfold __init__. cbn [negb].
  destruct (_generate_shape data) as [e | s] eqn:Es; [discriminate |].
  cbn [and_then]. intro H. inversion H. subst na. clear H.
  destruct (generate_shape_returns data s Es) as (a0 & rest & Hd & Hr).
  destruct (generate_shape_uniform a0 rest) as (dims0 & Hg & _).
  { intros a Ha. apply Hr. rewrite Hd. exact Ha. }
  rewrite Hd in Es. rewrite Hg in Es. inversion Es. subst s. clear Es.
  assert (Hlen : Z.of_nat (S (List.length rest)) = Z.of_nat (List.length data))
    by (rewrite Hd; reflexivity).
  cbv zeta. unfold reshape.
  cbn [getitem nth_error and_then _shape _data _dtype _device _pre_repr].
  change (Z.pos (Pos.of_succ_nat (List.length rest)))
    with (Z.of_nat (S (List.length rest))).
  destruct (shape0 =? Z.of_nat (S (List.length rest))) eqn:E0.
  - apply Z.eqb_eq in E0. split; [intro Hne; exfalso; apply Hne; lia |].
    intros Hn.
    destruct (reshape_loop array_reshape (shape0 :: dims) data []
                (seq 0 (Z.to_nat shape0))) as [[res data'] printed] eqn:El.
    destruct res as [e | []]; [cbn [fst snd]; intro Hc; discriminate Hc |].
    assert (Hm : Z.to_nat shape0 = List.length data) by lia.
    rewrite Hm in El.
    destruct (reshape_loop_explicit dims shape0 a0 (List.length data) Hn 0
                data [] data' printed (Nat.le_refl _) El)
      as (Hl & Hp & Hin & _).
    rewrite (generate_shape_all_same data' dims a0).
    + intros _. cbn [fst snd shape _shape _data]. rewrite Hl.
      repeat split; auto. f_equal. f_equal. lia.
    + rewrite Hl, Hd. simpl. lia.
    + intros i Hi. apply Hin. rewrite Hl in Hi. lia.
  - apply Z.eqb_neq in E0. split; [reflexivity |].
    intros _ Hc. discriminate Hc.
Qed.
End NestedReshape.

(** X17. [reshape] of a nested array built by the constructor, whatever
    the [reshape] of an Array does provided it answers with the shape it
    was asked.  A first entry that is not the number of arrays raises
    [AssertionError] and changes nothing.  Otherwise, when no later entry
    is [-1] and the call returns, the shape of the nested array is the
    one asked, there are as many arrays as before, and the requested
    shape was printed once for each array. *)
Theorem nested_reshape_to_explicit_shape
    (array_reshape : Array -> list Z -> nested_array.PyExc + Array)
    (data : list Array) (dtype : option Dtype) (device : option string)
    (na : nested_array.NestedArray) (shape0 : Z) (dims : list Z) :
  (forall a s a', array_reshape a s = inr a' ->
                  nested_array.array_shape a' = s) ->
  nested_array.__init__ data dtype device true = inr na ->
  let r := nested_array.reshape array_reshape na (shape0 :: dims) in
  (shape0 <> Z.of_nat (List.length data) ->
   r = (inl (nested_array.AssertionError "batch dimension is not changeable"),
        na, [])) /\
  (~ In (-1) dims -> fst (fst r) = inr tt ->
   nested_array.shape (snd (fst r)) = Some shape0 :: map Some dims /\
   snd r = repeat dims (List.length data) /\
   List.length (nested_array._data (snd (fst r))) = List.length data).
Proof.
  intros Hres Hinit.
  exact (reshape_explicit array_reshape Hres data dtype device na shape0 dims Hinit).
Qed.

Lemma nested_reshape_to_explicit_shape_witness :
  nested_array.reshape reshape_as_asked nested_pair [1; 3]
  = (inl (nested_array.AssertionError "batch dimension is not changeable"),
     nested_pair, []) /\
  nested_array.shape
    (snd (fst (nested_array.reshape reshape_as_asked nested_pair [2; 3; 1])))
  = [Some 2; Some 3; Some 1].
Proof.
  assert (Hr : forall a s a', reshape_as_asked a s = inr a' ->
                              nested_array.array_shape a' = s).
  { intros a s a' H. inversion H. reflexivity. }
  assert (Hi : nested_array.__init__ [numpy_array; numpy_array] None None true
               = inr nested_pair) by (vm_compute; reflexivity).
  split.
  - apply (nested_reshape_to_explicit_shape reshape_as_asked
             [numpy_array; numpy_array] None None nested_pair 1 [3] Hr Hi).
    simpl. lia.
  - apply (nested_reshape_to_explicit_shape reshape_as_asked
             [numpy_array; numpy_array] None None nested_pair 2 [3; 1] Hr Hi).
    + intros [H | [H | []]]; discriminate H.
    + vm_compute. reflexivity.
Defined.

(* ================================================================== *)
(** ** Properties of the tensorflow frontend wrappers *)
(* ================================================================== *)

Section KwargKeys.
Import tf_func_wrapper.
Context {V : Type}.

Lemma dict_get_set (d : Dict V) (k k' : string) (v : V) :
  dict_get (dict_set d k v) k'
  = if String.eqb k k' then Some v else dict_get d k'.
Proof.
  induction d as [| [k0 v0] d IH]; simpl.
  - reflexivity.
  - destruct (String.eqb k0 k) eqn:E; simpl.
    + apply String.eqb_eq in E. subst k0. destruct (String.eqb k k'); reflexivity.
    + rewrite IH. destruct (String.eqb k0 k') eqn:E'; [| reflexivity].
      apply String.eqb_eq in E'. subst k0.
      rewrite String.eqb_sym, E. reflexivity.
Qed.

Lemma dict_get_del (d : Dict V) (k k' : string) :
  dict_get (dict_del d k) k'
  = if String.eqb k k' then None else dict_get d k'.
Proof.
  induction d as [| [k0 v0] d IH]; simpl.
  - destruct (String.eqb k k'); reflexivity.
  - destruct (String.eqb k0 k) eqn:E; simpl.
    + apply String.eqb_eq in E. subst k0. rewrite IH.
      destruct (String.eqb k k'); reflexivity.
    + rewrite IH. destruct (String.eqb k0 k') eqn:E'; [| reflexivity].
      apply String.eqb_eq in E'. subst k0.
      rewrite String.eqb_sym, E. reflexivity.
Qed.

Lemma dict_get_in_keys (d : Dict V) (k : string) :
  In k (keys d) <-> dict_get d k <> None.
Proof.
  induction d as [| [k0 v0] d IH]; simpl.
  - split; [intros [] | congruence].
  - destruct (String.eqb k0 k) eqn:E.
    + apply String.eqb_eq in E. split; [discriminate | auto].
    + apply String.eqb_neq in E. rewrite <- IH. split.
      * intros [H | H]; [contradiction | exact H].
      * auto.
Qed.

Lemma rename_loop_absent (key val : string) (ks : list string) (u : Dict V) :
  ~ In key ks -> rename_loop key val ks u = inr u.
Proof.
  induction ks as [| k ks IH]; intro H; simpl; [reflexivity |].
  destruct (String.eqb key k) eqn:E.
  - apply String.eqb_eq in E. exfalso. apply H. left. auto.
  - apply IH. intro Hi. apply H. right. exact Hi.
Qed.

(** One turn of the outer loop, in one step. *)
Lemma rename_loop_step (key val : string) (ks : list string) (u : Dict V) :
  NoDup ks -> In key ks ->
  rename_loop key val ks u
  = match dict_get u key with
    | None => inl (KeyError key)
    | Some temp_key => inr (dict_set (dict_del u key) val temp_key)
    end.
Proof.
  induction ks as [| k ks IH]; intros Hn Hi; [destruct Hi |].
  inversion Hn as [| k0 l Hk Hn']. subst. simpl.
  destruct (String.eqb key k) eqn:E.
  - apply String.eqb_eq in E. subst k.
    destruct (dict_get u key); [| reflexivity].
    apply rename_loop_absent. exact Hk.
  - apply String.eqb_neq in E. apply IH; [exact Hn' |].
    destruct Hi as [H | H]; [congruence | exact H].
Qed.

Lemma update_loop_never_raises (items : Dict string) (ks : list string) :
  NoDup ks -> NoDup (keys items) ->
  forall u : Dict V,
    (forall key, In key (keys items) -> In key ks -> dict_get u key <> None) ->
    exists r, update_loop items ks u = inr r.
Proof.
  intros Hks. induction items as [| [key val] items IH]; intros Hn u Hu.
  - exists u. reflexivity.
  - cbn [update_loop]. simpl in Hn. inversion Hn as [| k0 l Hk Hn']. subst.
    destruct (in_dec string_dec key ks) as [Hi | Hi].
    + rewrite (rename_loop_step key val ks u Hks Hi).
      destruct (dict_get u key) as [t |] eqn:Eg.
      2:{ exfalso. apply (Hu key); [left; reflexivity | exact Hi | exact Eg]. }
      apply IH; [exact Hn' |].
      intros key' Hk' Hi'. rewrite dict_get_set, dict_get_del.
      destruct (String.eqb val key'); [discriminate |].
      destruct (String.eqb key key') eqn:E.
      * apply String.eqb_eq in E. subst key'. contradiction.
      * apply Hu; [right; exact Hk' | exact Hi'].
    + rewrite (rename_loop_absent key val ks u Hi).
      apply IH; [exact Hn' |].
      intros key' Hk' Hi'. apply Hu; [right; exact Hk' | exact Hi'].
Qed.

Lemma update_loop_untouched (items : Dict string) (ks : list string) :
  NoDup ks ->
  forall (u r : Dict V) k,
    update_loop items ks u = inr r ->
    ~ In k (keys items) -> ~ In k (map snd items) ->
    dict_get r k = dict_get u k.
Proof.
  intros Hks. induction items as [| [key val] items IH]; intros u r k H Hk Hv.
  - inversion H. reflexivity.
  - cbn [update_loop] in H. simpl in Hk, Hv.
    destruct (in_dec string_dec key ks) as [Hi | Hi].
    + rewrite (rename_loop_step key val ks u Hks Hi) in H.
      destruct (dict_get u key) as [t |]; [| discriminate].
      rewrite (IH _ _ k H) by tauto.
      rewrite dict_get_set, dict_get_del.
      destruct (String.eqb val k) eqn:E1;
        [apply String.eqb_eq in E1; tauto |].
      destruct (String.eqb key k) eqn:E2;
        [apply String.eqb_eq in E2; tauto | reflexivity].
    + rewrite (rename_loop_absent key val ks u Hi) in H.
      apply (IH _ _ k H); tauto.
Qed.

Lemma update_loop_renamed (items : Dict string) (ks : list string) :
  NoDup ks -> NoDup (keys items) -> NoDup (map snd items) ->
  (forall x, In x (map snd items) -> ~ In x (keys items)) ->
  forall (u r : Dict V) key val,
    update_loop items ks u = inr r ->
    In (key, val) items ->
    (In key ks ->
     dict_get r val = dict_get u key /\ dict_get r key = None) /\
    (~ In key ks ->
     dict_get r val = dict_get u val /\ dict_get r key = dict_get u key).
Proof.
  intros Hks.
  induction items as [| [key0 val0] items IH];
    intros Hn Ht Hd u r key val H Hin; [destruct Hin |].
  cbn [update_loop] in H. simpl in Hn, Ht.
  inversion Hn as [| a l Hk0 Hn']. inversion Ht as [| b l' Hv0 Ht']. subst.
  assert (Hd' : forall x, In x (map snd items) -> ~ In x (keys items)).
  { intros x Hx Hx'. apply (Hd x); [right; exact Hx | right; exact Hx']. }
  assert (Hsrc : forall k v, In (k, v) items -> In k (keys items)).
  { intros k v Hkv. apply (in_map fst) in Hkv. exact Hkv. }
  assert (Htgt : forall k v, In (k, v) items -> In v (map snd items)).
  { intros k v Hkv. apply (in_map snd) in Hkv. exact Hkv. }
  destruct Hin as [Heq | Hin].
  - inversion Heq. subst key0 val0. clear Heq.
    assert (Hvk : val <> key).
    { intro E. apply (Hd val); [left; reflexivity | left; auto]. }
    assert (Hval : ~ In val (keys items)).
    { intro Hx. apply (Hd val); [left; reflexivity | right; exact Hx]. }
    assert (Hkey : ~ In key (map snd items)).
    { intro Hx. apply (Hd key); [right; exact Hx | left; reflexivity]. }
    split; intro Hi.
    + rewrite (rename_loop_step key val ks u Hks Hi) in H.
      destruct (dict_get u key) as [t |] eqn:Eg; [| discriminate].
      rewrite (update_loop_untouched items ks Hks _ r val H Hval Hv0).
      rewrite (update_loop_untouched items ks Hks _ r key H Hk0 Hkey).
      rewrite !dict_get_set, !dict_get_del, String.eqb_refl.
      apply String.eqb_neq in Hvk. rewrite Hvk, String.eqb_refl.
      split; reflexivity.
    + rewrite (rename_loop_absent key val ks u Hi) in H.
      rewrite (update_loop_untouched items ks Hks _ r val H Hval Hv0).
      rewrite (update_loop_untouched items ks Hks _ r key H Hk0 Hkey).
      split; reflexivity.
  - assert (Hk : key <> key0).
    { intro E. subst key0. apply Hk0. apply (Hsrc key val Hin). }
    assert (Hv : val <> val0).
    { intro E. subst val0. apply Hv0. apply (Htgt key val Hin). }
    assert (Hkv0 : key <> val0).
    { intro E. subst val0.
      apply (Hd key); [left; reflexivity | right; apply (Hsrc key val Hin)]. }
    assert (Hvk0 : val <> key0).
    { intro E. subst key0.
      apply (Hd val); [right; apply (Htgt key val Hin) | left; reflexivity]. }
    destruct (in_dec string_dec key0 ks) as [Hi0 | Hi0].
    + rewrite (rename_loop_step key0 val0 ks u Hks Hi0) in H.
      destruct (dict_get u key0) as [t |] eqn:Eg; [| discriminate].
      assert (G : forall k, k <> key0 -> k <> val0 ->
                dict_get (dict_set (dict_del u key0) val0 t) k = dict_get u k).
      { intros k K1 K2. rewrite dict_get_set, dict_get_del.
        destruct (String.eqb val0 k) eqn:E1;
          [apply String.eqb_eq in E1; congruence |].
        destruct (String.eqb key0 k) eqn:E2;
          [apply String.eqb_eq in E2; congruence | reflexivity]. }
      destruct (IH Hn' Ht' Hd' _ r key val H Hin) as [IH1 IH2].
      rewrite (G key Hk Hkv0) in IH1, IH2. rewrite (G val Hvk0 Hv) in IH2.
      split; assumption.
    + rewrite (rename_loop_absent key0 val0 ks u Hi0) in H.
      exact (IH Hn' Ht' Hd' _ r key val H Hin).
Qed.
End KwargKeys.

(** X18. [_update_kwarg_keys] never raises [KeyError]: when a key of
    [to_update] is met among the keys of [kwargs], the copy still has
    it, whatever was renamed before. *)
Theorem update_kwarg_keys_never_raises {V : Type}
    (kwargs : tf_func_wrapper.Dict V) (to_update : tf_func_wrapper.Dict string) :
  NoDup (tf_func_wrapper.keys kwargs) ->
  NoDup (tf_func_wrapper.keys to_update) ->
  exists r, tf_func_wrapper._update_kwarg_keys kwargs to_update = inr r.
Proof.
  intros Hk Hu. unfold tf_func_wrapper._update_kwarg_keys.
  apply update_loop_never_raises; [exact Hk | exact Hu |].
  intros key _ Hi. apply dict_get_in_keys. exact Hi.
Qed.

(** X19. What [_update_kwarg_keys] returns when [to_update] maps distinct
    old names to distinct new names, none of which is an old name.  A
    keyword that is neither an old nor a new name keeps its value.  For
    an old name present in [kwargs], its value is found under the new
    name (replacing what [kwargs] had there, if anything) and the old
    name is gone.  For an old name absent from [kwargs] nothing
    changes. *)
Theorem update_kwarg_keys_renames {V : Type}
    (kwargs : tf_func_wrapper.Dict V) (to_update : tf_func_wrapper.Dict string)
    (r : tf_func_wrapper.Dict V) :
  NoDup (tf_func_wrapper.keys kwargs) ->
  NoDup (tf_func_wrapper.keys to_update) ->
  NoDup (map snd to_update) ->
  (forall x, In x (map snd to_update) -> ~ In x (tf_func_wrapper.keys to_update)) ->
  tf_func_wrapper._update_kwarg_keys kwargs to_update = inr r ->
  (forall k, ~ In k (tf_func_wrapper.keys to_update) ->
             ~ In k (map snd to_update) ->
             tf_func_wrapper.dict_get r k = tf_func_wrapper.dict_get kwargs k) /\
  (forall key val,
     In (key, val) to_update ->
     (In key (tf_func_wrapper.keys kwargs) ->
      tf_func_wrapper.dict_get r val = tf_func_wrapper.dict_get kwargs key /\
      tf_func_wrapper.dict_get r key = None) /\
     (~ In key (tf_func_wrapper.keys kwargs) ->
      tf_func_wrapper.dict_get r val = tf_func_wrapper.dict_get kwargs val /\
      tf_func_wrapper.dict_get r key = None)).
Proof.
  intros Hk Hu Ht Hd H. unfold tf_func_wrapper._update_kwarg_keys in H. split.
  - intros k H1 H2.
    apply (update_loop_untouched to_update _ Hk kwargs r k H H1 H2).
  - intros key val Hin.
    destruct (update_loop_renamed to_update _ Hk Hu Ht Hd kwargs r key val H Hin)
      as [H1 H2].
    split; [exact H1 |].
    intro Hi. destruct (H2 Hi) as [Ha Hb]. split; [exact Ha |].
    rewrite Hb.
    destruct (tf_func_wrapper.dict_get kwargs key) eqn:E; [| reflexivity].
    exfalso. apply Hi. apply dict_get_in_keys. congruence.
Qed.

Lemma update_kwarg_keys_never_raises_witness :
  exists r,
    tf_func_wrapper._update_kwarg_keys raw_ops_kwargs raw_ops_renaming = inr r.
Proof.
  apply (update_kwarg_keys_never_raises raw_ops_kwargs raw_ops_renaming).
  - repeat constructor; simpl; intuition discriminate.
  - repeat constructor; simpl; intuition discriminate.
Defined.

Lemma update_kwarg_keys_renames_witness :
  tf_func_wrapper.dict_get [("axis", 2); ("x", 1)] "x"
  = tf_func_wrapper.dict_get raw_ops_kwargs "input" /\
  tf_func_wrapper.dict_get [("axis", 2); ("x", 1)] "input" = None.
Proof.
  destruct (update_kwarg_keys_renames raw_ops_kwargs raw_ops_renaming
              [("axis", 2); ("x", 1)]) as [_ H].
  - repeat constructor; simpl; intuition discriminate.
  - repeat constructor; simpl; intuition discriminate.
  - repeat constructor; simpl; intuition discriminate.
  - intros x [<- | []] [H | []]. discriminate H.
  - reflexivity.
  - apply (H "input" "x").
    + left. reflexivity.
    + left. reflexivity.
Defined.

Section TfDtype.
Import tf_func_wrapper.
Context {X R : Type}.
Variable to_ivy_dtype : X -> X.
Variable fn : list (option X) -> option X -> Dict (option X) -> R.

Lemma index_bound (l : list string) (x : string) (i : nat) :
  index l x = Some i -> (i < List.length l)%nat /\ nth i l "" = x.
Proof.
  revert i. induction l as [| y l IH]; intros i H; simpl in H; [discriminate |].
  destruct (String.eqb y x) eqn:E.
  - inversion H. subst. apply String.eqb_eq in E. simpl. split; [lia | exact E].
  - destruct (index l x) as [j |]; [| discriminate].
    inversion H. subst. destruct (IH j eq_refl). simpl. split; [lia | assumption].
Qed.

Lemma keys_dict_set {V} (d : Dict V) (k : string) (v : V) (x : string) :
  In x (keys (dict_set d k v)) <-> x = k \/ In x (keys d).
Proof.
  induction d as [| [k0 v0] d IH]; simpl.
  - split; [intros [H | []]; auto | intros [H | []]; auto].
  - destruct (String.eqb k0 k) eqn:E; simpl.
    + apply String.eqb_eq in E. subst k0. split.
      * intros [H | H]; auto.
      * intros [H | [H | H]]; auto.
    + rewrite IH. split; intros H; tauto.
Qed.

Lemma dict_get_merge {V} (b a : Dict V) (k : string) :
  NoDup (keys b) ->
  dict_get (dict_merge a b) k
  = match dict_get b k with
    | Some v => Some v
    | None => dict_get a k
    end.
Proof.
  unfold dict_merge. revert a.
  induction b as [| [k0 v0] b IH]; intros a Hn; simpl; [reflexivity |].
  simpl in Hn. inversion Hn as [| x l Hk Hn']. subst.
  rewrite (IH _ Hn'). rewrite dict_get_set.
  destruct (String.eqb k0 k) eqn:E.
  - apply String.eqb_eq in E. subst k0.
    destruct (dict_get b k) eqn:Eg; [| reflexivity].
    exfalso. apply Hk. apply dict_get_in_keys. congruence.
  - reflexivity.
Qed.

Lemma keys_dict_merge {V} (b a : Dict V) (x : string) :
  In x (keys (dict_merge a b)) <-> In x (keys a) \/ In x (keys b).
Proof.
  unfold dict_merge. revert a.
  induction b as [| [k0 v0] b IH]; intro a; simpl; [tauto |].
  rewrite IH, keys_dict_set. simpl. split; intros H; intuition auto.
Qed.

Lemma keys_combine {V} (names : list string) (values : list V) :
  keys (combine names values) = firstn (List.length values) names.
Proof.
  revert values. induction names as [| n names IH]; intros [| v values];
    simpl; try reflexivity.
  - f_equal. apply IH.
Qed.

Lemma in_firstn {A} (n : nat) (l : list A) (x : A) :
  In x (firstn n l) -> In x l.
Proof.
  revert n. induction l as [| y l IH]; intros [| n] H; simpl in *; try tauto.
  destruct H as [H | H]; [left; exact H | right; exact (IH n H)].
Qed.

Lemma NoDup_firstn {A} (n : nat) (l : list A) : NoDup l -> NoDup (firstn n l).
Proof.
  revert n. induction l as [| x l IH]; intros [| n] H; simpl;
    try constructor.
  - inversion H. subst. intro Hx. apply in_firstn in Hx. contradiction.
  - inversion H. auto.
Qed.

Lemma NoDup_skipn {A} (n : nat) (l : list A) : NoDup l -> NoDup (skipn n l).
Proof.
  revert n. induction l as [| x l IH]; intros [| n] H; simpl; auto.
  inversion H. auto.
Qed.

Lemma dict_get_combine {V} (names : list string) (values : list V) (j : nat)
    (d : V) :
  NoDup names -> (j < List.length names)%nat -> (j < List.length values)%nat ->
  dict_get (combine names values) (nth j names "") = Some (nth j values d).
Proof.
  revert values j. induction names as [| n names IH]; intros [| v values] j Hn Hj Hv;
    simpl in *; try lia.
  inversion Hn as [| x l Hx Hn']. subst.
  destruct j as [| j].
  - rewrite String.eqb_refl. reflexivity.
  - destruct (String.eqb n (nth j names "")) eqn:E.
    + apply String.eqb_eq in E. exfalso. apply Hx. rewrite E.
      apply nth_In. lia.
    + apply IH; [exact Hn' | lia | lia].
Qed.

Lemma handle_tf_dtype_call (parameters : list string) (dtype_pos : nat)
    (args : list (option X)) (dtype : option X) (kwargs : Dict (option X)) :
  NoDup parameters -> NoDup (keys kwargs) ->
  exists dtype' kwargs',
    _handle_tf_dtype to_ivy_dtype fn parameters dtype_pos args dtype kwargs
    = fn (firstn dtype_pos args) dtype' kwargs' /\
    ((dtype_pos < List.length args)%nat ->
     dtype' = option_map to_ivy_dtype (nth dtype_pos args None)) /\
    ((List.length args <= dtype_pos)%nat ->
     dtype' = option_map to_ivy_dtype dtype) /\
    (forall k, In k (keys kwargs) -> dict_get kwargs' k = dict_get kwargs k) /\
    (forall i, (dtype_pos < i < List.length args)%nat ->
               (i < List.length parameters)%nat ->
               ~ In (nth i parameters "") (keys kwargs) ->
               dict_get kwargs' (nth i parameters "") = Some (nth i args None)) /\
    (forall k, In k (keys kwargs') ->
               In k (keys kwargs) \/
               exists i, (dtype_pos < i < List.length parameters)%nat /\
                         (i < List.length args)%nat /\
                         k = nth i parameters "").
Proof.
  intros Hp Hk. unfold _handle_tf_dtype.
  destruct (dtype_pos + 1 <? List.length args)%nat eqn:E1.
  - apply Nat.ltb_lt in E1.
    set (names := slice parameters (dtype_pos + 1) (List.length args)).
    set (values := skipn (dtype_pos + 1) args).
    assert (Hnames : NoDup names)
      by (apply NoDup_firstn, NoDup_skipn; exact Hp).
    assert (Hzip : NoDup (keys (combine names values)))
      by (rewrite keys_combine; apply NoDup_firstn; exact Hnames).
    assert (Hlv : List.length values = (List.length args - (dtype_pos + 1))%nat)
      by (subst values; apply length_skipn).
    assert (Hln : List.length names
                  = Nat.min (List.length args - (dtype_pos + 1))
                      (List.length parameters - (dtype_pos + 1)))
      by (subst names; unfold slice; rewrite length_firstn, length_skipn;
          reflexivity).
    assert (Hnth : forall j, (j < List.length names)%nat ->
                     nth j names "" = nth (dtype_pos + 1 + j) parameters "").
    { intros j Hj. subst names. unfold slice.
      rewrite nth_firstn.
      assert (E : (j <? List.length args - (dtype_pos + 1))%nat = true)
        by (apply Nat.ltb_lt; lia).
      rewrite E. apply nth_skipn. }
    exists (match nth dtype_pos args None with
            | Some d => Some (to_ivy_dtype d)
            | None => None
            end),
      (dict_merge (dict_of_zip names values) kwargs).
    split; [destruct (nth dtype_pos args None); reflexivity |].
    split; [intros _; destruct (nth dtype_pos args None); reflexivity |].
    split; [intro; lia |].
    split; [| split].
    + intros k Hin. rewrite (dict_get_merge kwargs _ k Hk).
      destruct (dict_get kwargs k) eqn:Eg; [reflexivity |].
      exfalso. apply dict_get_in_keys in Hin. congruence.
    + intros i Hi Hip Hnk. rewrite (dict_get_merge kwargs _ _ Hk).
      destruct (dict_get kwargs (nth i parameters "")) eqn:Eg.
      { exfalso. apply Hnk. apply dict_get_in_keys. congruence. }
      unfold dict_of_zip.
      change (fold_left _ (combine names values) [])
        with (dict_merge (@nil (string * option X)) (combine names values)).
      rewrite (dict_get_merge _ _ _ Hzip). simpl.
      set (j := (i - (dtype_pos + 1))%nat).
      assert (Hj : (j < List.length names)%nat) by (subst j; lia).
      assert (Ei : i = (dtype_pos + 1 + j)%nat) by (subst j; lia).
      rewrite Ei at 1. rewrite <- (Hnth j Hj).
      rewrite (dict_get_combine names values j None Hnames Hj) by lia.
      subst values. rewrite nth_skipn. rewrite <- Ei. reflexivity.
    + intros k Hin. apply keys_dict_merge in Hin. destruct Hin as [Hin | Hin];
        [| left; exact Hin].
      right. unfold dict_of_zip in Hin.
      change (fold_left _ (combine names values) [])
        with (dict_merge (@nil (string * option X)) (combine names values)) in Hin.
      apply keys_dict_merge in Hin. destruct Hin as [[] | Hin].
      rewrite keys_combine in Hin. apply in_firstn in Hin.
      destruct (In_nth names k "" Hin) as (j & Hj & <-).
      exists (dtype_pos + 1 + j)%nat. split; [lia |]. split; [lia |].
      apply Hnth. exact Hj.
  - apply Nat.ltb_ge in E1.
    destruct (Nat.eqb (List.length args) (dtype_pos + 1)) eqn:E2.
    + apply Nat.eqb_eq in E2.
      assert (Hf : removelast args = firstn dtype_pos args).
      { rewrite removelast_firstn_len. f_equal. lia. }
      rewrite Hf.
      exists (match nth dtype_pos args None with
              | Some d => Some (to_ivy_dtype d)
              | None => None
              end), kwargs.
      split; [destruct (nth dtype_pos args None); reflexivity |].
      split; [intros _; destruct (nth dtype_pos args None); reflexivity |].
      split; [intro; lia |].
      split; [reflexivity |]. split; [intros; lia | auto].
    + apply Nat.eqb_neq in E2.
      assert (Hf : firstn dtype_pos args = args)
        by (apply firstn_all2; lia).
      rewrite Hf.
      exists (match dtype with
              | Some d => Some (to_ivy_dtype d)
              | None => None
              end), kwargs.
      split; [destruct dtype; reflexivity |].
      split; [intro; lia |].
      split; [intros _; destruct dtype; reflexivity |].
      split; [reflexivity |]. split; [intros; lia | auto].
Qed.
End TfDtype.

(** X20. The wrapper [handle_tf_dtype] makes around a function whose
    signature has a parameter [dtype], called without a keyword named
    [dtype] among the other keywords (Python binds that one to [dtype]).
    The function is called with the positional arguments that precede
    [dtype] only.  A [dtype] given by position is passed by keyword,
    converted, and takes the place of a [dtype] given by keyword; without
    one the keyword [dtype] is converted and passed.  A positional
    argument after [dtype] is passed under the name of its parameter,
    unless that name was given by keyword, in which case the keyword
    wins.  Every keyword the function receives is one it was given or the
    name of such a parameter, so positional arguments beyond the
    signature are dropped, and [dtype] is never among them. *)
Theorem handle_tf_dtype_passes_dtype_by_keyword {X R : Type}
    (to_ivy_dtype : X -> X)
    (fn : list (option X) -> option X -> tf_func_wrapper.Dict (option X) -> R)
    (parameters : list string) (dtype_pos : nat)
    (args : list (option X)) (dtype : option X)
    (kwargs : tf_func_wrapper.Dict (option X)) :
  NoDup parameters -> NoDup (tf_func_wrapper.keys kwargs) ->
  ~ In "dtype" (tf_func_wrapper.keys kwargs) ->
  tf_func_wrapper.index parameters "dtype" = Some dtype_pos ->
  exists wrapper dtype' kwargs',
    tf_func_wrapper.handle_tf_dtype to_ivy_dtype fn parameters = Some wrapper /\
    wrapper args dtype kwargs = fn (firstn dtype_pos args) dtype' kwargs' /\
    ((dtype_pos < List.length args)%nat ->
     dtype' = option_map to_ivy_dtype (nth dtype_pos args None)) /\
    ((List.length args <= dtype_pos)%nat ->
     dtype' = option_map to_ivy_dtype dtype) /\
    (forall k, In k (tf_func_wrapper.keys kwargs) ->
               tf_func_wrapper.dict_get kwargs' k
               = tf_func_wrapper.dict_get kwargs k) /\
    (forall i, (dtype_pos < i < List.length args)%nat ->
               (i < List.length parameters)%nat ->
               ~ In (nth i parameters "") (tf_func_wrapper.keys kwargs) ->
               tf_func_wrapper.dict_get kwargs' (nth i parameters "")
               = Some (nth i args None)) /\
    (forall k, In k (tf_func_wrapper.keys kwargs') ->
               In k (tf_func_wrapper.keys kwargs) \/
               exists i, (dtype_pos < i < List.length parameters)%nat /\
                         (i < List.length args)%nat /\
                         k = nth i parameters "") /\
    ~ In "dtype" (tf_func_wrapper.keys kwargs').
Proof.
  intros Hp Hk Hd Hi.
  destruct (handle_tf_dtype_call to_ivy_dtype fn parameters dtype_pos args
              dtype kwargs Hp Hk)
    as (dtype' & kwargs' & H1 & H2 & H3 & H4 & H5 & H6).
  exists (tf_func_wrapper._handle_tf_dtype to_ivy_dtype fn parameters dtype_pos),
    dtype', kwargs'.
  split; [unfold tf_func_wrapper.handle_tf_dtype; rewrite Hi; reflexivity |].
  repeat (split; [assumption |]).
  intro Hin. destruct (H6 _ Hin) as [Hin' | (i & Hlt & _ & Hn)];
    [exact (Hd Hin') |].
  destruct (index_bound parameters "dtype" dtype_pos Hi) as [Hb Hnth].
  rewrite <- Hnth in Hn.
  apply (proj1 (NoDup_nth parameters "") Hp) in Hn; lia.
Qed.

Lemma handle_tf_dtype_passes_dtype_by_keyword_witness :
  exists wrapper dtype' kwargs',
    tf_func_wrapper.handle_tf_dtype (Z.add 100) tf_received
      ["x"; "dtype"; "name"] = Some wrapper /\
    wrapper [Some 1; Some 2; Some 3; Some 4] (Some 5) [("name", Some 6)]
    = tf_received (firstn 1 [Some 1; Some 2; Some 3; Some 4]) dtype' kwargs' /\
    ((1 < List.length [Some 1; Some 2; Some 3; Some 4])%nat ->
     dtype' = option_map (Z.add 100)
                (nth 1 [Some 1; Some 2; Some 3; Some 4] None)) /\
    ((List.length [Some 1; Some 2; Some 3; Some 4] <= 1)%nat ->
     dtype' = option_map (Z.add 100) (Some 5)) /\
    (forall k, In k (tf_func_wrapper.keys [("name", Some 6)]) ->
               tf_func_wrapper.dict_get kwargs' k
               = tf_func_wrapper.dict_get [("name", Some 6)] k) /\
    (forall i, (1 < i < List.length [Some 1; Some 2; Some 3; Some 4])%nat ->
               (i < List.length ["x"; "dtype"; "name"])%nat ->
               ~ In (nth i ["x"; "dtype"; "name"] "")
                   (tf_func_wrapper.keys [("name", Some 6)]) ->
               tf_func_wrapper.dict_get kwargs' (nth i ["x"; "dtype"; "name"] "")
               = Some (nth i [Some 1; Some 2; Some 3; Some 4] None)) /\
    (forall k, In k (tf_func_wrapper.keys kwargs') ->
               In k (tf_func_wrapper.keys [("name", Some 6)]) \/
               exists i, (1 < i < List.length ["x"; "dtype"; "name"])%nat /\
                         (i < List.length [Some 1; Some 2; Some 3; Some 4])%nat /\
                         k = nth i ["x"; "dtype"; "name"] "") /\
    ~ In "dtype" (tf_func_wrapper.keys kwargs').
Proof.
  apply (handle_tf_dtype_passes_dtype_by_keyword (Z.add 100) tf_received
           ["x"; "dtype"; "name"] 1 [Some 1; Some 2; Some 3; Some 4] (Some 5)
           [("name", Some 6)]).
  - repeat constructor; simpl; intuition discriminate.
  - repeat constructor; simpl; intuition discriminate.
  - simpl. intuition discriminate.
  - reflexivity.
Defined.

(* ================================================================== *)
(** ** Properties of the index paths of a nested list *)
(* ================================================================== *)

Section GetIndex.
Import jax_statistical.

Lemma PyList_nested_ind (P : PyList -> Prop) :
  (forall v, P (Item v)) ->
  (forall l, Forall P l -> P (Items l)) ->
  forall lst, P lst.
Proof.
  intros HI HL. fix IH 1. intros [v | l]; [apply HI |].
  apply HL. induction l as [| x l IHl]; constructor; [apply IH | exact IHl].
Qed.

(** What one call adds to the list it is given: the entries it had, then
    one entry per number below [lst], its path behind [prefix]. *)
Lemma get_index_adds (lst : PyList) :
  forall (acc : list Entry) (pre : list nat),
  exists added,
    __get_index lst (Some acc) (Some pre) = acc ++ added /\
    (forall v p, In (v, p) added <->
                 exists q, p = pre ++ q /\ item_at lst q = Some (Item v)) /\
    NoDup (map snd added).
Proof.
  induction lst as [v | l IH] using PyList_nested_ind; intros acc pre.
  - exists [(v, pre)]. split; [reflexivity |]. split.
    + intros v' p. simpl. split.
      * intros [H | []]. inversion H. subst. exists []. split;
          [rewrite app_nil_r; reflexivity | reflexivity].
      * intros (q & -> & H). destruct q as [| i q]; simpl in H;
          [| discriminate].
        inversion H. subst. rewrite app_nil_r. left. reflexivity.
    + simpl. constructor; [intros [] | constructor].
  - cbn [__get_index].
    set (loop := fix loop (l : list PyList) (i : nat) (indices : list Entry)
           : list Entry :=
           match l with
           | [] => indices
           | sub_lst :: rest =>
               loop rest (S i)
                 (__get_index sub_lst (Some indices) (Some (pre ++ [i])))
           end).
    assert (G : forall (i : nat) (acc : list Entry),
              exists added,
                loop l i acc = acc ++ added /\
                (forall v p, In (v, p) added <->
                   exists j q, p = pre ++ (i + j)%nat :: q /\
                               match nth_error l j with
                               | Some sub_lst => item_at sub_lst q = Some (Item v)
                               | None => False
                               end) /\
                NoDup (map snd added)).
    { clear acc. induction l as [| x l IHl]; intros i acc.
      - exists []. split; [simpl; rewrite app_nil_r; reflexivity |]. split.
        + intros v p. simpl. split; [intros [] |].
          intros (j & q & _ & H). destruct j; exact H.
        + constructor.
      - inversion IH as [| y l' Hx Hl]. subst.
        destruct (Hx acc (pre ++ [i])) as (a1 & E1 & M1 & N1).
        destruct (IHl Hl (S i) (acc ++ a1)) as (a2 & E2 & M2 & N2).
        exists (a1 ++ a2). split; [| split].
        + cbn [loop]. fold loop. rewrite E1, E2, app_assoc. reflexivity.
        + intros v p. rewrite in_app_iff, M1, M2. split.
          * intros [(q & -> & H) | (j & q & -> & H)].
            -- exists O, q. split; [| exact H].
               rewrite <- app_assoc, Nat.add_0_r. reflexivity.
            -- exists (S j), q. split; [| exact H].
               rewrite Nat.add_succ_r. reflexivity.
          * intros (j & q & -> & H). destruct j as [| j].
            -- left. exists q. split; [| exact H].
               rewrite <- app_assoc, Nat.add_0_r. reflexivity.
            -- right. exists j, q. split; [| exact H].
               rewrite Nat.add_succ_r. reflexivity.
        + rewrite map_app. apply NoDup_app; [exact N1 | exact N2 |].
          intros p H1 H2.
          apply in_map_iff in H1. destruct H1 as ([v1 p1] & <- & H1).
          apply in_map_iff in H2. destruct H2 as ([v2 p2] & E & H2).
          simpl in E. subst p2.
          apply M1 in H1. apply M2 in H2.
          destruct H1 as (q1 & -> & _). destruct H2 as (j & q2 & E & _).
          simpl in E. rewrite <- app_assoc in E. apply app_inv_head in E.
          simpl in E. inversion E. lia. }
    destruct (G O acc) as (added & E & M & N).
    exists added. split; [exact E |]. split; [| exact N].
    intros v p. rewrite M. split.
    + intros (j & q & -> & H). exists (j :: q). split; [reflexivity |].
      simpl. destruct (nth_error l j); [exact H | contradiction].
    + intros (q & -> & H). destruct q as [| j q]; simpl in H; [discriminate |].
      exists j, q. split; [reflexivity |].
      destruct (nth_error l j); [exact H | discriminate].
Qed.
End GetIndex.

(** X21. [__get_index] called on a nested list alone returns exactly the
    numbers of the list with their positions: a pair [(v, p)] is in the
    result if and only if indexing the list by [p] gives the number [v];
    and no position is listed twice. *)
Theorem get_index_lists_each_item_once (lst : jax_statistical.PyList) :
  (forall v p,
     In (v, p) (jax_statistical.__get_index lst None None) <->
     jax_statistical.item_at lst p = Some (jax_statistical.Item v)) /\
  NoDup (map snd (jax_statistical.__get_index lst None None)).
Proof.
  destruct (get_index_adds lst [] []) as (added & E & M & N).
  assert (E' : jax_statistical.__get_index lst None None = added).
  { simpl in E. rewrite <- E. destruct lst; reflexivity. }
  rewrite E'. split; [| exact N].
  intros v p. rewrite M. split.
  - intros (q & -> & H). exact H.
  - intro H. exists p. split; [reflexivity | exact H].
Qed.

(* ================================================================== *)
(** ** Properties of the depth pooling of the tensorflow backend *)
(* ================================================================== *)

Section DepthPoolingFacts.
Import tf_layers.

Lemma last_item_inr (l : list Z) (v : Z) :
  last_item l = inr v -> l <> [] /\ last l 0 = v.
Proof.
  destruct l; simpl; [discriminate |]. intro H. inversion H.
  split; [discriminate | reflexivity].
Qed.

Lemma length_inner (l : list Z) :
  List.length (inner l) = (List.length l - 2)%nat.
Proof.
  unfold inner. destruct l as [| a l]; simpl; [reflexivity |].
  destruct l as [| b l]; [reflexivity |].
  rewrite removelast_firstn_len, length_firstn. simpl. lia.
Qed.

Lemma length_times (v n : Z) : Z.of_nat (List.length (times v n)) = Z.max 0 n.
Proof. unfold times. rewrite repeat_length. lia. Qed.

Lemma times_all (v n : Z) : Forall (eq v) (times v n).
Proof.
  unfold times. induction (Z.to_nat n); simpl; constructor; auto.
Qed.

Lemma not_existsb_Forall (l : list Z) :
  existsb (fun k => negb (k =? 1)) l = false -> Forall (eq 1) l.
Proof.
  induction l as [| a l IH]; simpl; intro H; constructor.
  - apply Bool.orb_false_iff in H. destruct H as [H _].
    apply Bool.negb_false_iff, Z.eqb_eq in H. auto.
  - apply IH. apply Bool.orb_false_iff in H. tauto.
Qed.
End DepthPoolingFacts.

(** X22. What [_determine_depth_max_pooling] returns for a kernel of
    [dims + 2] entries, [dims] at least 1.  The kernel returned has
    [dims] entries.  Without depth pooling the tensor is the one given,
    the depth window of the kernel was 1 and the kernel returned is its
    spatial part.  With depth pooling the kernel returned is the depth
    window followed by ones, the strides returned are equal to it, the
    spatial windows of the kernel given were all 1, the depth window is
    neither 0 nor 1 and divides the depth of the input, and the tensor
    was transposed once. *)
Theorem depth_max_pooling_result {Tensor : Type}
    (shape : Tensor -> list Z) (transpose : Tensor -> list Z -> Tensor)
    (x : Tensor) (kernel strides : list Z) (dims : Z)
    (x' : Tensor) (kernel' strides' : list Z) (depth_pooling : bool) :
  Z.of_nat (List.length kernel) = dims + 2 ->
  1 <= dims ->
  tf_layers._determine_depth_max_pooling shape transpose x kernel strides dims
  = inr (x', kernel', strides', depth_pooling) ->
  Z.of_nat (List.length kernel') = dims /\
  (depth_pooling = false ->
   x' = x /\ tf_layers.last_item kernel = inr 1 /\
   kernel' = tf_layers.inner kernel) /\
  (depth_pooling = true ->
   exists window depth,
     tf_layers.last_item kernel = inr window /\
     tf_layers.last_item strides = inr window /\
     tf_layers.last_item (shape x) = inr depth /\
     window <> 1 /\ window <> 0 /\ depth mod window = 0 /\
     Forall (eq 1) (tf_layers.inner kernel) /\
     kernel' = window :: tf_layers.times 1 (dims - 1) /\
     strides' = kernel' /\
     x' = transpose x (0 :: dims + 1 :: tf_layers.range 1 (dims + 1))).
Proof.
  intros Hl Hd H. unfold tf_layers._determine_depth_max_pooling in H.
  apply Z.eqb_eq in Hl. rewrite Hl in H. apply Z.eqb_eq in Hl.
  destruct (tf_layers.last_item kernel) as [e | window] eqn:Ek;
    [discriminate |].
  destruct (window =? 1) eqn:Ew; simpl in H.
  - inversion H. subst. apply Z.eqb_eq in Ew. subst window.
    split; [rewrite length_inner; lia |].
    split; [auto | discriminate].
  - destruct (existsb _ (tf_layers.inner kernel)) eqn:Es; [discriminate |].
    destruct (Z.of_nat (List.length strides) =? dims + 2) eqn:El;
      simpl in H; [| discriminate].
    destruct (tf_layers.last_item strides) as [e | s] eqn:Est;
      [discriminate |].
    destruct (s =? window) eqn:Esw; simpl in H; [| discriminate].
    destruct (tf_layers.last_item (shape x)) as [e | depth] eqn:Esh;
      [discriminate |].
    destruct (window =? 0) eqn:E0; [discriminate |].
    destruct (depth mod window =? 0) eqn:Em; simpl in H; [| discriminate].
    inversion H. subst. clear H.
    apply Z.eqb_eq in Esw. subst s.
    apply Z.eqb_neq in Ew, E0. apply Z.eqb_eq in Em.
    split; [| split; [discriminate |]].
    + cbn [List.length]. rewrite Nat2Z.inj_succ, length_times. lia.
    + intros _. exists window, depth.
      repeat (split; [first [reflexivity | assumption] |]);
        try reflexivity.
      split; [apply not_existsb_Forall; exact Es |].
      repeat split.
Qed.

Lemma depth_max_pooling_result_witness :
  Z.of_nat (List.length [2; 1]) = 2 /\
  (true = false ->
   [5; 4; 8; 8] = [5; 8; 8; 4] /\ tf_layers.last_item [1; 1; 1; 2] = inr 1 /\
   [2; 1] = tf_layers.inner [1; 1; 1; 2]) /\
  (true = true ->
   exists window depth,
     tf_layers.last_item [1; 1; 1; 2] = inr window /\
     tf_layers.last_item [1; 1; 1; 2] = inr window /\
     tf_layers.last_item (shape_of [5; 8; 8; 4]) = inr depth /\
     window <> 1 /\ window <> 0 /\ depth mod window = 0 /\
     Forall (eq 1) (tf_layers.inner [1; 1; 1; 2]) /\
     [2; 1] = window :: tf_layers.times 1 (2 - 1) /\
     [2; 1] = [2; 1] /\
     [5; 4; 8; 8]
     = shape_transposed [5; 8; 8; 4]
         (0 :: 2 + 1 :: tf_layers.range 1 (2 + 1))).
Proof.
  apply (depth_max_pooling_result shape_of shape_transposed [5; 8; 8; 4]
           [1; 1; 1; 2] [1; 1; 1; 2] 2 [5; 4; 8; 8] [2; 1] [2; 1] true).
  - reflexivity.
  - lia.
  - reflexivity.
Defined.

(* ================================================================== *)
(** ** Properties of the padding before a convolution *)
(* ================================================================== *)

Section PadBeforeConvFacts.
Import paddle_layers.

Lemma comprehension_map {A B} (f : A -> PyExc + B) (g : A -> B) (l : list A) :
  (forall a, In a l -> f a = inr (g a)) ->
  comprehension f l = inr (map g l).
Proof.
  induction l as [| a l IH]; intro H; simpl; [reflexivity |].
  rewrite (H a (or_introl eq_refl)). simpl.
  rewrite IH by (intros b Hb; apply H; right; exact Hb). reflexivity.
Qed.

Lemma item_nth {A} (l : list A) (i : nat) (d : A) :
  (i < List.length l)%nat -> item l i = inr (nth i l d).
Proof.
  intro H. unfold item.
  destruct (nth_error l i) eqn:E.
  - rewrite (nth_error_nth _ _ d E). reflexivity.
  - apply nth_error_None in E. lia.
Qed.

Lemma rev_concat_rev (l : list (list Z)) :
  rev (List.concat (map (@rev Z) l)) = List.concat (rev l).
Proof.
  induction l as [| a l IH]; simpl; [reflexivity |].
  rewrite rev_app_distr, rev_involutive, IH, concat_app. simpl.
  rewrite app_nil_r. reflexivity.
Qed.

Lemma forallb_concat_rev (f : Z -> bool) (l : list (list Z)) :
  forallb f (List.concat (rev l)) = forallb f (List.concat l).
Proof.
  induction l as [| a l IH]; simpl; [reflexivity |].
  rewrite concat_app, !forallb_app, IH. simpl. rewrite app_nil_r.
  apply Bool.andb_comm.
Qed.

Lemma convert_to_list_returns (value : IntOrSeq) (n : nat) :
  value <> Neither -> exists l, _convert_to_list value n = inr l.
Proof.
  destruct value; intro H; simpl; eauto. contradiction.
Qed.

Lemma concat_repeat_pair (v : Z) (n : nat) :
  List.concat (repeat [v; v] n) = repeat v (2 * n).
Proof.
  induction n as [| n IH]; simpl; [reflexivity |].
  rewrite IH. replace (n + S (n + 0))%nat with (S (2 * n)) by lia.
  reflexivity.
Qed.

Lemma rev_repeat {A} (a : A) (n : nat) : rev (repeat a n) = repeat a n.
Proof.
  induction n as [| n IH]; simpl; [reflexivity |].
  rewrite IH. clear IH. induction n as [| n IH]; simpl; [reflexivity |].
  rewrite IH. reflexivity.
Qed.

Lemma length_interleave (top bot : list Z) :
  List.length top = List.length bot ->
  List.length (interleave top bot) = (2 * List.length top)%nat.
Proof.
  revert bot. induction top as [| t top IH]; intros [| b bot] H; simpl in *;
    try lia.
  rewrite (IH bot) by lia. lia.
Qed.

Lemma nth_interleave (top bot : list Z) (i : nat) :
  List.length top = List.length bot -> (i < List.length top)%nat ->
  nth (2 * i) (interleave top bot) 0 = nth i top 0 /\
  nth (2 * i + 1) (interleave top bot) 0 = nth i bot 0.
Proof.
  revert bot i. induction top as [| t top IH]; intros [| b bot] i H Hi;
    simpl in H, Hi; try lia.
  destruct i as [| i]; [split; reflexivity |].
  replace (2 * S i)%nat with (S (S (2 * i))) by lia.
  replace (S (S (2 * i)) + 1)%nat with (S (S (2 * i + 1))) by lia.
  cbn [interleave nth]. apply IH; lia.
Qed.

Lemma nth_map_within (g : Z -> Z) (l : list Z) (i : nat) :
  (i < List.length l)%nat -> nth i (map g l) 0 = g (nth i l 0).
Proof.
  intro H. rewrite (nth_indep _ 0 (g 0)) by (rewrite length_map; lia).
  apply map_nth.
Qed.

Lemma forallb_interleave (f : Z -> bool) (top bot : list Z) :
  forallb f top = true -> forallb f bot = true ->
  forallb f (interleave top bot) = true.
Proof.
  revert bot. induction top as [| t top IH]; intros [| b bot] Ht Hb;
    simpl in *; try reflexivity.
  apply andb_prop in Ht. apply andb_prop in Hb.
  destruct Ht as [-> Ht]. destruct Hb as [-> Hb]. simpl. auto.
Qed.

Section StringPadding.
Context {Tensor R : Type}.
Variable shape : Tensor -> list Z.
Variable pad : Tensor -> list Z -> string -> R.
Variable _handle_padding : Z -> Z -> Z -> string -> PyExc + Z.

(** The padding [_handle_padding] is asked for along dimension [i]. *)
Lemma string_padding_run (spec : Z -> Z -> Z -> Z)
    (x filters : Tensor) (strides dilations : IntOrSeq)
    (sl dl : list Z) (s : string) (dims : nat) (data_format : string) :
  _convert_to_list strides dims = inr sl ->
  _convert_to_list dilations dims = inr dl ->
  (dims <= List.length sl)%nat -> (dims <= List.length dl)%nat ->
  (dims <= List.length (shape filters))%nat ->
  (dims < List.length (shape x))%nat ->
  (forall a b c, _handle_padding a b c s = inr (spec a b c)) ->
  (forall a b c, 0 <= spec a b c) ->
  let asked i :=
    let f := nth i (shape filters) 0 in
    spec (nth (1 + i) (shape x) 0) (nth i sl 0)
      (f + (f - 1) * (nth i dl 0 - 1)) in
  let padding_spec := map asked (rev (seq 0 dims)) in
  _pad_before_conv shape pad _handle_padding x filters strides (PadStr s) dims
    dilations data_format
  = inr (pad x
           (interleave (map (fun p => p / 2) padding_spec)
              (map (fun p => p - p / 2) padding_spec))
           data_format).
Proof.
  intros Hs Hd Hsl Hdl Hf Hx Hp Hn asked padding_spec.
  unfold _pad_before_conv. rewrite Hd, Hs. cbn [and_then].
  rewrite (comprehension_map _
             (fun i => let f := nth i (shape filters) 0 in
                       f + (f - 1) * (nth i dl 0 - 1))).
  2:{ intros i Hi. apply in_seq in Hi.
      rewrite (item_nth (shape filters) i 0) by lia.
      rewrite (item_nth dl i 0) by lia. reflexivity. }
  cbn [and_then].
  rewrite (comprehension_map _ asked).
  2:{ intros i Hi. apply in_rev, in_seq in Hi.
      rewrite (item_nth (shape x) (1 + i) 0) by lia.
      rewrite (item_nth sl i 0) by lia.
      cbn [and_then].
      match goal with
      | |- context [item (map ?F ?l) i] =>
          rewrite (item_nth (map F l) i (F O))
            by (rewrite length_map, length_seq; lia);
          rewrite (map_nth F l O i), seq_nth by lia
      end.
      cbn [and_then Nat.add]. rewrite Hp. reflexivity. }
  cbn [and_then]. fold padding_spec.
  assert (Hl : List.length padding_spec = dims)
    by (unfold padding_spec; rewrite length_map, length_rev, length_seq;
        reflexivity).
  rewrite (comprehension_map _ (fun i => nth i padding_spec 0 / 2)).
  2:{ intros i Hi. apply in_seq in Hi.
      rewrite (item_nth padding_spec i 0) by lia. reflexivity. }
  cbn [and_then].
  rewrite (comprehension_map _
             (fun i => nth i padding_spec 0 - nth i padding_spec 0 / 2)).
  2:{ intros i Hi. apply in_seq in Hi.
      rewrite (item_nth padding_spec i 0) by lia. reflexivity. }
  cbn [and_then].
  assert (E1 : map (fun i => nth i padding_spec 0 / 2) (seq 0 dims)
               = map (fun p => p / 2) padding_spec).
  { rewrite <- (map_map (fun i => nth i padding_spec 0) (fun p => p / 2)).
    rewrite <- Hl, map_nth_seq. reflexivity. }
  assert (E2 : map (fun i => nth i padding_spec 0 - nth i padding_spec 0 / 2)
                 (seq 0 dims)
               = map (fun p => p - p / 2) padding_spec).
  { rewrite <- (map_map (fun i => nth i padding_spec 0)
                  (fun p => p - p / 2)).
    rewrite <- Hl, map_nth_seq. reflexivity. }
  rewrite E1, E2.
  rewrite forallb_interleave; [reflexivity | |].
  - apply forallb_forall. intros p Hin. apply in_map_iff in Hin.
    destruct Hin as (q & <- & Hq). apply in_map_iff in Hq.
    destruct Hq as (i & <- & _). apply Z.leb_le.
    apply Z.div_pos; [apply Hn | lia].
  - apply forallb_forall. intros p Hin. apply in_map_iff in Hin.
    destruct Hin as (q & <- & Hq). apply in_map_iff in Hq.
    destruct Hq as (i & <- & _). apply Z.leb_le.
    assert (H0 : 0 <= asked i) by apply Hn.
    revert H0. generalize (asked i). intros p H0.
    pose proof (Z.div_mod p 2). pose proof (Z.mod_pos_bound p 2). lia.
Qed.

(** A padding given as one pair per dimension. *)
Lemma explicit_padding_run (x filters : Tensor) (strides dilations : IntOrSeq)
    (pairs : list (list Z)) (dims : nat) (data_format : string) :
  strides <> Neither -> dilations <> Neither ->
  List.length pairs = dims -> (1 <= dims)%nat ->
  _pad_before_conv shape pad _handle_padding x filters strides
    (PadList (map PadSeq pairs)) dims dilations data_format
  = if forallb (fun p => 0 <=? p) (List.concat pairs)
    then inr (pad x (List.concat (rev pairs)) data_format)
    else inl ValueError.
Proof.
  intros Hs Hd Hl Hdims. unfold _pad_before_conv.
  destruct (convert_to_list_returns dilations dims Hd) as (dl & ->).
  destruct (convert_to_list_returns strides dims Hs) as (sl & ->).
  cbn [and_then]. rewrite length_map, Hl, Nat.eqb_refl. cbn [negb].
  destruct pairs as [| pair pairs]; [simpl in Hl; lia |].
  cbn [map item nth_error and_then _is_list_or_tuple negb].
  change (PadSeq pair :: map PadSeq pairs) with (map PadSeq (pair :: pairs)).
  rewrite (comprehension_map _
             (fun sublist => match sublist with
                             | PadSeq s => rev s
                             | PadInt _ => []
                             end)).
  2:{ intros a Ha. apply in_map_iff in Ha. destruct Ha as (p & <- & _).
      reflexivity. }
  cbn [and_then]. rewrite map_map.
  change (map (fun x0 : list Z => rev x0) (pair :: pairs))
    with (map (@rev Z) (pair :: pairs)).
  rewrite rev_concat_rev, forallb_concat_rev.
  destruct (forallb _ (List.concat (pair :: pairs))); reflexivity.
Qed.
End StringPadding.
End PadBeforeConvFacts.

(** X23. [_pad_before_conv] with an explicit padding, for strides and
    dilations that are [int]s or sequences and at least one dimension.
    Given one sequence of pads per dimension, none of them negative,
    paddle's [pad] is called once, with the pads of the last dimension
    first and those of the first dimension last, each dimension's pads
    in the order given; if a pad is negative, [ValueError] is raised and
    nothing is padded.  Given one [int], every one of the [2 * dims]
    pads is that number. *)
Theorem pad_before_conv_explicit_padding {Tensor R : Type}
    (shape : Tensor -> list Z) (pad : Tensor -> list Z -> string -> R)
    (_handle_padding : Z -> Z -> Z -> string -> paddle_layers.PyExc + Z)
    (x filters : Tensor) (strides dilations : paddle_layers.IntOrSeq)
    (dims : nat) (data_format : string) :
  strides <> paddle_layers.Neither -> dilations <> paddle_layers.Neither ->
  (1 <= dims)%nat ->
  (forall pairs : list (list Z),
     List.length pairs = dims ->
     paddle_layers._pad_before_conv shape pad _handle_padding x filters
       strides (paddle_layers.PadList (map paddle_layers.PadSeq pairs)) dims
       dilations data_format
     = if forallb (fun p => 0 <=? p) (List.concat pairs)
       then inr (pad x (List.concat (rev pairs)) data_format)
       else inl paddle_layers.ValueError) /\
  (forall v : Z,
     paddle_layers._pad_before_conv shape pad _handle_padding x filters
       strides (paddle_layers.PadOne v) dims dilations data_format
     = if 0 <=? v
       then inr (pad x (repeat v (2 * dims)) data_format)
       else inl paddle_layers.ValueError).
Proof.
  intros Hs Hd Hdims. split.
  - intros pairs Hl. apply explicit_padding_run; assumption.
  - intro v.
    assert (E : paddle_layers._pad_before_conv shape pad _handle_padding x
                  filters strides (paddle_layers.PadOne v) dims dilations
                  data_format
                = paddle_layers._pad_before_conv shape pad _handle_padding x
                    filters strides
                    (paddle_layers.PadList
                       (map paddle_layers.PadSeq (repeat [v; v] dims)))
                    dims dilations data_format).
    { unfold paddle_layers._pad_before_conv. rewrite map_repeat.
      reflexivity. }
    rewrite E, explicit_padding_run;
      [| assumption | assumption | apply repeat_length | assumption].
    rewrite <- (rev_repeat [v; v] dims) at 2.
    rewrite rev_involutive, concat_repeat_pair.
    destruct (0 <=? v) eqn:Ev.
    + replace (forallb (fun p => 0 <=? p) (repeat v (2 * dims))) with true;
        [reflexivity |].
      symmetry. apply forallb_forall. intros p Hp.
      apply repeat_spec in Hp. subst p. exact Ev.
    + destruct dims as [| n]; [lia |].
      replace (2 * S n)%nat with (S (S (2 * n))) by lia.
      cbn [repeat forallb]. rewrite Ev. reflexivity.
Qed.

Lemma pad_before_conv_explicit_padding_witness :
  (forall pairs : list (list Z),
     List.length pairs = 2%nat ->
     paddle_layers._pad_before_conv shape_of padded_shape filter_less_one
       [1; 8; 8; 3] [3; 3; 3; 4] (paddle_layers.OneInt 1)
       (paddle_layers.PadList (map paddle_layers.PadSeq pairs)) 2
       (paddle_layers.Seq [1; 1]) "NHWC"
     = if forallb (fun p => 0 <=? p) (List.concat pairs)
       then inr (padded_shape [1; 8; 8; 3] (List.concat (rev pairs)) "NHWC")
       else inl paddle_layers.ValueError) /\
  (forall v : Z,
     paddle_layers._pad_before_conv shape_of padded_shape filter_less_one
       [1; 8; 8; 3] [3; 3; 3; 4] (paddle_layers.OneInt 1)
       (paddle_layers.PadOne v) 2 (paddle_layers.Seq [1; 1]) "NHWC"
     = if 0 <=? v
       then inr (padded_shape [1; 8; 8; 3] (repeat v (2 * 2)) "NHWC")
       else inl paddle_layers.ValueError).
Proof.
  apply (pad_before_conv_explicit_padding shape_of padded_shape
           filter_less_one [1; 8; 8; 3] [3; 3; 3; 4] (paddle_layers.OneInt 1)
           (paddle_layers.Seq [1; 1]) 2 "NHWC").
  - discriminate.
  - discriminate.
  - lia.
Defined.

(** X24. [_pad_before_conv] with a padding given by name, when
    [_handle_padding] answers that name with a number that is not
    negative and the strides, the dilations and the shapes of the filter
    and of the input are long enough.  No exception is raised and
    paddle's [pad] is called once, with two pads per dimension, those of
    the last dimension first.  The two pads of a dimension add up to what
    [_handle_padding] asked for that dimension, given its input size, its
    stride and its filter size widened by the dilation; neither is
    negative, and the second is the first or one more. *)
Theorem pad_before_conv_named_padding {Tensor R : Type}
    (shape : Tensor -> list Z) (pad : Tensor -> list Z -> string -> R)
    (_handle_padding : Z -> Z -> Z -> string -> paddle_layers.PyExc + Z)
    (spec : Z -> Z -> Z -> Z)
    (x filters : Tensor) (strides dilations : paddle_layers.IntOrSeq)
    (sl dl : list Z) (s : string) (dims : nat) (data_format : string) :
  paddle_layers._convert_to_list strides dims = inr sl ->
  paddle_layers._convert_to_list dilations dims = inr dl ->
  (dims <= List.length sl)%nat -> (dims <= List.length dl)%nat ->
  (dims <= List.length (shape filters))%nat ->
  (dims < List.length (shape x))%nat ->
  (forall a b c, _handle_padding a b c s = inr (spec a b c)) ->
  (forall a b c, 0 <= spec a b c) ->
  exists p,
    paddle_layers._pad_before_conv shape pad _handle_padding x filters strides
      (paddle_layers.PadStr s) dims dilations data_format
    = inr (pad x p data_format) /\
    List.length p = (2 * dims)%nat /\
    forall i, (i < dims)%nat ->
      let d := (dims - 1 - i)%nat in
      let f := nth d (shape filters) 0 in
      nth (2 * i) p 0 + nth (2 * i + 1) p 0
      = spec (nth (1 + d) (shape x) 0) (nth d sl 0)
          (f + (f - 1) * (nth d dl 0 - 1)) /\
      0 <= nth (2 * i) p 0 /\
      nth (2 * i) p 0 <= nth (2 * i + 1) p 0 <= nth (2 * i) p 0 + 1.
Proof.
  intros Hs Hd Hsl Hdl Hf Hx Hp Hn.
  pose proof (string_padding_run shape pad _handle_padding spec x filters
                strides dilations sl dl s dims data_format
                Hs Hd Hsl Hdl Hf Hx Hp Hn) as Hrun.
  cbv zeta in Hrun.
  set (asked := fun i : nat =>
         spec (nth (1 + i) (shape x) 0) (nth i sl 0)
           (nth i (shape filters) 0
            + (nth i (shape filters) 0 - 1) * (nth i dl 0 - 1))) in Hrun.
  set (padding_spec := map asked (rev (seq 0 dims))) in Hrun.
  assert (Hl : List.length padding_spec = dims)
    by (unfold padding_spec; rewrite length_map, length_rev, length_seq;
        reflexivity).
  exists (paddle_layers.interleave (map (fun p => p / 2) padding_spec)
            (map (fun p => p - p / 2) padding_spec)).
  split; [exact Hrun |].
  split; [rewrite length_interleave; rewrite !length_map; lia |].
  intros i Hi. cbv zeta.
  destruct (nth_interleave (map (fun p => p / 2) padding_spec)
              (map (fun p => p - p / 2) padding_spec) i) as [E1 E2];
    [rewrite !length_map; reflexivity | rewrite length_map; lia |].
  rewrite E1, E2.
  rewrite !nth_map_within by lia.
  assert (Ea : nth i padding_spec 0 = asked (dims - 1 - i)%nat).
  { unfold padding_spec.
    rewrite (nth_indep _ 0 (asked O)) by (rewrite length_map, length_rev, length_seq; lia).
    rewrite map_nth. f_equal.
    rewrite rev_nth by (rewrite length_seq; lia).
    rewrite length_seq, seq_nth by lia. lia. }
  rewrite Ea. fold (asked (dims - 1 - i)%nat).
  assert (H0 : 0 <= asked (dims - 1 - i)%nat) by apply Hn.
  revert H0. generalize (asked (dims - 1 - i)%nat). intros q H0.
  pose proof (Z.div_mod q 2). pose proof (Z.mod_pos_bound q 2). lia.
Qed.

Lemma pad_before_conv_named_padding_witness :
  exists p,
    paddle_layers._pad_before_conv shape_of padded_shape filter_less_one
      [1; 8; 8; 3] [4; 3; 3; 4] (paddle_layers.OneInt 1)
      (paddle_layers.PadStr "SAME") 2 (paddle_layers.Seq [1; 1]) "NHWC"
    = inr (padded_shape [1; 8; 8; 3] p "NHWC") /\
    List.length p = (2 * 2)%nat /\
    forall i, (i < 2)%nat ->
      let d := (2 - 1 - i)%nat in
      let f := nth d (shape_of [4; 3; 3; 4]) 0 in
      nth (2 * i) p 0 + nth (2 * i + 1) p 0
      = (fun _ _ c => Z.max 0 (c - 1))
          (nth (1 + d) (shape_of [1; 8; 8; 3]) 0) (nth d [1; 1] 0)
          (f + (f - 1) * (nth d [1; 1] 0 - 1)) /\
      0 <= nth (2 * i) p 0 /\
      nth (2 * i) p 0 <= nth (2 * i + 1) p 0 <= nth (2 * i) p 0 + 1.
Proof.
  apply (pad_before_conv_named_padding shape_of padded_shape filter_less_one
           (fun _ _ c => Z.max 0 (c - 1))
           [1; 8; 8; 3] [4; 3; 3; 4] (paddle_layers.OneInt 1)
           (paddle_layers.Seq [1; 1]) [1; 1] [1; 1] "SAME" 2 "NHWC").
  - reflexivity.
  - reflexivity.
  - simpl. lia.
  - simpl. lia.
  - simpl. lia.
  - simpl. lia.
  - intros a b c. reflexivity.
  - intros a b c. lia.
Defined.
